(** * DS9097 / DS18B20 reader: a shallow embedding of [digitemp.py]

    The development follows the source file top to bottom: the CRC-8
    table and [crc8], the [OneWireAdapter] methods ([reset],
    [switch_to_data_mode], [touch_bit], [touch_byte], [write_byte],
    [read_byte], [search_rom], [read_temperature]), [rom_to_hex] and the
    batch loop of [main].

    Python integers are [Z]; lists of integers are [list Z]; the serial
    port, the clock and the 1-Wire devices behind it are an abstract
    host, given by the operations the code calls on it. *)

From Stdlib Require Import ZArith List Lia Bool String Ascii QArith Sorted DecimalString.
From stdpp Require Import base list.
Import ListNotations.
Open Scope Z_scope.

(** ** Python values *)

(** [range(n)] as the list [0; 1; ...; n-1]. *)
Definition range (n : nat) : list Z := Z.of_nat <$> seq 0 n.

(** [l[i]] on a Python list: indices [0 .. len-1] count from the front,
    [-len .. -1] from the back, anything else raises [IndexError]
    ([None] here). *)
Definition py_index {A : Type} (l : list A) (i : Z) : option A :=
  if 0 <=? i then l !! Z.to_nat i
  else if - Z.of_nat (length l) <=? i then l !! Z.to_nat (Z.of_nat (length l) + i)
  else None.

(** [l[i] = v] on a Python list, with the same index rule. *)
Definition py_setitem {A : Type} (l : list A) (i : Z) (v : A) : option (list A) :=
  if 0 <=? i then
    if i <? Z.of_nat (length l) then Some (<[Z.to_nat i := v]> l) else None
  else if - Z.of_nat (length l) <=? i then
    Some (<[Z.to_nat (Z.of_nat (length l) + i) := v]> l)
  else None.

(** A value that fits in one byte. *)
Definition is_byte (b : Z) : Prop := 0 <= b < 256.

(** A ROM code as the code builds it: eight bytes. *)
Definition is_rom (rom : list Z) : Prop := length rom = 8%nat /\ Forall is_byte rom.

(** ** CRC-8 (lines 15-40) *)

Definition CRC8_TABLE : list Z :=
  [ 0; 94; 188; 226; 97; 63; 221; 131; 194; 156; 126; 32; 163; 253; 31; 65;
    157; 195; 33; 127; 252; 162; 64; 30; 95; 1; 227; 189; 62; 96; 130; 220;
    35; 125; 159; 193; 66; 28; 254; 160; 225; 191; 93; 3; 128; 222; 60; 98;
    190; 224; 2; 92; 223; 129; 99; 61; 124; 34; 192; 158; 29; 67; 161; 255;
    70; 24; 250; 164; 39; 121; 155; 197; 132; 218; 56; 102; 229; 187; 89; 7;
    219; 133; 103; 57; 186; 228; 6; 88; 25; 71; 165; 251; 120; 38; 196; 154;
    101; 59; 217; 135; 4; 90; 184; 230; 167; 249; 27; 69; 198; 152; 122; 36;
    248; 166; 68; 26; 153; 199; 37; 123; 58; 100; 134; 216; 91; 5; 231; 185;
    140; 210; 48; 110; 237; 179; 81; 15; 78; 16; 242; 172; 47; 113; 147; 205;
    17; 79; 173; 243; 112; 46; 204; 146; 211; 141; 111; 49; 178; 236; 14; 80;
    175; 241; 19; 77; 206; 144; 114; 44; 109; 51; 209; 143; 12; 82; 176; 238;
    50; 108; 142; 208; 83; 13; 239; 177; 240; 174; 76; 18; 145; 207; 45; 115;
    202; 148; 118; 40; 171; 245; 23; 73; 8; 86; 180; 234; 105; 55; 213; 139;
    87; 9; 235; 181; 54; 104; 138; 212; 149; 203; 41; 119; 244; 170; 72; 22;
    233; 183; 85; 11; 136; 214; 52; 106; 43; 117; 151; 201; 74; 20; 246; 168;
    116; 42; 200; 150; 21; 75; 169; 247; 182; 232; 10; 84; 215; 137; 107; 53 ].

(** The loop of [crc8], started from a running value [crc]:
    [crc = CRC8_TABLE[crc ^ byte]] for each byte in turn. *)
Fixpoint crc8_from (crc : Z) (data : list Z) : option Z :=
  match data with
  | [] => Some crc
  | byte :: rest =>
      match py_index CRC8_TABLE (Z.lxor crc byte) with
      | Some crc' => crc8_from crc' rest
      | None => None
      end
  end.

(** [crc8(data)]; [None] is the [IndexError] of an entry outside a byte. *)
Definition crc8 (data : list Z) : option Z := crc8_from 0 data.

(** The bit-serial CRC-8 the table stands for, to compare [crc8] with:
    the Dallas/Maxim polynomial x^8 + x^5 + x^4 + 1 (0x31, in reflected
    form 0x8C), one shift per bit, least significant bit first. *)
Definition crc8_shift (crc : Z) : Z :=
  if Z.testbit crc 0 then Z.lxor (Z.shiftr crc 1) 0x8C else Z.shiftr crc 1.

Definition crc8_bitwise_byte (crc byte : Z) : Z :=
  Nat.iter 8 crc8_shift (Z.lxor crc byte).

Definition crc8_bitwise (data : list Z) : Z :=
  foldl crc8_bitwise_byte 0 data.

(** ** [rom_to_hex] (lines 267-269) *)

Definition hex_digit (d : Z) : ascii :=
  match d with
  | 0 => "0" | 1 => "1" | 2 => "2" | 3 => "3" | 4 => "4" | 5 => "5" | 6 => "6" | 7 => "7"
  | 8 => "8" | 9 => "9" | 10 => "a" | 11 => "b" | 12 => "c" | 13 => "d" | 14 => "e" | _ => "f"
  end%char.

(** The hexadecimal digits of [n >= 0], most significant first, in front
    of [acc]; one digit per unit of fuel. *)
Fixpoint hex_digits (fuel : nat) (n : Z) (acc : string) : string :=
  match fuel with
  | O => acc
  | S fuel' =>
      let acc' := String (hex_digit (n mod 16)) acc in
      if n / 16 =? 0 then acc' else hex_digits fuel' (n / 16) acc'
  end.

(** [format(n, 'x')] for [n >= 0]. *)
Definition hex_of_nonneg (n : Z) : string :=
  hex_digits (S (Z.to_nat (Z.log2 n))) n EmptyString.

(** [f'{byte:02x}']: sign first, then the digits padded with zeros to a
    total width of two characters. *)
Definition format_02x (byte : Z) : string :=
  if byte <? 0 then String "-"%char (hex_of_nonneg (- byte))
  else
    let digits := hex_of_nonneg byte in
    if (String.length digits <? 2)%nat then String "0"%char digits else digits.

(** [''.join(f'{byte:02x}' for byte in rom)]. *)
Definition rom_to_hex (rom : list Z) : string :=
  foldr (fun byte s => String.append (format_02x byte) s) EmptyString rom.

(** ** The configuration file (lines 283-323)

    A Python [str] is a [string] here: a sequence of code points below
    256.  A file is the text it holds. *)

Definition LF : ascii := "010"%char.
Definition CR : ascii := "013"%char.

(** [c.isspace()] on a code point below 256: the whitespace of
    [str.strip] and [str.split]. *)
Definition is_space (c : ascii) : bool :=
  let n := nat_of_ascii c in
  ((9 <=? n) && (n <=? 13) || (28 <=? n) && (n <=? 32) || (n =? 133) || (n =? 160))%nat.

Fixpoint lstrip (s : string) : string :=
  match s with
  | EmptyString => EmptyString
  | String c s' => if is_space c then lstrip s' else s
  end.

Fixpoint rstrip (s : string) : string :=
  match s with
  | EmptyString => EmptyString
  | String c s' =>
      match rstrip s' with
      | EmptyString => if is_space c then EmptyString else String c EmptyString
      | r => String c r
      end
  end.

(** [s.strip()]. *)
Definition strip (s : string) : string := lstrip (rstrip s).

(** [s.split()], with the word being read in [cur]. *)
Fixpoint split_from (cur : string) (s : string) : list string :=
  match s with
  | EmptyString => match cur with EmptyString => [] | _ => [cur] end
  | String c s' =>
      if is_space c then
        match cur with
        | EmptyString => split_from EmptyString s'
        | _ => cur :: split_from EmptyString s'
        end
      else split_from (String.append cur (String c EmptyString)) s'
  end.

Definition split (s : string) : list string := split_from EmptyString s.

(** [s.replace('0x', '')]. *)
Fixpoint remove_0x (s : string) : string :=
  match s with
  | EmptyString => EmptyString
  | String "0" (String "x" s') => remove_0x s'
  | String c s' => String c (remove_0x s')
  end.

(** The value of a hexadecimal digit. *)
Definition hex_value (c : ascii) : option Z :=
  let n := Z.of_nat (nat_of_ascii c) in
  if (48 <=? n) && (n <=? 57) then Some (n - 48)
  else if (97 <=? n) && (n <=? 102) then Some (n - 87)
  else if (65 <=? n) && (n <=? 70) then Some (n - 55)
  else None.

(** The whitespace [int] skips at both ends of its argument. *)
Definition is_int_space (c : ascii) : bool :=
  let n := nat_of_ascii c in
  ((9 <=? n) && (n <=? 13) || (n =? 32) || (n =? 133) || (n =? 160))%nat.

Fixpoint int_lstrip (s : string) : string :=
  match s with
  | EmptyString => EmptyString
  | String c s' => if is_int_space c then int_lstrip s' else s
  end.

Fixpoint int_rstrip (s : string) : string :=
  match s with
  | EmptyString => EmptyString
  | String c s' =>
      match int_rstrip s' with
      | EmptyString => if is_int_space c then EmptyString else String c EmptyString
      | r => String c r
      end
  end.

(** Digits with single underscores between them, most significant
    first; [None] on anything else. *)
Fixpoint int_digits (s : string) (acc : Z) (after_underscore : bool) : option Z :=
  match s with
  | EmptyString => if after_underscore then None else Some acc
  | String c s' =>
      if Ascii.eqb c "_" then
        if after_underscore then None else int_digits s' acc true
      else
        match hex_value c with
        | Some d => int_digits s' (acc * 16 + d) false
        | None => None
        end
  end.

(** [int(s, 16)]: whitespace at both ends, a sign, the prefix [0x] or
    [0X] with one underscore after it, then the digits; [None] is
    [ValueError]. *)
Definition py_int16 (s : string) : option Z :=
  let s := int_lstrip (int_rstrip s) in
  let signed :=
    match s with
    | String "+" r => (false, r)
    | String "-" r => (true, r)
    | _ => (false, s)
    end in
  let body :=
    match snd signed with
    | String "0" (String x r) =>
        if Ascii.eqb x "x" || Ascii.eqb x "X" then
          match r with
          | String "_" r' => r'
          | _ => r
          end
        else snd signed
    | _ => snd signed
    end in
  match body with
  | EmptyString => None
  | String c _ =>
      if Ascii.eqb c "_" then None
      else
        match int_digits body 0 false with
        | Some v => Some (if fst signed then - v else v)
        | None => None
        end
  end.

(** [str(n)] for a count or an index. *)
Definition str_of_nat (n : nat) : string := NilZero.string_of_uint (Nat.to_uint n).

Definition upper_hex (c : ascii) : ascii :=
  let n := nat_of_ascii c in
  if ((97 <=? n) && (n <=? 102))%nat then ascii_of_nat (n - 32) else c.

Fixpoint string_map (f : ascii -> ascii) (s : string) : string :=
  match s with
  | EmptyString => EmptyString
  | String c s' => String (f c) (string_map f s')
  end.

(** [f'{byte:02X}']: as [format_02x], the digits in upper case. *)
Definition format_02X (byte : Z) : string := string_map upper_hex (format_02x byte).

(** [sep.join(words)]. *)
Fixpoint join (sep : string) (words : list string) : string :=
  match words with
  | [] => EmptyString
  | [w] => w
  | w :: rest => String.append w (String.append sep (join sep rest))
  end.

(** The lines written for the sensors, from index [idx] on
    (lines 321-323). *)
Fixpoint rom_lines (idx : nat) (sensors : list (list Z)) : string :=
  match sensors with
  | [] => EmptyString
  | rom :: rest =>
      let rom_hex := join " " ((fun byte => String.append "0x" (format_02X byte)) <$> rom) in
      String.append
        (String.append "ROM "
           (String.append (str_of_nat idx)
              (String.append " " (String.append rom_hex (String LF EmptyString)))))
        (rom_lines (S idx) rest)
  end.

(** [write_config]: the text written to the file. *)
Definition write_config (device_path : string) (sensors : list (list Z)) : string :=
  String.append
    (String.append "TTY " (String.append device_path (String LF EmptyString)))
    (String.append
       (String.append "READ_TIME 1000" (String LF EmptyString))
       (String.append
          (String.append "SENSORS "
             (String.append (str_of_nat (length sensors)) (String LF EmptyString)))
          (rom_lines 0 sensors))).

(** Reading a text file: a carriage return, alone or before a line
    feed, is read as a line feed. *)
Fixpoint universal_newlines (s : string) : string :=
  match s with
  | EmptyString => EmptyString
  | String c s' =>
      if Ascii.eqb c CR then
        match s' with
        | String c' s'' =>
            if Ascii.eqb c' LF then String LF (universal_newlines s'')
            else String LF (universal_newlines s')
        | EmptyString => String LF EmptyString
        end
      else String c (universal_newlines s')
  end.

(** [for line in f]: the lines with their line feed, the last one
    perhaps without. *)
Fixpoint lines_from (cur : string) (s : string) : list string :=
  match s with
  | EmptyString => match cur with EmptyString => [] | _ => [cur] end
  | String c s' =>
      if Ascii.eqb c LF then
        String.append cur (String LF EmptyString) :: lines_from EmptyString s'
      else lines_from (String.append cur (String c EmptyString)) s'
  end.

Definition file_lines (content : string) : list string :=
  lines_from EmptyString (universal_newlines content).

(** Lines 303-307: the eight entries of a ROM line; [None] is the
    [ValueError] of [int]. *)
Definition parse_rom (parts : list string) : option (list Z) :=
  mapM (fun i => match parts !! i with
                 | Some part => py_int16 (remove_0x part)
                 | None => None
                 end) (seq 2 8).

(** The body of the loop of [read_config] (lines 291-308) on the
    device path and the sensors read so far. *)
Definition config_line (acc : string * list (list Z)) (line : string)
    : option (string * list (list Z)) :=
  let line := strip line in
  if String.eqb line EmptyString || String.prefix "#" line then Some acc
  else
    let parts := split line in
    if (length parts <? 2)%nat then Some acc
    else
      match parts with
      | p0 :: p1 :: _ =>
          if String.eqb p0 "TTY" then Some (p1, snd acc)
          else if String.eqb p0 "ROM" && (10 <=? length parts)%nat then
            match parse_rom parts with
            | Some rom => Some (fst acc, snd acc ++ [rom])
            | None => None
            end
          else Some acc
      | _ => Some acc
      end.

Fixpoint config_lines (acc : string * list (list Z)) (lines : list string)
    : option (string * list (list Z)) :=
  match lines with
  | [] => Some acc
  | line :: rest =>
      match config_line acc line with
      | Some acc' => config_lines acc' rest
      | None => None
      end
  end.

(** [read_config]: [file] is the text of the file, [None] when there
    is no such file; the result is [None] when [int] raises
    [ValueError]. *)
Definition read_config (file : option string) : option (string * list (list Z)) :=
  match file with
  | None => Some ("/dev/ttyUSB0"%string, [])
  | Some content => config_lines ("/dev/ttyUSB0"%string, []) (file_lines content)
  end.

(** Every character of [s] passes the test [P]. *)
Fixpoint all_chars (P : ascii -> bool) (s : string) : bool :=
  match s with
  | EmptyString => true
  | String c s' => P c && all_chars P s'
  end.

(** A word: not empty and without whitespace, as [split] returns them. *)
Definition is_word (w : string) : bool :=
  negb (String.eqb w EmptyString) && all_chars (fun c => negb (is_space c)) w.

(** ** The host: serial port and sleep *)

(** Outcome of [serial.Serial(path, baudrate=...)]: the port opens, or
    the constructor raises [serial.SerialException], which is how
    pyserial reports a device that is missing, busy or not permitted.
    Another exception of the constructor (a [ValueError] for a
    malformed argument) has no counterpart here. *)
Inductive opened : Type :=
  | Opened
  | SerialException (e : string).

(** What the adapter asks of its environment.  [serial_read] is
    [port.read(1)]: [None] is the empty result of a timed-out read.
    The calls on an open port ([close], [write], [flush], [read]) are
    taken to return: an exception that pyserial raises from one of them
    (a device unplugged in the middle of an exchange) ends the run at
    that call and is not part of this model, which describes the runs
    in which these calls return. *)
Class Host (W : Type) : Type := {
  serial_open : string -> Z -> W -> opened * W;
  serial_close : W -> W;
  serial_write : Z -> W -> W;
  serial_flush : W -> W;
  serial_read : W -> option Z * W;
  time_sleep : Q -> W -> W
}.

(** Exceptions that leave a method. *)
Inductive exn : Type :=
  | SerialError (e : string)     (* serial.SerialException *)
  | AttributeError               (* a method called on [self.port = None] *)
  | IndexError.                  (* list index out of range *)

(** Result of a run: a value, an exception, or the fuel of the
    [while] loop of [search_rom] used up. *)
Inductive result (A : Type) : Type :=
  | Ok (a : A)
  | Raise (e : exn)
  | OutOfFuel.
Arguments Ok {A} a.
Arguments Raise {A} e.
Arguments OutOfFuel {A}.

(** One line of the batch report of [main]: the sensor index and the
    Celsius value (the timestamp and the Fahrenheit figure printed on
    the same line are renderings and are left out). *)
Record report : Type := mkReport { report_idx : nat; report_temp_c : Q }.

Section Adapter.
Context {W : Type} {H : Host W}.

(** [self.device_path]. *)
Variable device_path : string.

(** The adapter and the process around it: the host, whether
    [self.port] is set, and what went to stderr and stdout. *)
Record State : Type := mkState {
  world : W;
  port : bool;
  stderr : list string;
  stdout : list report
}.

Definition M (A : Type) : Type := State -> result A * State.

Definition ret {A : Type} (a : A) : M A := fun st => (Ok a, st).

Definition bind {A B : Type} (m : M A) (k : A -> M B) : M B :=
  fun st =>
    match m st with
    | (Ok a, st') => k a st'
    | (Raise e, st') => (Raise e, st')
    | (OutOfFuel, st') => (OutOfFuel, st')
    end.

Definition raise {A : Type} (e : exn) : M A := fun st => (Raise e, st).

Notation "x <- m ;; k" := (bind m (fun x => k))
  (at level 100, m at next level, right associativity).
Notation "m ;;; k" := (bind m (fun _ => k))
  (at level 100, right associativity).

Definition with_world (st : State) (w : W) : State :=
  mkState w (port st) (stderr st) (stdout st).

(** [print(msg, file=sys.stderr)]. *)
Definition eprint (msg : string) : M unit :=
  fun st => (Ok tt, mkState (world st) (port st) (stderr st ++ [msg]) (stdout st)).

(** [print(...)] of a report line. *)
Definition print_report (r : report) : M unit :=
  fun st => (Ok tt, mkState (world st) (port st) (stderr st) (stdout st ++ [r])).

(** [if self.port: self.port.close()]. *)
Definition close_if_open : M unit :=
  fun st =>
    if port st then (Ok tt, with_world st (serial_close (world st))) else (Ok tt, st).

(** [self.port.write(bytes([b]))]. *)
Definition port_write (b : Z) : M unit :=
  fun st =>
    if port st then (Ok tt, with_world st (serial_write b (world st)))
    else (Raise AttributeError, st).

(** [self.port.flush()]. *)
Definition port_flush : M unit :=
  fun st =>
    if port st then (Ok tt, with_world st (serial_flush (world st)))
    else (Raise AttributeError, st).

(** [self.port.read(1)]. *)
Definition port_read : M (option Z) :=
  fun st =>
    if port st then
      let (rx, w) := serial_read (world st) in (Ok rx, with_world st w)
    else (Raise AttributeError, st).

(** [time.sleep(s)]. *)
Definition sleep (s : Q) : M unit :=
  fun st => (Ok tt, with_world st (time_sleep s (world st))).

(** *** [reset] (lines 57-88) *)
Definition reset : M bool :=
  close_if_open ;;;
  fun st =>
    match serial_open device_path 9600 (world st) with
    | (SerialException e, w) =>
        (eprint (String.append "Error opening "
                   (String.append device_path (String.append ": " e))) ;;;
         ret false) (with_world st w)
    | (Opened, w) =>
        (port_write 240 ;;;
         port_flush ;;;
         response <- port_read ;;
         match response with
         | None => ret false
         | Some presence => ret ((16 <=? presence) && (presence <=? 224))
         end) (mkState w true (stderr st) (stdout st))
    end.

(** *** [switch_to_data_mode] (lines 90-102) *)
Definition switch_to_data_mode : M unit :=
  close_if_open ;;;
  fun st =>
    match serial_open device_path 115200 (world st) with
    | (SerialException e, w) => (Raise (SerialError e), with_world st w)
    | (Opened, w) => (Ok tt, mkState w true (stderr st) (stdout st))
    end.

(** *** [touch_bit] (lines 104-116) *)
Definition touch_bit (bit : Z) : M Z :=
  let tx_byte := if bit =? 0 then 0 else 255 in
  port_write tx_byte ;;;
  rx_byte <- port_read ;;
  match rx_byte with
  | None => ret 0
  | Some rx => ret (if rx =? 255 then 1 else 0)
  end.

(** *** [touch_byte] (lines 118-125) *)
Fixpoint touch_byte_loop (idxs : list Z) (byte_val result : Z) : M Z :=
  match idxs with
  | [] => ret result
  | i :: rest =>
      let bit := Z.land (Z.shiftr byte_val i) 1 in
      read_bit <- touch_bit bit ;;
      touch_byte_loop rest byte_val (Z.lor result (Z.shiftl read_bit i))
  end.

Definition touch_byte (byte_val : Z) : M Z :=
  touch_byte_loop (range 8) byte_val 0.

(** *** [write_byte], [read_byte] (lines 127-133) *)
Definition write_byte (byte_val : Z) : M unit :=
  touch_byte byte_val ;;; ret tt.

Definition read_byte : M Z := touch_byte 255.

(** A failed list access raises [IndexError]. *)
Definition lift_index {A : Type} (o : option A) : M A :=
  match o with
  | Some a => ret a
  | None => raise IndexError
  end.

(** *** [search_rom] (lines 135-203) *)

(** One bit position of a pass as it went: the two bits read and the
    direction written.  The history is kept for the statements about
    a pass; nothing the code computes depends on it. *)
Record slot : Type := mkSlot {
  slot_pos : Z; slot_bit : Z; slot_comp : Z; slot_dir : Z
}.

(** The variables of one pass: the in-progress [rom], [discrepancy],
    and the history of the slots done so far. *)
Record pass_state : Type := mkPass {
  rom : list Z; discrepancy : Z; history : list slot
}.

(** The choice made at a discrepancy (lines 164-177): the direction
    and the new value of [discrepancy]. *)
Definition resolve (last_discrepancy bit_pos : Z) (ps : pass_state) : M (Z * Z) :=
  if bit_pos =? last_discrepancy then ret (1, discrepancy ps)
  else if bit_pos >? last_discrepancy then ret (0, bit_pos)
  else
    let byte_idx := bit_pos / 8 in
    let bit_idx := bit_pos mod 8 in
    b <- lift_index (py_index (rom ps) byte_idx) ;;
    let search_direction := Z.land (Z.shiftr b bit_idx) 1 in
    ret (search_direction,
         if search_direction =? 0 then bit_pos else discrepancy ps).

(** [rom[byte_idx] |= (1 << bit_idx)] when the direction is nonzero
    (lines 186-189). *)
Definition store_bit (bit_pos search_direction : Z) (rom : list Z) : M (list Z) :=
  let byte_idx := bit_pos / 8 in
  let bit_idx := bit_pos mod 8 in
  if search_direction =? 0 then ret rom
  else
    b <- lift_index (py_index rom byte_idx) ;;
    lift_index (py_setitem rom byte_idx (Z.lor b (Z.shiftl 1 bit_idx))).

(** The [for bit_pos in range(64)] loop (lines 153-189).  The boolean
    returned is [last_device]: [true] when the loop left by [break]
    on reading (1,1). *)
Fixpoint search_bits (positions : list Z) (last_discrepancy : Z)
    (ps : pass_state) : M (pass_state * bool) :=
  match positions with
  | [] => ret (ps, false)
  | bit_pos :: rest =>
      bit <- touch_bit 1 ;;
      comp_bit <- touch_bit 1 ;;
      if (bit =? 1) && (comp_bit =? 1) then ret (ps, true)
      else
        choice <- (if (bit =? 0) && (comp_bit =? 0)
                   then resolve last_discrepancy bit_pos ps
                   else ret (bit, discrepancy ps)) ;;
        let search_direction := fst choice in
        touch_bit search_direction ;;;
        rom' <- store_bit bit_pos search_direction (rom ps) ;;
        search_bits rest last_discrepancy
          (mkPass rom' (snd choice)
             (history ps ++ [mkSlot bit_pos bit comp_bit search_direction]))
  end.

(** One turn of the [while] loop up to the end of the [for] loop
    (lines 142-189): [None] when [reset] fails. *)
Definition search_pass (last_discrepancy : Z) : M (option (pass_state * bool)) :=
  ok <- reset ;;
  if negb ok then ret None
  else
    switch_to_data_mode ;;;
    write_byte 0xF0 ;;;
    r <- search_bits (range 64) last_discrepancy (mkPass (replicate 8 0) 0 []) ;;
    ret (Some r).

(** The [while not last_device] loop (lines 141-201), [fuel] turns
    at most. *)
Fixpoint search_loop (fuel : nat) (devices : list (list Z))
    (last_discrepancy : Z) : M (list (list Z)) :=
  match fuel with
  | O => fun st => (OutOfFuel, st)
  | S fuel' =>
      r <- search_pass last_discrepancy ;;
      match r with
      | None => ret devices
      | Some (ps, true) => ret devices
      | Some (ps, false) =>
          let last_discrepancy := discrepancy ps in
          crc <- lift_index (crc8 (rom ps)) ;;
          let devices := if crc =? 0 then devices ++ [rom ps] else devices in
          if last_discrepancy =? 0 then ret devices
          else search_loop fuel' devices last_discrepancy
      end
  end.

Definition search_rom (fuel : nat) : M (list (list Z)) :=
  search_loop fuel [] 0.

(** The positions of a history at which a discrepancy was read and
    branch 0 taken: the branches still to be explored. *)
Definition pending (h : list slot) : list Z :=
  slot_pos <$> List.filter
    (fun s => (slot_bit s =? 0) && (slot_comp s =? 0) && (slot_dir s =? 0)) h.

(** The largest of a list of positions, 0 for the empty list. *)
Definition highest (positions : list Z) : Z := foldr Z.max 0 positions.

(** *** [read_temperature] (lines 205-264) *)

(** [for byte in rom: self.write_byte(byte)]. *)
Fixpoint write_bytes (data : list Z) : M unit :=
  match data with
  | [] => ret tt
  | byte :: rest => write_byte byte ;;; write_bytes rest
  end.

(** [for _ in range(n): scratchpad.append(self.read_byte())]. *)
Fixpoint read_bytes (n : nat) (scratchpad : list Z) : M (list Z) :=
  match n with
  | O => ret scratchpad
  | S n' => b <- read_byte ;; read_bytes n' (scratchpad ++ [b])
  end.

(** Lines 258-259: the 16-bit value read as two's complement. *)
Definition signed16 (temp_raw : Z) : Z :=
  if Z.land temp_raw 0x8000 =? 0 then temp_raw
  else - (Z.lxor temp_raw 0xFFFF + 1).

(** Lines 255-262.  The product [temp_raw * 0.0625] is a float in the
    source; 0.0625 is 2^-4 and [temp_raw] is an integer below 2^16 in
    size, so the product is exact in binary64 and is given here as the
    rational it equals. *)
Definition decode_temperature (scratchpad : list Z) : option Q :=
  match py_index scratchpad 1, py_index scratchpad 0 with
  | Some b1, Some b0 =>
      let temp_raw := Z.lor (Z.shiftl b1 8) b0 in
      Some (inject_Z (signed16 temp_raw) * 0.0625)%Q
  | _, _ => None
  end.

(** Lines 207-247: address the sensor, start the conversion, address
    it again and read the nine scratchpad bytes.  [None] when one of
    the two resets finds no presence (lines 208-210 and 228-230). *)
Definition fetch_scratchpad (rom : list Z) : M (option (list Z)) :=
  ok <- reset ;;
  if negb ok then
    eprint "Reset failed - no presence pulse" ;;; ret None
  else
    switch_to_data_mode ;;;
    write_byte 0x55 ;;;
    write_bytes rom ;;;
    write_byte 0x44 ;;;
    sleep 0.75%Q ;;;
    ok <- reset ;;
    if negb ok then
      eprint "Second reset failed" ;;; ret None
    else
      switch_to_data_mode ;;;
      write_byte 0x55 ;;;
      write_bytes rom ;;;
      write_byte 0xBE ;;;
      scratchpad <- read_bytes 9 [] ;;
      ret (Some scratchpad).

(** The message of line 251. *)
Definition crc_message (rom : list Z) : string :=
  String.append "CRC validation failed for sensor " (rom_to_hex rom).

(** [read_temperature]: the exchange above, then lines 249-264. *)
Definition read_temperature (rom : list Z) : M (option Q) :=
  fetched <- fetch_scratchpad rom ;;
  match fetched with
  | None => ret None
  | Some scratchpad =>
      crc <- lift_index (crc8 scratchpad) ;;
      if negb (crc =? 0) then
        eprint (crc_message rom) ;;; ret None
      else
        temp_c <- lift_index (decode_temperature scratchpad) ;;
        ret (Some temp_c)
  end.

(** *** The batch loop of [main] (lines 409-417) *)
Fixpoint read_all (idx : nat) (sensors : list (list Z)) : M unit :=
  match sensors with
  | [] => ret tt
  | rom :: rest =>
      temp_c <- read_temperature rom ;;
      match temp_c with
      | None => ret tt
      | Some t => print_report (mkReport idx t)
      end ;;;
      read_all (S idx) rest
  end.

End Adapter.

(** The state of a pass that has done the positions below [a]. *)
Definition pass_inv (a : nat) (ps : pass_state) : Prop :=
  is_rom (rom ps)
  /\ discrepancy ps = highest (pending (history ps))
  /\ Forall (fun s => 0 <= slot_pos s < Z.of_nat a) (history ps).

(** Bit [p] of a ROM buffer, as line 175 reads it:
    [(rom[p // 8] >> (p % 8)) & 1] (0 where the index is out of range). *)
Definition rom_bit_at (rom : list Z) (p : Z) : Z :=
  match py_index rom (p / 8) with
  | Some b => Z.land (Z.shiftr b (p mod 8)) 1
  | None => 0
  end.

(** A slot as the loop body produces it when the previous cursor is
    [last]: two bits that are not both 1, and the direction the branches
    of lines 158-180 choose on a buffer that holds no bit at or above
    the position yet. *)
Definition slot_ok (last : Z) (s : slot) : Prop :=
  (slot_bit s = 0 \/ slot_bit s = 1)
  /\ (slot_comp s = 0 \/ slot_comp s = 1)
  /\ ~ (slot_bit s = 1 /\ slot_comp s = 1)
  /\ slot_dir s = (if (slot_bit s =? 0) && (slot_comp s =? 0)
                   then (if slot_pos s =? last then 1 else 0)
                   else slot_bit s).

(** The state of a pass that has done the positions below [a], bit by
    bit: the history holds these positions in order, every slot is as
    the loop body makes it, the buffer holds the directions written and
    nothing at or above [a]. *)
Definition bits_inv (last : Z) (a : nat) (ps : pass_state) : Prop :=
  is_rom (rom ps)
  /\ slot_pos <$> history ps = Z.of_nat <$> seq 0 a
  /\ Forall (slot_ok last) (history ps)
  /\ Forall (fun s => rom_bit_at (rom ps) (slot_pos s) = slot_dir s) (history ps)
  /\ (forall p, Z.of_nat a <= p < 64 -> rom_bit_at (rom ps) p = 0).

(** The ROM buffer after one more slot: the direction written is
    stored as lines 186-189 store it. *)
Definition store_slot (rom : list Z) (s : slot) : list Z :=
  if slot_dir s =? 0 then rom
  else
    match py_index rom (slot_pos s / 8) with
    | Some b =>
        match py_setitem rom (slot_pos s / 8)
                (Z.lor b (Z.shiftl 1 (slot_pos s mod 8))) with
        | Some rom' => rom'
        | None => rom
        end
    | None => rom
    end.

(** The in-progress ROM buffer of a pass that has done the slots [h],
    from the [[0] * 8] of line 150. *)
Definition buffer_after (h : list slot) : list Z :=
  fold_left store_slot h (replicate 8 0).

(** The state of a pass and the replays in it when the previous cursor
    is [last]: the buffer is the one its history builds, and at every
    discrepancy below [last] the direction written is the bit that the
    buffer of that moment holds at the position (line 175). *)
Definition replay_inv (last : Z) (ps : pass_state) : Prop :=
  rom ps = buffer_after (history ps)
  /\ forall (h1 : list slot) (s : slot) (h2 : list slot),
       history ps = h1 ++ s :: h2 ->
       slot_bit s = 0 -> slot_comp s = 0 -> slot_pos s < last ->
       exists b,
         py_index (buffer_after h1) (slot_pos s / 8) = Some b
         /\ slot_dir s = Z.land (Z.shiftr b (slot_pos s mod 8)) 1.

(** The pass state a run of [search_pass] ended with (an empty one when
    it did not end with a pass state). *)
Definition pass_of {W : Type} (r : result (option (pass_state * bool)) * W) : pass_state :=
  match fst r with
  | Ok (Some (ps, _)) => ps
  | _ => mkPass [] 0 []
  end.

(** A ROM code with a valid CRC-8. *)
Definition crc_ok (rom : list Z) : Prop := crc8 rom = Some 0.

Arguments State W : clear implicits.
Arguments M W A : clear implicits.

(** Two states with the same stderr and stdout. *)
Definition same_output {W : Type} (st st' : State W) : Prop :=
  stderr st' = stderr st /\ stdout st' = stdout st.

(** A computation that prints nothing, however it ends. *)
Definition silent {W : Type} {A : Type} (m : M W A) : Prop :=
  forall st r st', m st = (r, st') -> same_output st st'.

(** ** Two hosts to run the code on *)

(** *** A scripted port

    Every read takes the next entry of a prepared list of responses
    (an empty list times out), every open takes the next entry of a
    list of faults (an empty list opens), and what is written is kept. *)
Module Scripted.

Record port : Type := mkPort {
  responses : list (option Z);
  faults : list (option string);
  sent : list Z
}.

Definition open (path : string) (baud : Z) (p : port) : opened * port :=
  match faults p with
  | Some e :: rest => (SerialException e, mkPort (responses p) rest (sent p))
  | None :: rest => (Opened, mkPort (responses p) rest (sent p))
  | [] => (Opened, p)
  end.

Definition write (b : Z) (p : port) : port :=
  mkPort (responses p) (faults p) (sent p ++ [b]).

Definition read (p : port) : option Z * port :=
  match responses p with
  | r :: rest => (r, mkPort rest (faults p) (sent p))
  | [] => (None, p)
  end.

#[global] Instance host : Host port := {
  serial_open := open;
  serial_close := fun p => p;
  serial_write := write;
  serial_flush := fun p => p;
  serial_read := read;
  time_sleep := fun _ p => p
}.

(** The bytes a device sends for the bits of [byte], least
    significant first: 0xFF for a 1, 0x00 for a 0. *)
Definition slots_of_byte (byte : Z) : list (option Z) :=
  (fun i => Some (if Z.testbit byte i then 255 else 0)) <$> range 8.

Definition slots_of_bytes (bytes : list Z) : list (option Z) :=
  concat (slots_of_byte <$> bytes).

(** The bit [touch_bit] makes of a response. *)
Definition observed (r : option Z) : Z :=
  match r with
  | Some rx => if rx =? 255 then 1 else 0
  | None => 0
  end.

(** The byte [touch_byte] assembles from the responses to the slots
    [idxs], starting from [acc]. *)
Definition assemble (idxs : list Z) (rs : list (option Z)) (acc : Z) : Z :=
  foldl (fun acc ir => Z.lor acc (Z.shiftl (observed (snd ir)) (fst ir))) acc (zip idxs rs).

(** The responses to one [read_temperature]: presence, 80 echoed
    slots, presence, 80 echoed slots, then the scratchpad. *)
Definition temperature_responses (scratchpad : list Z) : list (option Z) :=
  [Some 0xE0] ++ replicate 80 (Some 0) ++
  [Some 0xE0] ++ replicate 80 (Some 0) ++
  slots_of_bytes scratchpad.

Definition temperature_port (scratchpad : list Z) : port :=
  mkPort (temperature_responses scratchpad) [] [].

(** A scratchpad reading 85.0 and one reading -10.125, with their
    CRC-8 in the last byte. *)
Definition scratchpad_85 : list Z :=
  [0x50; 0x05; 0x4B; 0x46; 0x7F; 0xFF; 0x0C; 0x10; 0x1C].
Definition scratchpad_neg : list Z :=
  [0x5E; 0xFF; 0x4B; 0x46; 0x7F; 0xFF; 0x0C; 0x10; 0x6A].

(** The first scratchpad with its last byte, the CRC, corrupted. *)
Definition scratchpad_bad : list Z :=
  [0x50; 0x05; 0x4B; 0x46; 0x7F; 0xFF; 0x0C; 0x10; 0x1D].

(** A port answering a batch of two reads: a corrupted scratchpad, then
    a good one. *)
Definition batch_port : port :=
  mkPort (temperature_responses scratchpad_bad ++ temperature_responses scratchpad_85) [] [].

Definition start (p : port) : State port := mkState p false [] [].

End Scripted.

(** *** A simulated 1-Wire bus

    Devices with fixed ROM codes behind the adapter.  A byte written at
    9600 baud is a reset pulse, answered by a presence pulse when there
    is a device; a byte written at 115200 baud is one time slot.  After
    a reset the devices take eight slots as a command; on 0xF0 they
    answer the search: for each of the 64 bit positions a slot with
    the wired-AND of their bits, a slot with the wired-AND of the
    complements, and a slot in which the master writes a direction and
    every device whose bit differs drops out. *)
Module SimBus.

Inductive phase : Type :=
  | Idle
  | Command (count : nat) (acc : Z)
  | Search (pos : Z) (step : nat) (active : list (list Z)).

Record bus : Type := mkBus {
  devices : list (list Z);
  baud : Z;
  rx : option Z;
  phase_of : phase
}.

Definition rom_bit (pos : Z) (r : list Z) : bool :=
  Z.testbit (nth (Z.to_nat (pos / 8)) r 0) (pos mod 8).

Definition open (path : string) (speed : Z) (b : bus) : opened * bus :=
  (Opened, mkBus (devices b) speed None (phase_of b)).

Definition close (b : bus) : bus :=
  mkBus (devices b) 0 None (phase_of b).

Definition line (low : bool) : Z := if low then 0 else 255.

Definition slot (tx : Z) (b : bus) : bus :=
  let one := tx =? 255 in
  match phase_of b with
  | Idle => mkBus (devices b) (baud b) (Some tx) Idle
  | Command count acc =>
      let acc' := if one then Z.lor acc (Z.shiftl 1 (Z.of_nat count)) else acc in
      let next :=
        if (S count =? 8)%nat then
          if acc' =? 0xF0 then Search 0 0 (devices b) else Idle
        else Command (S count) acc' in
      mkBus (devices b) (baud b) (Some tx) next
  | Search pos 0 active =>
      mkBus (devices b) (baud b)
        (Some (line (negb one || negb (forallb (rom_bit pos) active))))
        (Search pos 1 active)
  | Search pos 1 active =>
      mkBus (devices b) (baud b)
        (Some (line (negb one || negb (forallb (fun r => negb (rom_bit pos r)) active))))
        (Search pos 2 active)
  | Search pos _ active =>
      let active' := filter (fun r => rom_bit pos r = one) active in
      mkBus (devices b) (baud b) (Some tx)
        (if pos + 1 =? 64 then Idle else Search (pos + 1) 0 active')
  end.

Definition write (tx : Z) (b : bus) : bus :=
  if baud b =? 9600 then
    mkBus (devices b) (baud b)
      (Some (match devices b with [] => 0xF0 | _ => 0xE0 end)) (Command 0 0)
  else if baud b =? 115200 then slot tx b
  else b.

Definition read (b : bus) : option Z * bus :=
  (rx b, mkBus (devices b) (baud b) None (phase_of b)).

#[global] Instance host : Host bus := {
  serial_open := open;
  serial_close := close;
  serial_write := write;
  serial_flush := fun b => b;
  serial_read := read;
  time_sleep := fun _ b => b
}.

(** The adapter in a pass, before the slots of position [a]: port open
    at 115200 baud, the devices [act] still answering (idle after the
    last position). *)
Definition searching (devs act : list (list Z)) (a : nat) : State bus :=
  mkState
    (mkBus devs 115200 None (if (a =? 64)%nat then Idle else Search (Z.of_nat a) 0 act))
    true [] [].

(** A fresh adapter on a bus with the given devices. *)
Definition start (roms : list (list Z)) : State bus :=
  mkState (mkBus roms 0 None Idle) false [] [].

(** Three DS18B20 (family code 0x28) whose serial numbers start with
    the bytes 0x00, 0x01 and 0x03; the last byte is the CRC-8. *)
Definition romA : list Z := [0x28; 0x00; 0; 0; 0; 0; 0; 0x1E].
Definition romB : list Z := [0x28; 0x01; 0; 0; 0; 0; 0; 0x29].
Definition romC : list Z := [0x28; 0x03; 0; 0; 0; 0; 0; 0x47].

(** A DS18B20 and a DS1825 (family code 0x3B): they differ at bit 0. *)
Definition romD : list Z := [0x3B; 0x00; 0; 0; 0; 0; 0; 0xA2].

(** The adapter between two passes: port open at 115200 baud, bus idle. *)
Definition between : State bus :=
  mkState (mkBus [romA; romB; romC] 115200 None Idle) true [] [].

End SimBus.

(** * Properties *)

(** ** Python lists *)

Lemma py_index_in_range {A : Type} (l : list A) (i : Z) :
  0 <= i < Z.of_nat (length l) -> py_index l i = l !! Z.to_nat i.
Proof.
  intros Hi. unfold py_index.
  destruct (0 <=? i) eqn:E; [reflexivity | lia].
Qed.

Lemma py_index_is_Some {A : Type} (l : list A) (i : Z) :
  0 <= i < Z.of_nat (length l) -> exists x, py_index l i = Some x.
Proof.
  intros Hi. rewrite py_index_in_range by assumption.
  apply lookup_lt_is_Some_2. lia.
Qed.

Lemma py_index_elem {A : Type} (l : list A) (i : Z) (x : A) :
  py_index l i = Some x -> x ∈ l.
Proof.
  unfold py_index. intros Hx.
  destruct (0 <=? i); [| destruct (_ <=? i); [| discriminate]];
    eapply list_elem_of_lookup_2; exact Hx.
Qed.

(** ** CRC-8 *)

Lemma CRC8_TABLE_length : length CRC8_TABLE = 256%nat.
Proof. reflexivity. Qed.

Lemma CRC8_TABLE_bytes : Forall is_byte CRC8_TABLE.
Proof.
  apply Forall_forall. intros c Hc.
  assert (Hb : forallb (fun c => (0 <=? c) && (c <? 256)) CRC8_TABLE = true) by reflexivity.
  rewrite forallb_forall in Hb.
  apply list_elem_of_In in Hc. apply Hb in Hc. unfold is_byte. lia.
Qed.

Lemma CRC8_TABLE_entry_byte (i c : Z) :
  py_index CRC8_TABLE i = Some c -> is_byte c.
Proof.
  intros Hc. apply py_index_elem in Hc.
  exact (proj1 (Forall_forall _ _) CRC8_TABLE_bytes c Hc).
Qed.

Lemma lxor_byte (a b : Z) : is_byte a -> is_byte b -> is_byte (Z.lxor a b).
Proof.
  unfold is_byte. intros Ha Hb.
  assert (Hnn : 0 <= Z.lxor a b) by (apply Z.lxor_nonneg; lia).
  split; [exact Hnn |].
  destruct (Z.eq_dec (Z.lxor a b) 0) as [-> | Hne]; [lia |].
  change 256 with (2 ^ 8). apply (proj2 (Z.log2_lt_pow2 (Z.lxor a b) 8 ltac:(lia))).
  eapply Z.le_lt_trans; [apply Z.log2_lxor; lia |].
  apply Z.max_lub_lt.
  - destruct (Z.eq_dec a 0) as [-> | ?]; [reflexivity |].
    apply (proj1 (Z.log2_lt_pow2 a 8 ltac:(lia))). simpl. lia.
  - destruct (Z.eq_dec b 0) as [-> | ?]; [reflexivity |].
    apply (proj1 (Z.log2_lt_pow2 b 8 ltac:(lia))). simpl. lia.
Qed.

Lemma crc8_from_app (crc : Z) (s t : list Z) :
  crc8_from crc (s ++ t) =
  match crc8_from crc s with
  | Some crc' => crc8_from crc' t
  | None => None
  end.
Proof.
  revert crc. induction s as [| byte s IH]; intros crc; simpl; [reflexivity |].
  destruct (py_index CRC8_TABLE (Z.lxor crc byte)); [apply IH | reflexivity].
Qed.

(** On bytes the loop never leaves the table and ends on a byte. *)
Lemma crc8_from_bytes (s : list Z) :
  Forall is_byte s ->
  forall crc, is_byte crc -> exists c, crc8_from crc s = Some c /\ is_byte c.
Proof.
  induction 1 as [| byte s Hbyte _ IH]; intros crc Hcrc; simpl.
  - eauto.
  - destruct (py_index_is_Some CRC8_TABLE (Z.lxor crc byte)) as [c' Hc'].
    { rewrite CRC8_TABLE_length. pose proof (lxor_byte _ _ Hcrc Hbyte) as Hx.
      unfold is_byte in Hx. lia. }
    rewrite Hc'. apply IH. eapply CRC8_TABLE_entry_byte, Hc'.
Qed.

Lemma crc8_bytes (s : list Z) :
  Forall is_byte s -> exists c, crc8 s = Some c /\ is_byte c.
Proof. intros Hs. apply crc8_from_bytes; [exact Hs | unfold is_byte; lia]. Qed.

(** C2. [crc8] is a function of its argument alone, and on every byte
    sequence [s] it returns a byte [c] such that the CRC of [s] followed
    by [c] is zero. *)
Theorem crc8_append_zero (s : list Z) (Hs : Forall is_byte s) :
  exists c, crc8 s = Some c /\ is_byte c /\ crc8 (s ++ [c]) = Some 0
            /\ forall s', s' = s -> crc8 s' = Some c.
Proof.
  destruct (crc8_bytes s Hs) as (c & Hc & Hbyte).
  exists c. repeat split; try assumption; try apply Hbyte.
  - unfold crc8 in *. rewrite crc8_from_app, Hc. simpl.
    rewrite Z.lxor_nilpotent. reflexivity.
  - intros s' ->. exact Hc.
Qed.

Lemma crc8_append_zero_witness :
  exists c, crc8 [0x28; 0x01; 0; 0; 0; 0; 0] = Some c /\ is_byte c
            /\ crc8 ([0x28; 0x01; 0; 0; 0; 0; 0] ++ [c]) = Some 0
            /\ forall s', s' = [0x28; 0x01; 0; 0; 0; 0; 0] -> crc8 s' = Some c.
Proof.
  apply crc8_append_zero.
  repeat constructor; unfold is_byte; lia.
Defined.

(** ** Bus controller and bit engine *)

(** Unfold the monad and split on every intermediate result. *)
Ltac unfold_monad :=
  unfold bind, ret, raise, lift_index, eprint, print_report, sleep,
    port_write, port_flush, port_read, close_if_open, with_world in *.

Ltac split_run :=
  repeat match goal with
    | |- context [match ?x with _ => _ end] => destruct x eqn:?; simpl in *
    | H : context [match ?x with _ => _ end] |- _ => destruct x eqn:?; simpl in *
    end.

Section BitEngine.
Context {W : Type} {H : Host W}.
Variable device_path : string.

(** C7. On an open port [touch_bit bit] writes 0xFF when [bit] is
    nonzero and 0x00 when it is zero, and returns 1 exactly when the
    byte read back is 0xFF; any other byte, and a timed-out read,
    give 0. *)
Theorem touch_bit_spec (bit : Z) (st : State W) (Hport : port st = true) :
  exists rx w,
    serial_read (serial_write (if bit =? 0 then 0x00 else 0xFF) (world st)) = (rx, w)
    /\ touch_bit bit st
       = (Ok (if decide (rx = Some 0xFF) then 1 else 0), with_world st w).
Proof.
  destruct (serial_read (serial_write (if bit =? 0 then 0 else 255) (world st)))
    as [rx w] eqn:Hread.
  exists rx, w. split; [reflexivity |].
  unfold touch_bit. unfold_monad. rewrite Hport. simpl. rewrite Hread.
  destruct rx as [rx |]; cbn [ret].
  - destruct (Z.eqb_spec rx 255) as [-> | Hne];
      destruct (decide _) as [Heq | Hneq]; try reflexivity; congruence.
  - destruct (decide _) as [Heq | Hneq]; [discriminate | reflexivity].
Qed.

(** [touch_bit] only ever returns 0 or 1. *)
Lemma touch_bit_01 (bit r : Z) (st st' : State W) :
  touch_bit bit st = (Ok r, st') -> r = 0 \/ r = 1.
Proof.
  unfold touch_bit. unfold_monad. intros Hrun.
  split_run; simplify_eq; auto.
Qed.

(** [touch_bit] leaves [self.port], stderr and stdout alone. *)
Lemma touch_bit_frame (bit : Z) (st st' : State W) (r : result Z) :
  touch_bit bit st = (r, st') ->
  port st' = port st /\ stderr st' = stderr st /\ stdout st' = stdout st.
Proof.
  unfold touch_bit. unfold_monad. intros Hrun.
  split_run; simplify_eq; simpl; auto.
Qed.

(** C6. When the port opens, [reset] returns [false] if the read of
    the response times out or the byte read lies outside 16..224 and
    [true] otherwise; 15 and 225 are absent, 16 and 224 present. *)
Theorem reset_presence_window (st : State W) (w : W)
    (Hopen : serial_open device_path 9600 (world (snd (close_if_open st))) = (Opened, w)) :
  exists response w',
    serial_read (serial_flush (serial_write 0xF0 w)) = (response, w')
    /\ fst (reset device_path st)
       = Ok (match response with
             | None => false
             | Some presence => bool_decide (16 <= presence <= 224)
             end)
    /\ (response = Some 15 -> fst (reset device_path st) = Ok false)
    /\ (response = Some 225 -> fst (reset device_path st) = Ok false)
    /\ (response = Some 16 -> fst (reset device_path st) = Ok true)
    /\ (response = Some 224 -> fst (reset device_path st) = Ok true).
Proof.
  destruct (serial_read (serial_flush (serial_write 240 w))) as [response w'] eqn:Hread.
  exists response, w'. split; [reflexivity |].
  assert (Hgen : fst (reset device_path st)
                 = Ok (match response with
                       | None => false
                       | Some presence => bool_decide (16 <= presence <= 224)
                       end)).
  { unfold reset. unfold bind at 1.
    destruct (close_if_open st) as [[[] | e |] st0] eqn:Hclose;
      try (unfold close_if_open in Hclose; destruct (port st); discriminate).
    simpl in Hopen. rewrite Hopen.
    unfold_monad. simpl. rewrite Hread.
    destruct response as [presence |]; simpl; [| reflexivity].
    f_equal. destruct (bool_decide_reflect (16 <= presence <= 224)) as [Hin | Hout].
    - apply andb_true_iff. split; lia.
    - apply andb_false_iff. lia. }
  split; [exact Hgen |].
  repeat split; intros ->; rewrite Hgen; reflexivity.
Qed.

End BitEngine.

Lemma touch_bit_spec_witness :
  let st := mkState (Scripted.mkPort [Some 0xFF] [] []) true [] [] in
  exists rx w,
    serial_read (serial_write (if 1 =? 0 then 0x00 else 0xFF) (world st)) = (rx, w)
    /\ touch_bit 1 st = (Ok (if decide (rx = Some 0xFF) then 1 else 0), with_world st w).
Proof. intros st. apply touch_bit_spec. reflexivity. Defined.

Lemma reset_presence_window_witness :
  let st := Scripted.start (Scripted.mkPort [Some 224] [] []) in
  exists response w',
    serial_read (serial_flush (serial_write 0xF0 (world st))) = (response, w')
    /\ fst (reset "/dev/ttyUSB0" st)
       = Ok (match response with
             | None => false
             | Some presence => bool_decide (16 <= presence <= 224)
             end)
    /\ (response = Some 15 -> fst (reset "/dev/ttyUSB0" st) = Ok false)
    /\ (response = Some 225 -> fst (reset "/dev/ttyUSB0" st) = Ok false)
    /\ (response = Some 16 -> fst (reset "/dev/ttyUSB0" st) = Ok true)
    /\ (response = Some 224 -> fst (reset "/dev/ttyUSB0" st) = Ok true).
Proof. intros st. apply reset_presence_window. reflexivity. Defined.

(** ** Search-ROM: what a pass keeps *)

Lemma lor_byte (a b : Z) : is_byte a -> is_byte b -> is_byte (Z.lor a b).
Proof.
  unfold is_byte. intros Ha Hb.
  assert (Hnn : 0 <= Z.lor a b) by (apply Z.lor_nonneg; lia).
  split; [exact Hnn |].
  destruct (Z.eq_dec (Z.lor a b) 0) as [-> | Hne]; [lia |].
  change 256 with (2 ^ 8). apply (proj2 (Z.log2_lt_pow2 (Z.lor a b) 8 ltac:(lia))).
  rewrite Z.log2_lor by lia.
  apply Z.max_lub_lt.
  - destruct (Z.eq_dec a 0) as [-> | ?]; [reflexivity |].
    apply (proj1 (Z.log2_lt_pow2 a 8 ltac:(lia))). simpl. lia.
  - destruct (Z.eq_dec b 0) as [-> | ?]; [reflexivity |].
    apply (proj1 (Z.log2_lt_pow2 b 8 ltac:(lia))). simpl. lia.
Qed.

Lemma single_bit_byte (k : Z) : 0 <= k < 8 -> is_byte (Z.shiftl 1 k).
Proof.
  intros Hk. rewrite Z.shiftl_1_l. unfold is_byte. split; [apply Z.pow_nonneg; lia |].
  apply Z.le_lt_trans with (2 ^ 7); [apply Z.pow_le_mono_r; lia | reflexivity].
Qed.

Lemma land_1_cases (x : Z) : Z.land x 1 = 0 \/ Z.land x 1 = 1.
Proof.
  change 1 with (Z.ones 1) at 1 2. rewrite Z.land_ones by lia.
  change (2 ^ 1) with 2. pose proof (Z.mod_pos_bound x 2). lia.
Qed.

Lemma py_setitem_rom (rom rom' : list Z) (i v : Z) :
  py_setitem rom i v = Some rom' -> is_rom rom -> is_byte v -> is_rom rom'.
Proof.
  unfold py_setitem, is_rom. intros Hset [Hlen Hbytes] Hv.
  destruct (0 <=? i); [destruct (i <? _); [| discriminate] | destruct (_ <=? i); [| discriminate]];
    simplify_eq; rewrite length_insert; (split; [assumption | apply Forall_insert; assumption]).
Qed.

Lemma highest_from (l : list Z) (a : Z) :
  0 <= a -> foldr Z.max a l = Z.max (highest l) a.
Proof.
  intros Ha. unfold highest. induction l as [| x l IH]; simpl; [lia |].
  rewrite IH. lia.
Qed.

Lemma highest_snoc (l : list Z) (x : Z) :
  0 <= x -> highest (l ++ [x]) = Z.max (highest l) x.
Proof.
  intros Hx. unfold highest at 1. rewrite foldr_app. simpl.
  rewrite highest_from by lia. lia.
Qed.

Lemma highest_nonneg (l : list Z) : 0 <= highest l.
Proof. unfold highest. induction l; simpl; lia. Qed.

Lemma highest_bound (l : list Z) (b : Z) :
  0 <= b -> Forall (fun x => x <= b) l -> highest l <= b.
Proof.
  intros Hb Hall. unfold highest. induction Hall; simpl; [lia |].
  apply Z.max_lub; assumption.
Qed.

(** Destruct the run at the head of a hypothesis, step by step. *)
Ltac run_inv Hrun :=
  repeat (simpl in Hrun;
          match type of Hrun with
          | (match ?x with _ => _ end) = _ => destruct x eqn:?
          | (if ?x then _ else _) = _ => destruct x eqn:?
          | (let (_, _) := ?x in _) = _ => destruct x eqn:?
          end);
  simplify_eq.

Section SearchPass.
Context {W : Type} {H : Host W}.
Variable device_path : string.

(** What [resolve] returns: a direction 0 or 1; direction 0 only away
    from the previous cursor and with the position as new cursor,
    direction 1 with the cursor unchanged. *)
Lemma resolve_inv (last bit_pos d disc : Z) (ps : pass_state) (st st' : State W) :
  resolve last bit_pos ps st = (Ok (d, disc), st') ->
  st' = st /\
  ((d = 0 /\ bit_pos <> last /\ disc = bit_pos) \/ (d = 1 /\ disc = discrepancy ps)).
Proof.
  unfold resolve. intros Hrun.
  destruct (Z.eqb_spec bit_pos last) as [-> | Hne].
  { unfold ret in Hrun. simplify_eq. auto. }
  destruct (bit_pos >? last) eqn:Hgt.
  { unfold ret in Hrun. simplify_eq. auto. }
  destruct (py_index (rom ps) (bit_pos / 8)) as [byte |] eqn:Hbyte;
    unfold_monad; simpl in Hrun; simplify_eq.
  split; [reflexivity |].
  destruct (land_1_cases (Z.shiftr byte (bit_pos mod 8))) as [E | E];
    rewrite E; simpl; auto.
Qed.

Lemma store_bit_inv (bit_pos d : Z) (r r' : list Z) (st st' : State W) :
  0 <= bit_pos < 64 ->
  store_bit bit_pos d r st = (Ok r', st') -> is_rom r -> st' = st /\ is_rom r'.
Proof.
  unfold store_bit. intros Hpos Hrun Hrom.
  destruct (d =? 0).
  { unfold ret in Hrun. simplify_eq. auto. }
  destruct (py_index r (bit_pos / 8)) as [byte |] eqn:Hbyte;
    unfold_monad; simpl in Hrun; [| discriminate].
  destruct (py_setitem r (bit_pos / 8) _) as [r0 |] eqn:Hset;
    unfold ret, raise in Hrun; simplify_eq.
  split; [reflexivity |].
  eapply py_setitem_rom; [exact Hset | assumption |].
  apply lor_byte.
  - apply py_index_elem in Hbyte.
    exact (proj1 (Forall_forall _ _) (proj2 Hrom) _ Hbyte).
  - apply single_bit_byte. apply Z.mod_pos_bound. lia.
Qed.

(** On a ROM buffer of eight bytes the store never fails. *)
Lemma store_bit_total (bit_pos d : Z) (r : list Z) (st : State W) :
  0 <= bit_pos < 64 -> is_rom r ->
  exists r', store_bit bit_pos d r st = (Ok r', st).
Proof.
  intros Hpos [Hlen Hbytes]. unfold store_bit.
  destruct (d =? 0); [eexists; reflexivity |].
  assert (Hidx : 0 <= bit_pos / 8 < Z.of_nat (length r)).
  { rewrite Hlen. split; [apply Z.div_pos; lia | apply Z.div_lt_upper_bound; lia]. }
  destruct (py_index_is_Some r (bit_pos / 8) Hidx) as [b Hb].
  unfold_monad. rewrite Hb. simpl. unfold py_setitem.
  destruct (0 <=? bit_pos / 8) eqn:E1; [| lia].
  destruct (bit_pos / 8 <? Z.of_nat (length r)) eqn:E2; [| lia].
  eexists; reflexivity.
Qed.

Lemma pass_inv_mono (a a' : nat) (ps : pass_state) :
  (a <= a')%nat -> pass_inv a ps -> pass_inv a' ps.
Proof.
  intros Hle (Hrom & Hdisc & Hpos). repeat split; try assumption; try apply Hrom.
  eapply Forall_impl; [exact Hpos |]. simpl. intros s Hs. lia.
Qed.

Lemma pending_snoc (h : list slot) (s : slot) :
  pending (h ++ [s]) =
  pending h ++
  (if (slot_bit s =? 0) && (slot_comp s =? 0) && (slot_dir s =? 0) then [slot_pos s] else []).
Proof.
  unfold pending. rewrite List.filter_app, fmap_app. simpl.
  destruct ((slot_bit s =? 0) && (slot_comp s =? 0) && (slot_dir s =? 0)); reflexivity.
Qed.

Lemma pending_bound (a : nat) (h : list slot) :
  Forall (fun s => 0 <= slot_pos s < Z.of_nat a) h ->
  Forall (fun p => p <= Z.of_nat a) (pending h).
Proof.
  intros Hall. unfold pending. apply Forall_fmap.
  apply Forall_forall. intros s Hs. simpl.
  apply list_elem_of_In, filter_In in Hs. destruct Hs as [Hs _].
  apply list_elem_of_In in Hs.
  pose proof (proj1 (Forall_forall _ _) Hall s Hs). simpl in *. lia.
Qed.

Lemma search_bits_inv (n : nat) :
  forall (a : nat) (last : Z) (ps ps' : pass_state) (b : bool) (st st' : State W),
    (a + n <= 64)%nat ->
    search_bits (Z.of_nat <$> seq a n) last ps st = (Ok (ps', b), st') ->
    pass_inv a ps -> pass_inv (a + n) ps'.
Proof.
  induction n as [| n IH]; intros a last ps ps' b st st' Hle Hrun Hinv.
  - simpl in Hrun. unfold ret in Hrun. simplify_eq.
    eapply pass_inv_mono; [| exact Hinv]. lia.
  - simpl in Hrun. unfold bind in Hrun.
    destruct (touch_bit 1 st) as [[bit | e |] st1] eqn:Hbit; try discriminate.
    destruct (touch_bit 1 st1) as [[comp | e |] st2] eqn:Hcomp; try discriminate.
    destruct ((bit =? 1) && (comp =? 1)) eqn:Hboth.
    { unfold ret in Hrun. simplify_eq. eapply pass_inv_mono; [| exact Hinv]. lia. }
    destruct ((bit =? 0) && (comp =? 0)) eqn:Hdisc.
    + destruct (resolve last (Z.of_nat a) ps st2) as [[[d disc] | e |] st3] eqn:Hres;
        try discriminate.
      apply resolve_inv in Hres. destruct Hres as [-> Hchoice]. simpl in Hrun.
      destruct (touch_bit d st2) as [[echo | e |] st4] eqn:Hdir; try discriminate.
      destruct (store_bit (Z.of_nat a) d (rom ps) st4) as [[rom' | e |] st5] eqn:Hstore;
        try discriminate.
      destruct Hinv as (Hrom & Hcur & Hpos).
      apply store_bit_inv in Hstore; [| lia | assumption]. destruct Hstore as [-> Hrom'].
      replace (a + S n)%nat with (S a + n)%nat by lia.
      eapply IH; [| exact Hrun |]; [lia |].
      apply andb_true_iff in Hdisc. destruct Hdisc as [Hb0 Hc0].
      repeat split; simpl; try apply Hrom'.
      * rewrite pending_snoc. simpl. rewrite Hb0, Hc0. simpl.
        destruct Hchoice as [(-> & _ & ->) | (-> & ->)]; simpl.
        -- rewrite highest_snoc by lia.
           pose proof (highest_bound _ (Z.of_nat a) ltac:(lia) (pending_bound a _ Hpos)). lia.
        -- rewrite app_nil_r. exact Hcur.
      * apply Forall_app. split.
        -- eapply Forall_impl; [exact Hpos |]. simpl. intros s Hs. lia.
        -- constructor; [simpl; lia | constructor].
    + unfold ret in Hrun. simpl in Hrun.
      destruct (touch_bit bit st2) as [[echo | e |] st4] eqn:Hdir; try discriminate.
      destruct (store_bit (Z.of_nat a) bit (rom ps) st4) as [[rom' | e |] st5] eqn:Hstore;
        try discriminate.
      destruct Hinv as (Hrom & Hcur & Hpos).
      apply store_bit_inv in Hstore; [| lia | assumption]. destruct Hstore as [-> Hrom'].
      replace (a + S n)%nat with (S a + n)%nat by lia.
      eapply IH; [| exact Hrun |]; [lia |].
      repeat split; simpl; try apply Hrom'.
      * rewrite pending_snoc. simpl.
        replace ((bit =? 0) && (comp =? 0) && (bit =? 0)) with false.
        -- rewrite app_nil_r. exact Hcur.
        -- rewrite Hdisc. reflexivity.
      * apply Forall_app. split.
        -- eapply Forall_impl; [exact Hpos |]. simpl. intros s Hs. lia.
        -- constructor; [simpl; lia | constructor].
Qed.

Lemma pass_inv_start : pass_inv 0 (mkPass (replicate 8 0) 0 []).
Proof.
  unfold pass_inv, is_rom. simpl.
  split; [split; [reflexivity | repeat constructor; unfold is_byte; lia] |].
  split; [reflexivity | constructor].
Qed.

(** A pass that ran ends with eight bytes in the buffer and with the
    cursor at the highest pending position of its history. *)
Lemma search_pass_inv (last : Z) (ps : pass_state) (b : bool) (st st' : State W) :
  search_pass device_path last st = (Ok (Some (ps, b)), st') -> pass_inv 64 ps.
Proof.
  unfold search_pass. intros Hrun. unfold bind in Hrun.
  destruct (reset device_path st) as [[ok | e |] st1]; try discriminate.
  destruct (negb ok); [unfold ret in Hrun; discriminate |].
  destruct (switch_to_data_mode device_path st1) as [[[] | e |] st2]; try discriminate.
  destruct (write_byte 240 st2) as [[[] | e |] st3]; try discriminate.
  destruct (search_bits (range 64) last _ st3) as [[[ps0 b0] | e |] st4] eqn:Hbits;
    try discriminate.
  unfold ret in Hrun. simplify_eq.
  exact (search_bits_inv 64 0 last _ _ _ _ _ ltac:(lia) Hbits pass_inv_start).
Qed.

End SearchPass.

(** ** Search-ROM: the cursor and the ROM codes returned *)

Lemma highest_ge (l : list Z) (x : Z) : x ∈ l -> x <= highest l.
Proof.
  unfold highest. induction 1 as [x l | x y l _ IH]; simpl; lia.
Qed.

Section SearchRom.
Context {W : Type} {H : Host W}.
Variable device_path : string.

(** Every ROM code the loop adds is eight bytes with CRC zero. *)
Lemma search_loop_inv (fuel : nat) :
  forall (devices devs : list (list Z)) (last : Z) (st st' : State W),
    search_loop device_path fuel devices last st = (Ok devs, st') ->
    Forall (fun r => is_rom r /\ crc_ok r) devices ->
    Forall (fun r => is_rom r /\ crc_ok r) devs.
Proof.
  induction fuel as [| fuel IH]; intros devices devs last st st' Hrun Hdev;
    [discriminate |].
  simpl in Hrun. unfold bind in Hrun.
  destruct (search_pass device_path last st) as [[[[ps []] |] | e |] st1] eqn:Hpass;
    try discriminate; unfold ret in Hrun; simplify_eq; try assumption.
  pose proof (search_pass_inv device_path last ps false st st1 Hpass) as (Hrom & _ & _).
  unfold lift_index in Hrun.
  destruct (crc8 (rom ps)) as [crc |] eqn:Hcrc; [| discriminate].
  unfold ret in Hrun. simpl in Hrun.
  assert (Hdev' : Forall (fun r => is_rom r /\ crc_ok r)
                    (if crc =? 0 then devices ++ [rom ps] else devices)).
  { destruct (Z.eqb_spec crc 0) as [-> | Hne]; [| assumption].
    apply Forall_app. split; [assumption |]. constructor; [| constructor].
    split; assumption. }
  destruct (discrepancy ps =? 0).
  - simplify_eq. exact Hdev'.
  - eapply IH; eassumption.
Qed.

(** C10. Every element of the list [search_rom] returns is a ROM code
    of exactly eight integers, each in 0..255. *)
Theorem search_rom_well_formed (fuel : nat) (st st' : State W) (devs : list (list Z))
    (Hrun : search_rom device_path fuel st = (Ok devs, st')) :
  Forall is_rom devs.
Proof.
  eapply Forall_impl.
  - eapply search_loop_inv; [exact Hrun | constructor].
  - simpl. intros r [Hrom _]. exact Hrom.
Qed.

(** C5. Every ROM code [search_rom] returns has CRC zero; and a pass
    that assembled a ROM with a nonzero CRC leaves the list of devices
    and the state as they were, raises nothing, and the loop goes on as
    after any other pass. *)
Theorem search_rom_crc_valid (fuel : nat) (st st' : State W) (devs : list (list Z))
    (Hrun : search_rom device_path fuel st = (Ok devs, st')) :
  Forall crc_ok devs
  /\ (forall (fuel' : nat) (devices : list (list Z)) (last : Z)
             (st0 st1 : State W) (ps : pass_state),
        search_pass device_path last st0 = (Ok (Some (ps, false)), st1) ->
        ~ crc_ok (rom ps) ->
        search_loop device_path (S fuel') devices last st0
        = if discrepancy ps =? 0 then (Ok devices, st1)
          else search_loop device_path fuel' devices (discrepancy ps) st1).
Proof.
  split.
  - eapply Forall_impl.
    + eapply search_loop_inv; [exact Hrun | constructor].
    + simpl. intros r [_ Hcrc]. exact Hcrc.
  - intros fuel' devices last st0 st1 ps Hpass Hbad.
    pose proof (search_pass_inv device_path last ps false st0 st1 Hpass) as ([_ Hbytes] & _).
    destruct (crc8_bytes (rom ps) Hbytes) as (c & Hc & _).
    simpl. unfold bind. rewrite Hpass. unfold lift_index. rewrite Hc.
    unfold ret. simpl.
    destruct (Z.eqb_spec c 0) as [-> | Hne]; [contradiction |].
    destruct (discrepancy ps =? 0); reflexivity.
Qed.

End SearchRom.

Lemma search_rom_well_formed_witness : Forall is_rom [SimBus.romA; SimBus.romB].
Proof.
  apply (search_rom_well_formed "/dev/ttyUSB0" 2 (SimBus.start [SimBus.romA; SimBus.romB])
           (snd (search_rom "/dev/ttyUSB0" 2 (SimBus.start [SimBus.romA; SimBus.romB])))).
  vm_compute. reflexivity.
Defined.

Lemma search_rom_crc_valid_witness :
  Forall crc_ok [SimBus.romA; SimBus.romB]
  /\ (forall (fuel' : nat) (devices : list (list Z)) (last : Z)
             (st0 st1 : State SimBus.bus) (ps : pass_state),
        search_pass "/dev/ttyUSB0" last st0 = (Ok (Some (ps, false)), st1) ->
        ~ crc_ok (rom ps) ->
        search_loop "/dev/ttyUSB0" (S fuel') devices last st0
        = if discrepancy ps =? 0 then (Ok devices, st1)
          else search_loop "/dev/ttyUSB0" fuel' devices (discrepancy ps) st1).
Proof.
  apply (search_rom_crc_valid "/dev/ttyUSB0" 2 (SimBus.start [SimBus.romA; SimBus.romB])
           (snd (search_rom "/dev/ttyUSB0" 2 (SimBus.start [SimBus.romA; SimBus.romB])))).
  vm_compute. reflexivity.
Defined.

(** ** Search-ROM on the simulated bus *)

Section SearchLoopSteps.
Context {W : Type} {H : Host W}.
Variable device_path : string.

(** A completed pass with a valid ROM and a nonzero cursor: the ROM is
    appended and the loop takes another turn. *)
Lemma search_loop_next (fuel : nat) (devices : list (list Z)) (last : Z)
    (st st1 : State W) (ps : pass_state) :
  search_pass device_path last st = (Ok (Some (ps, false)), st1) ->
  crc_ok (rom ps) -> discrepancy ps <> 0 ->
  search_loop device_path (S fuel) devices last st
  = search_loop device_path fuel (devices ++ [rom ps]) (discrepancy ps) st1.
Proof.
  intros Hpass Hcrc Hne. simpl. unfold bind. rewrite Hpass.
  unfold lift_index. rewrite Hcrc. unfold ret. simpl.
  destruct (Z.eqb_spec (discrepancy ps) 0); [contradiction | reflexivity].
Qed.

(** A completed pass with a valid ROM and the cursor at 0: the ROM is
    appended and the search returns. *)
Lemma search_loop_last (fuel : nat) (devices : list (list Z)) (last : Z)
    (st st1 : State W) (ps : pass_state) :
  search_pass device_path last st = (Ok (Some (ps, false)), st1) ->
  crc_ok (rom ps) -> discrepancy ps = 0 ->
  search_loop device_path (S fuel) devices last st = (Ok (devices ++ [rom ps]), st1).
Proof.
  intros Hpass Hcrc Hz. simpl. unfold bind. rewrite Hpass.
  unfold lift_index. rewrite Hcrc. unfold ret. simpl.
  rewrite Hz. reflexivity.
Qed.

End SearchLoopSteps.

Module ThreeSensors.
Import SimBus.

Lemma first_pass (path : string) :
  exists ps, search_pass path 0 (start [romA; romB; romC]) = (Ok (Some (ps, false)), between)
             /\ rom ps = romA /\ discrepancy ps = 8.
Proof. eexists. split; [vm_compute; reflexivity | split; reflexivity]. Qed.

Lemma pass_from_8 (path : string) :
  exists ps, search_pass path 8 between = (Ok (Some (ps, false)), between)
             /\ rom ps = romB /\ discrepancy ps = 9.
Proof. eexists. split; [vm_compute; reflexivity | split; reflexivity]. Qed.

Lemma pass_from_9 (path : string) :
  exists ps, search_pass path 9 between = (Ok (Some (ps, false)), between)
             /\ rom ps = romA /\ discrepancy ps = 8.
Proof. eexists. split; [vm_compute; reflexivity | split; reflexivity]. Qed.

Lemma loop_from_8 (path : string) (fuel : nat) (devices : list (list Z)) :
  search_loop path (S fuel) devices 8 between
  = search_loop path fuel (devices ++ [romB]) 9 between.
Proof.
  destruct (pass_from_8 path) as (ps & Hpass & Hrom & Hdisc).
  rewrite (search_loop_next path fuel devices 8 between between ps Hpass).
  - rewrite Hrom, Hdisc. reflexivity.
  - rewrite Hrom. reflexivity.
  - rewrite Hdisc. discriminate.
Qed.

Lemma loop_from_9 (path : string) (fuel : nat) (devices : list (list Z)) :
  search_loop path (S fuel) devices 9 between
  = search_loop path fuel (devices ++ [romA]) 8 between.
Proof.
  destruct (pass_from_9 path) as (ps & Hpass & Hrom & Hdisc).
  rewrite (search_loop_next path fuel devices 9 between between ps Hpass).
  - rewrite Hrom, Hdisc. reflexivity.
  - rewrite Hrom. reflexivity.
  - rewrite Hdisc. discriminate.
Qed.

Lemma loop_never_returns (path : string) (fuel : nat) :
  forall devices,
    fst (search_loop path fuel devices 8 between) = OutOfFuel
    /\ fst (search_loop path fuel devices 9 between) = OutOfFuel.
Proof.
  induction fuel as [| fuel IH]; intros devices; [split; reflexivity |].
  rewrite loop_from_8, loop_from_9. split; apply IH.
Qed.

(** C1, at three DS18B20 whose ROM codes are [romA], [romB], [romC]:
    the search never returns, whatever the number of passes allowed;
    after three passes it holds [romA; romB; romA], the first sensor
    twice and the third not at all, and goes on from the cursor 8 it
    had after the first pass. *)
Theorem search_rom_never_returns (path : string) :
  (forall fuel, fst (search_rom path fuel (start [romA; romB; romC])) = OutOfFuel)
  /\ (forall fuel,
        search_rom path (3 + fuel) (start [romA; romB; romC])
        = search_loop path fuel [romA; romB; romA] 8 between).
Proof.
  assert (Hfirst : forall fuel,
            search_rom path (S fuel) (start [romA; romB; romC])
            = search_loop path fuel [romA] 8 between).
  { intros fuel. unfold search_rom.
    destruct (first_pass path) as (ps & Hpass & Hrom & Hdisc).
    rewrite (search_loop_next path fuel [] 0 _ between ps Hpass).
    - rewrite Hrom, Hdisc. reflexivity.
    - rewrite Hrom. reflexivity.
    - rewrite Hdisc. discriminate. }
  split.
  - intros [| fuel]; [reflexivity |].
    rewrite Hfirst. apply loop_never_returns.
  - intros fuel. change (3 + fuel)%nat with (S (S (S fuel))).
    rewrite Hfirst, loop_from_8, loop_from_9. reflexivity.
Qed.

(** A DS18B20 and a DS1825 on one bus differ at bit 0: the search
    returns after one pass with the DS1825 alone. *)
Lemma search_rom_bit0 (path : string) (fuel : nat) :
  fst (search_rom path (S fuel) (start [romA; romD])) = Ok [romD].
Proof.
  unfold search_rom.
  assert (Hpass : exists ps st1,
             search_pass path 0 (start [romA; romD]) = (Ok (Some (ps, false)), st1)
             /\ rom ps = romD /\ discrepancy ps = 0).
  { do 2 eexists. split; [vm_compute; reflexivity | split; reflexivity]. }
  destruct Hpass as (ps & st1 & Hpass & Hrom & Hdisc).
  rewrite (search_loop_last path fuel [] 0 _ st1 ps Hpass).
  - rewrite Hrom. reflexivity.
  - rewrite Hrom. reflexivity.
  - exact Hdisc.
Qed.

End ThreeSensors.

(** ** Temperature: the 16-bit value and its sign *)

Lemma testbit_above (a k n : Z) :
  0 <= a < 2 ^ k -> 0 <= k <= n -> Z.testbit a n = false.
Proof.
  intros Ha Hk. apply Z.testbit_false; [lia |].
  rewrite Z.div_small; [reflexivity |].
  split; [lia |]. apply Z.lt_le_trans with (2 ^ k); [lia |].
  apply Z.pow_le_mono_r; lia.
Qed.

(** The most significant byte shifted left by 8 and the least
    significant byte share no bit. *)
Lemma lor_shift8 (b0 b1 : Z) :
  is_byte b0 -> Z.lor (Z.shiftl b1 8) b0 = b0 + 256 * b1.
Proof.
  intros Hb0. rewrite Z.shiftl_mul_pow2 by lia.
  pose proof (Z.add_lor_land (b1 * 2 ^ 8) b0) as Hadd.
  assert (Hland : Z.land (b1 * 2 ^ 8) b0 = 0).
  { apply Z.bits_inj'. intros n Hn. rewrite Z.land_spec, Z.bits_0.
    destruct (Z.ltb_spec n 8).
    - rewrite Z.mul_pow2_bits_low by lia. reflexivity.
    - rewrite (testbit_above b0 8 n) by (unfold is_byte in Hb0; simpl; lia).
      apply andb_false_r. }
  rewrite Hland in Hadd. change (2 ^ 8) with 256 in *. lia.
Qed.

Lemma land_sign_bit (raw : Z) :
  0 <= raw < 65536 -> (Z.land raw 0x8000 =? 0) = (raw <? 32768).
Proof.
  intros Hraw.
  assert (Hland : Z.land raw (2 ^ 15) = if Z.testbit raw 15 then 2 ^ 15 else 0).
  { apply Z.bits_inj'. intros n Hn. rewrite Z.land_spec, Z.pow2_bits_eqb by lia.
    destruct (Z.eqb_spec 15 n) as [<- | Hne].
    - destruct (Z.testbit raw 15); reflexivity.
    - rewrite andb_false_r.
      destruct (Z.testbit raw 15); [| rewrite Z.bits_0; reflexivity].
      rewrite Z.pow2_bits_false by lia. reflexivity. }
  change 0x8000 with (2 ^ 15). rewrite Hland.
  pose proof (Z.testbit_spec' raw 15 ltac:(lia)) as Hbit.
  change (2 ^ 15) with 32768 in *.
  destruct (Z.testbit raw 15); simpl in Hbit |- *; symmetry.
  - apply Z.ltb_ge. Z.to_euclidean_division_equations. lia.
  - apply Z.ltb_lt. Z.to_euclidean_division_equations. lia.
Qed.

Lemma lxor_all_ones (raw : Z) :
  0 <= raw < 65536 -> Z.lxor raw 0xFFFF = 65535 - raw.
Proof.
  intros Hraw. change 0xFFFF with (Z.ones 16).
  assert (Hland : Z.land raw (Z.lxor raw (Z.ones 16)) = 0).
  { apply Z.bits_inj'. intros n Hn. rewrite Z.land_spec, Z.lxor_spec, Z.bits_0.
    destruct (Z.ltb_spec n 16).
    - rewrite Z.ones_spec_low by lia. destruct (Z.testbit raw n); reflexivity.
    - rewrite (testbit_above raw 16 n) by (simpl; lia). reflexivity. }
  pose proof (Z.add_nocarry_lxor _ _ Hland) as Hadd.
  rewrite <- Z.lxor_assoc in Hadd.
  rewrite Z.lxor_nilpotent, Z.lxor_0_l in Hadd.
  change (Z.ones 16) with 65535 in *. lia.
Qed.

(** Lines 258-259 compute the two's-complement reading of 16 bits. *)
Lemma signed16_spec (raw : Z) :
  0 <= raw < 65536 -> signed16 raw = if raw <? 32768 then raw else raw - 65536.
Proof.
  intros Hraw. unfold signed16. rewrite land_sign_bit by assumption.
  destruct (raw <? 32768); [reflexivity |].
  rewrite lxor_all_ones by assumption. lia.
Qed.

(** ** What the byte transfers print and return *)

Section Transfers.
Context {W : Type} {H : Host W}.
Variable device_path : string.

Lemma same_output_refl (st : State W) : same_output st st.
Proof. split; reflexivity. Qed.

Lemma same_output_trans (st1 st2 st3 : State W) :
  same_output st1 st2 -> same_output st2 st3 -> same_output st1 st3.
Proof. intros [E1 E2] [E3 E4]. split; congruence. Qed.

Lemma silent_ret {A : Type} (a : A) : silent (ret (W:=W) a).
Proof. intros st r st' Hrun. unfold ret in Hrun. simplify_eq. apply same_output_refl. Qed.

Lemma silent_bind {A B : Type} (m : M W A) (k : A -> M W B) :
  silent m -> (forall a, silent (k a)) -> silent (bind m k).
Proof.
  intros Hm Hk st r st' Hrun. unfold bind in Hrun.
  destruct (m st) as [[a | e |] st1] eqn:Hmst; simplify_eq;
    try (eapply Hm; eassumption).
  eapply same_output_trans; [eapply Hm | eapply Hk]; eassumption.
Qed.

Lemma silent_touch_bit (bit : Z) : silent (touch_bit (W:=W) bit).
Proof.
  intros st r st' Hrun. apply touch_bit_frame in Hrun.
  destruct Hrun as (_ & E1 & E2). split; assumption.
Qed.

Lemma silent_touch_byte_loop (idxs : list Z) :
  forall byte_val acc, silent (touch_byte_loop (W:=W) idxs byte_val acc).
Proof.
  induction idxs as [| i idxs IH]; intros byte_val acc; simpl.
  - apply silent_ret.
  - apply silent_bind; [apply silent_touch_bit | intros a; apply IH].
Qed.

Lemma silent_write_byte (byte_val : Z) : silent (write_byte (W:=W) byte_val).
Proof.
  apply silent_bind; [apply silent_touch_byte_loop | intros a; apply silent_ret].
Qed.

Lemma silent_write_bytes (data : list Z) : silent (write_bytes (W:=W) data).
Proof.
  induction data as [| byte data IH]; simpl.
  - apply silent_ret.
  - apply silent_bind; [apply silent_write_byte | intros a; apply IH].
Qed.

Lemma silent_read_bytes (n : nat) :
  forall scratchpad, silent (read_bytes (W:=W) n scratchpad).
Proof.
  induction n as [| n IH]; intros scratchpad; simpl.
  - apply silent_ret.
  - apply silent_bind; [apply silent_touch_byte_loop | intros a; apply IH].
Qed.

Lemma silent_switch_to_data_mode : silent (switch_to_data_mode device_path).
Proof.
  intros st r st' Hrun. unfold switch_to_data_mode in Hrun. unfold_monad.
  split_run; simplify_eq; split; reflexivity.
Qed.

Lemma silent_sleep (s : Q) : silent (sleep (W:=W) s).
Proof. intros st r st' Hrun. unfold sleep in Hrun. simplify_eq. split; reflexivity. Qed.

(** A run of [reset] ends with a boolean and nothing written to
    stdout; it writes to stderr only when the port does not open, and
    then returns [false]. *)
Lemma reset_cases (st st' : State W) (r : result bool) :
  reset device_path st = (r, st') ->
  stdout st' = stdout st
  /\ ((r = Ok true /\ stderr st' = stderr st)
      \/ (r = Ok false /\ exists msgs, stderr st' = stderr st ++ msgs)).
Proof.
  unfold reset. unfold_monad. intros Hrun.
  split_run; simplify_eq; simpl; split; try reflexivity;
    try (left; split; reflexivity);
    try (right; split; [reflexivity | exists []; rewrite app_nil_r; reflexivity]);
    try (right; split; [reflexivity | eexists; reflexivity]);
    (destruct ((16 <=? _) && (_ <=? 224));
     [left; split; reflexivity
     | right; split; [reflexivity | exists []; rewrite app_nil_r; reflexivity]]).
Qed.

(** A byte assembled by [touch_byte] is a byte. *)
Lemma touch_byte_loop_byte (idxs : list Z) :
  Forall (fun i => 0 <= i < 8) idxs ->
  forall byte_val acc r (st st' : State W),
    is_byte acc ->
    touch_byte_loop idxs byte_val acc st = (Ok r, st') -> is_byte r.
Proof.
  induction 1 as [| i idxs Hi _ IH]; intros byte_val acc r st st' Hacc Hrun; simpl in Hrun.
  - unfold ret in Hrun. simplify_eq. exact Hacc.
  - unfold bind in Hrun.
    destruct (touch_bit _ st) as [[read_bit | e |] st1] eqn:Hbit; try discriminate.
    eapply IH; [| exact Hrun].
    apply lor_byte; [exact Hacc |].
    destruct (touch_bit_01 _ _ _ _ Hbit) as [-> | ->].
    + rewrite Z.shiftl_0_l. unfold is_byte. lia.
    + apply single_bit_byte. exact Hi.
Qed.

Lemma range_8_bounds : Forall (fun i => 0 <= i < 8) (range 8).
Proof. repeat constructor; lia. Qed.

Lemma read_byte_byte (r : Z) (st st' : State W) :
  read_byte st = (Ok r, st') -> is_byte r.
Proof.
  apply (touch_byte_loop_byte (range 8) range_8_bounds).
  unfold is_byte. lia.
Qed.

Lemma read_bytes_bytes (n : nat) :
  forall scratchpad r (st st' : State W),
    Forall is_byte scratchpad ->
    read_bytes n scratchpad st = (Ok r, st') ->
    length r = (length scratchpad + n)%nat /\ Forall is_byte r.
Proof.
  induction n as [| n IH]; intros scratchpad r st st' Hsp Hrun; simpl in Hrun.
  - unfold ret in Hrun. simplify_eq. split; [lia | assumption].
  - unfold bind in Hrun.
    destruct (read_byte st) as [[b | e |] st1] eqn:Hb; try discriminate.
    apply IH in Hrun.
    + rewrite length_app in Hrun. simpl in Hrun. destruct Hrun. split; [lia | assumption].
    + apply Forall_app. split; [assumption |].
      constructor; [eapply read_byte_byte; eassumption | constructor].
Qed.

End Transfers.

(** ** [read_temperature] and the batch loop *)

(** Split the run at the head of [Hrun], a computation known to be
    [silent] by [lem], and keep what it says about the output. *)
Ltac step_silent Hrun lem :=
  cbv beta iota in Hrun;
  match type of Hrun with
  | (match ?m ?s with _ => _ end) = _ =>
      let E := fresh "E" in
      let Hs := fresh "Hs" in
      destruct (m s) as [[? | ? |] ?] eqn:E; try discriminate;
      pose proof (lem _ _ _ E) as Hs; clear E
  end.

Section Temperature.
Context {W : Type} {H : Host W}.
Variable device_path : string.

(** The exchange of [read_temperature] up to the scratchpad: with nine
    bytes in hand nothing was printed; without, the last line on stderr
    says which reset failed. *)
Lemma fetch_scratchpad_cases (rom : list Z) (st st1 : State W)
    (fetched : option (list Z)) :
  fetch_scratchpad device_path rom st = (Ok fetched, st1) ->
  stdout st1 = stdout st
  /\ match fetched with
     | Some scratchpad =>
         length scratchpad = 9%nat /\ Forall is_byte scratchpad
         /\ stderr st1 = stderr st
     | None =>
         exists earlier msg,
           stderr st1 = stderr st ++ earlier ++ [msg]
           /\ (msg = "Reset failed - no presence pulse"%string
               \/ msg = "Second reset failed"%string)
     end.
Proof.
  unfold fetch_scratchpad. intros Hrun. unfold bind in Hrun.
  destruct (reset device_path st) as [r0 s0] eqn:Hreset.
  apply reset_cases in Hreset.
  destruct Hreset as (Hout0 & [(-> & Herr0) | (-> & msgs0 & Herr0)]);
    cbn [negb] in Hrun; cbv beta iota in Hrun.
  2:{ unfold eprint, ret in Hrun. simplify_eq. simpl. split; [assumption |].
      exists msgs0, "Reset failed - no presence pulse"%string.
      rewrite Herr0, <- app_assoc. auto. }
  step_silent Hrun (silent_switch_to_data_mode device_path).
  step_silent Hrun (silent_write_byte (W:=W) 85).
  step_silent Hrun (silent_write_bytes (W:=W) rom).
  step_silent Hrun (silent_write_byte (W:=W) 68).
  step_silent Hrun (silent_sleep (W:=W) 0.75%Q).
  cbv beta iota in Hrun.
  match type of Hrun with
  | (match reset _ ?s with _ => _ end) = _ =>
      destruct (reset device_path s) as [r1 sr] eqn:Hreset
  end.
  apply reset_cases in Hreset.
  repeat match goal with Hs : same_output _ _ |- _ => destruct Hs as [? ?] end.
  destruct Hreset as (Hout1 & [(-> & Herr1) | (-> & msgs1 & Herr1)]);
    cbn [negb] in Hrun; cbv beta iota in Hrun.
  2:{ unfold eprint, ret in Hrun. simplify_eq. simpl. split; [congruence |].
      exists msgs1, "Second reset failed"%string.
      rewrite Herr1, <- app_assoc. split; [| auto]. f_equal. congruence. }
  step_silent Hrun (silent_switch_to_data_mode device_path).
  step_silent Hrun (silent_write_byte (W:=W) 85).
  step_silent Hrun (silent_write_bytes (W:=W) rom).
  step_silent Hrun (silent_write_byte (W:=W) 190).
  cbv beta iota in Hrun.
  match type of Hrun with
  | (match read_bytes 9 [] ?s with _ => _ end) = _ =>
      destruct (read_bytes 9 [] s) as [[sp | e |] s9] eqn:Hread; try discriminate
  end.
  pose proof (silent_read_bytes 9 [] _ _ _ Hread) as Hs9.
  apply read_bytes_bytes in Hread; [| constructor].
  unfold ret in Hrun. simplify_eq.
  repeat match goal with Hs : same_output _ _ |- _ => destruct Hs as [? ?] end.
  destruct Hread as [Hlen Hbytes].
  split; [congruence |]. repeat split; try assumption. congruence.
Qed.

(** C3. With the nine scratchpad bytes in hand and their CRC zero,
    [read_temperature] returns the 16-bit little-endian value of bytes
    0 and 1, read as two's complement, times 0.0625: 85 for the bytes
    0x50, 0x05 and -10.125 for the raw value 0xFF5E. *)
Theorem read_temperature_decodes (rom scratchpad : list Z) (st st1 : State W)
    (Hfetch : fetch_scratchpad device_path rom st = (Ok (Some scratchpad), st1))
    (Hcrc : crc8 scratchpad = Some 0) :
  exists b0 b1 t,
    scratchpad !! 0%nat = Some b0 /\ scratchpad !! 1%nat = Some b1
    /\ read_temperature device_path rom st = (Ok (Some t), st1)
    /\ 0 <= b0 + 256 * b1 < 65536
    /\ Qeq t (inject_Z (if b0 + 256 * b1 <? 32768
                        then b0 + 256 * b1 else b0 + 256 * b1 - 65536) * 0.0625)
    /\ (b0 = 0x50 -> b1 = 0x05 -> Qeq t 85)
    /\ (b0 = 0x5E -> b1 = 0xFF -> Qeq t (-10.125)).
Proof.
  pose proof (fetch_scratchpad_cases rom st st1 _ Hfetch) as (_ & Hlen & Hbytes & _).
  destruct scratchpad as [| b0 [| b1 rest]]; try (simpl in Hlen; lia).
  pose proof (Forall_inv Hbytes) as Hb0.
  pose proof (Forall_inv (Forall_inv_tail Hbytes)) as Hb1.
  unfold is_byte in Hb0, Hb1.
  assert (Hraw : 0 <= b0 + 256 * b1 < 65536) by lia.
  exists b0, b1, (inject_Z (signed16 (Z.lor (Z.shiftl b1 8) b0)) * 0.0625)%Q.
  split; [reflexivity |]. split; [reflexivity |].
  split.
  { unfold read_temperature. unfold bind. rewrite Hfetch.
    unfold lift_index. rewrite Hcrc. reflexivity. }
  split; [exact Hraw |].
  rewrite lor_shift8 by exact Hb0. rewrite signed16_spec by exact Hraw.
  split; [reflexivity |].
  split; intros -> ->; reflexivity.
Qed.

(** C8. With the nine scratchpad bytes in hand and their CRC not zero,
    [read_temperature] returns no temperature: it returns [None] after
    one more line on stderr, the CRC failure naming the ROM in
    hexadecimal. *)
Theorem read_temperature_crc_mismatch (rom scratchpad : list Z) (st st1 : State W)
    (Hfetch : fetch_scratchpad device_path rom st = (Ok (Some scratchpad), st1))
    (Hcrc : crc8 scratchpad <> Some 0) :
  read_temperature device_path rom st
  = (Ok None,
     mkState (world st1) (port st1)
       (stderr st1 ++
          [String.append "CRC validation failed for sensor " (rom_to_hex rom)])
       (stdout st1))
  /\ stderr st1 = stderr st /\ stdout st1 = stdout st.
Proof.
  pose proof (fetch_scratchpad_cases rom st st1 _ Hfetch) as (Hout & _ & Hbytes & Herr).
  destruct (crc8_bytes scratchpad Hbytes) as (c & Hc & _).
  split; [| split; assumption].
  unfold read_temperature. unfold bind. rewrite Hfetch.
  unfold lift_index. rewrite Hc. unfold ret.
  destruct (Z.eqb_spec c 0) as [-> | Hne]; [contradiction | reflexivity].
Qed.

(** A read that fails returns [None] with stdout untouched and, as its
    last line on stderr, the reason: no presence at the first or at the
    second reset, or the CRC failure naming the ROM. *)
Lemma read_temperature_failure (rom : list Z) (st st1 : State W) :
  read_temperature device_path rom st = (Ok None, st1) ->
  stdout st1 = stdout st
  /\ exists earlier msg,
       stderr st1 = stderr st ++ earlier ++ [msg]
       /\ (msg = "Reset failed - no presence pulse"%string
           \/ msg = "Second reset failed"%string
           \/ msg = crc_message rom).
Proof.
  unfold read_temperature. intros Hrun. unfold bind in Hrun.
  destruct (fetch_scratchpad device_path rom st) as [[[sp |] | e |] s0] eqn:Hfetch;
    try discriminate.
  - apply fetch_scratchpad_cases in Hfetch. destruct Hfetch as (Hout & _ & _ & Herr).
    unfold lift_index in Hrun.
    destruct (crc8 sp) as [c |]; [| discriminate]. unfold ret in Hrun.
    destruct (negb (c =? 0)).
    + unfold eprint in Hrun. simplify_eq. simpl. split; [assumption |].
      exists [], (crc_message rom). rewrite Herr. auto.
    + destruct (decode_temperature sp); discriminate.
  - unfold ret in Hrun. simplify_eq.
    apply fetch_scratchpad_cases in Hfetch. destruct Hfetch as (Hout & earlier & msg & Herr & Hmsg).
    split; [assumption |]. exists earlier, msg. split; [assumption |].
    destruct Hmsg; auto.
Qed.

Lemma read_all_app (pre post : list (list Z)) :
  forall (idx : nat) (st : State W),
    read_all device_path idx (pre ++ post) st
    = match read_all device_path idx pre st with
      | (Ok _, st1) => read_all device_path (idx + length pre) post st1
      | (Raise e, st1) => (Raise e, st1)
      | (OutOfFuel, st1) => (OutOfFuel, st1)
      end.
Proof.
  induction pre as [| rom pre IH]; intros idx st; simpl.
  - rewrite Nat.add_0_r. reflexivity.
  - unfold bind.
    destruct (read_temperature device_path rom st) as [[temp_c | e |] st1]; try reflexivity.
    destruct (match temp_c with
              | Some t => print_report (mkReport idx t)
              | None => ret ()
              end st1) as [[[] | e |] st2]; try reflexivity.
    rewrite IH. replace (S idx + length pre)%nat with (idx + S (length pre))%nat by lia.
    reflexivity.
Qed.

(** C9. In the batch loop a sensor whose read fails, by a missing
    presence pulse or by a CRC mismatch, prints no temperature line and
    its own reason on stderr, and the loop goes on with the sensors
    after it, under their own indices. *)
Theorem read_all_continues (idx : nat) (pre post : list (list Z)) (rom : list Z)
    (st st1 st2 : State W)
    (Hpre : read_all device_path idx pre st = (Ok tt, st1))
    (Hfail : read_temperature device_path rom st1 = (Ok None, st2)) :
  read_all device_path idx (pre ++ rom :: post) st
  = read_all device_path (S (idx + length pre)) post st2
  /\ stdout st2 = stdout st1
  /\ exists earlier msg,
       stderr st2 = stderr st1 ++ earlier ++ [msg]
       /\ (msg = "Reset failed - no presence pulse"%string
           \/ msg = "Second reset failed"%string
           \/ msg = String.append "CRC validation failed for sensor " (rom_to_hex rom)).
Proof.
  split; [| exact (read_temperature_failure rom st1 st2 Hfail)].
  rewrite read_all_app, Hpre. simpl. unfold bind. rewrite Hfail. reflexivity.
Qed.

End Temperature.

Lemma read_temperature_decodes_witness :
  let st := Scripted.start (Scripted.temperature_port Scripted.scratchpad_85) in
  let st1 := snd (fetch_scratchpad "/dev/ttyUSB0" SimBus.romA st) in
  exists b0 b1 t,
    Scripted.scratchpad_85 !! 0%nat = Some b0 /\ Scripted.scratchpad_85 !! 1%nat = Some b1
    /\ read_temperature "/dev/ttyUSB0" SimBus.romA st = (Ok (Some t), st1)
    /\ 0 <= b0 + 256 * b1 < 65536
    /\ Qeq t (inject_Z (if b0 + 256 * b1 <? 32768
                        then b0 + 256 * b1 else b0 + 256 * b1 - 65536) * 0.0625)
    /\ (b0 = 0x50 -> b1 = 0x05 -> Qeq t 85)
    /\ (b0 = 0x5E -> b1 = 0xFF -> Qeq t (-10.125)).
Proof.
  intros st st1. apply read_temperature_decodes.
  - vm_compute. reflexivity.
  - reflexivity.
Defined.

Lemma read_temperature_crc_mismatch_witness :
  let st := Scripted.start (Scripted.temperature_port Scripted.scratchpad_bad) in
  let st1 := snd (fetch_scratchpad "/dev/ttyUSB0" SimBus.romA st) in
  read_temperature "/dev/ttyUSB0" SimBus.romA st
  = (Ok None,
     mkState (world st1) (port st1)
       (stderr st1 ++
          [String.append "CRC validation failed for sensor " (rom_to_hex SimBus.romA)])
       (stdout st1))
  /\ stderr st1 = stderr st /\ stdout st1 = stdout st.
Proof.
  intros st st1. apply (read_temperature_crc_mismatch _ _ Scripted.scratchpad_bad).
  - vm_compute. reflexivity.
  - vm_compute. discriminate.
Defined.

Lemma read_all_continues_witness :
  let st := Scripted.start Scripted.batch_port in
  let st2 := snd (read_temperature "/dev/ttyUSB0" SimBus.romA st) in
  read_all "/dev/ttyUSB0" 0 ([] ++ SimBus.romA :: [SimBus.romB]) st
  = read_all "/dev/ttyUSB0" (S (0 + length (@nil (list Z)))) [SimBus.romB] st2
  /\ stdout st2 = stdout st
  /\ exists earlier msg,
       stderr st2 = stderr st ++ earlier ++ [msg]
       /\ (msg = "Reset failed - no presence pulse"%string
           \/ msg = "Second reset failed"%string
           \/ msg = String.append "CRC validation failed for sensor "
                      (rom_to_hex SimBus.romA)).
Proof.
  intros st st2. apply read_all_continues.
  - reflexivity.
  - vm_compute. reflexivity.
Defined.

(** The batch of the witness above, run to its end: the first sensor
    leaves its CRC failure on stderr, the second its reading, under
    index 1, on stdout. *)
Example read_all_batch :
  let st' := snd (read_all "/dev/ttyUSB0" 0 [SimBus.romA; SimBus.romB]
                    (Scripted.start Scripted.batch_port)) in
  stderr st' = ["CRC validation failed for sensor 280000000000001e"%string]
  /\ (report_idx <$> stdout st') = [1%nat]
  /\ Forall (fun r => Qeq (report_temp_c r) 85) (stdout st').
Proof.
  vm_compute. repeat split. repeat constructor.
Qed.

(** * Further properties of the code *)

(** ** CRC-8: the table, totality, error detection *)

(** Every entry of the table is the bit-serial CRC of its index. *)
Lemma CRC8_TABLE_bitwise : CRC8_TABLE = (fun i => Nat.iter 8 crc8_shift i) <$> range 256.
Proof. vm_compute. reflexivity. Qed.

Lemma CRC8_TABLE_lookup (i : Z) :
  0 <= i < 256 -> py_index CRC8_TABLE i = Some (Nat.iter 8 crc8_shift i).
Proof.
  intros Hi. rewrite py_index_in_range by (rewrite CRC8_TABLE_length; lia).
  rewrite CRC8_TABLE_bitwise. rewrite list_lookup_fmap.
  unfold range. rewrite list_lookup_fmap.
  assert (Hlt : (Z.to_nat i < 256)%nat) by lia.
  rewrite (lookup_seq_lt 0 256 (Z.to_nat i) Hlt). cbn [fmap option_fmap option_map Nat.add].
  rewrite Z2Nat.id by lia. reflexivity.
Qed.

(** X1. The table-driven [crc8] computes the Dallas/Maxim CRC-8: on
    every byte sequence it returns what the bit-serial computation with
    the polynomial 0x31 (reflected 0x8C) returns. *)
Theorem crc8_is_dallas_crc (data : list Z) (Hdata : Forall is_byte data) :
  crc8 data = Some (crc8_bitwise data).
Proof.
  unfold crc8, crc8_bitwise.
  assert (Hgen : forall crc, is_byte crc ->
            crc8_from crc data = Some (foldl crc8_bitwise_byte crc data)).
  { induction Hdata as [| byte data Hbyte _ IH]; intros crc Hcrc; simpl; [reflexivity |].
    pose proof (lxor_byte _ _ Hcrc Hbyte) as Hx.
    rewrite CRC8_TABLE_lookup by exact Hx.
    apply IH. eapply CRC8_TABLE_entry_byte. apply CRC8_TABLE_lookup. exact Hx. }
  apply Hgen. unfold is_byte. lia.
Qed.

Lemma crc8_is_dallas_crc_witness :
  crc8 [0x28; 0x01; 0; 0; 0; 0; 0; 0x29] = Some (crc8_bitwise [0x28; 0x01; 0; 0; 0; 0; 0; 0x29]).
Proof. apply crc8_is_dallas_crc. repeat constructor; unfold is_byte; lia. Defined.

(** X2. On bytes [crc8] never raises [IndexError] and returns a byte;
    on the empty sequence it returns 0. *)
Theorem crc8_total_on_bytes (data : list Z) (Hdata : Forall is_byte data) :
  (exists c, crc8 data = Some c /\ is_byte c) /\ crc8 [] = Some 0.
Proof. split; [apply crc8_bytes; exact Hdata | reflexivity]. Qed.

Lemma crc8_total_on_bytes_witness :
  (exists c, crc8 [0x50; 0x05; 0x4B] = Some c /\ is_byte c) /\ crc8 [] = Some 0.
Proof. apply crc8_total_on_bytes. repeat constructor; unfold is_byte; lia. Defined.

Lemma CRC8_TABLE_NoDup : NoDup CRC8_TABLE.
Proof. apply (bool_decide_unpack _). vm_compute. reflexivity. Qed.

Lemma CRC8_TABLE_injective (i j c : Z) :
  0 <= i < 256 -> 0 <= j < 256 ->
  py_index CRC8_TABLE i = Some c -> py_index CRC8_TABLE j = Some c -> i = j.
Proof.
  intros Hi Hj Hci Hcj.
  rewrite py_index_in_range in Hci, Hcj by (rewrite CRC8_TABLE_length; lia).
  pose proof (NoDup_lookup _ _ _ _ CRC8_TABLE_NoDup Hci Hcj). lia.
Qed.

Lemma lxor_cancel_l (a b c : Z) : Z.lxor a b = Z.lxor a c -> b = c.
Proof.
  intros Heq.
  rewrite <- (Z.lxor_0_l b), <- (Z.lxor_0_l c), <- (Z.lxor_nilpotent a).
  rewrite !Z.lxor_assoc, Heq. reflexivity.
Qed.

Lemma lxor_cancel_r (a b c : Z) : Z.lxor b a = Z.lxor c a -> b = c.
Proof. rewrite !(Z.lxor_comm _ a). apply lxor_cancel_l. Qed.

(** Two different running values stay different over the same bytes. *)
Lemma crc8_from_injective (data : list Z) :
  Forall is_byte data ->
  forall c c', is_byte c -> is_byte c' -> c <> c' ->
               crc8_from c data <> crc8_from c' data.
Proof.
  induction 1 as [| byte data Hbyte _ IH]; intros c c' Hc Hc' Hne; simpl.
  - congruence.
  - pose proof (lxor_byte _ _ Hc Hbyte) as Hx. pose proof (lxor_byte _ _ Hc' Hbyte) as Hx'.
    destruct (py_index_is_Some CRC8_TABLE (Z.lxor c byte)) as [d Hd];
      [rewrite CRC8_TABLE_length; exact Hx |].
    destruct (py_index_is_Some CRC8_TABLE (Z.lxor c' byte)) as [d' Hd'];
      [rewrite CRC8_TABLE_length; exact Hx' |].
    rewrite Hd, Hd'. apply IH; try (eapply CRC8_TABLE_entry_byte; eassumption).
    intros ->. apply Hne. eapply lxor_cancel_r.
    eapply CRC8_TABLE_injective; eassumption.
Qed.

(** X3. [crc8] detects every corruption of a single byte: two byte
    sequences that differ in exactly one position have different CRCs,
    so a sequence with CRC zero fails the check once one byte changes. *)
Theorem crc8_detects_single_byte (pre post : list Z) (b b' : Z)
    (Hpre : Forall is_byte pre) (Hpost : Forall is_byte post)
    (Hb : is_byte b) (Hb' : is_byte b') (Hne : b <> b') :
  crc8 (pre ++ b :: post) <> crc8 (pre ++ b' :: post)
  /\ (crc8 (pre ++ b :: post) = Some 0 -> crc8 (pre ++ b' :: post) <> Some 0).
Proof.
  assert (Hdiff : crc8 (pre ++ b :: post) <> crc8 (pre ++ b' :: post)).
  { unfold crc8. rewrite !crc8_from_app.
    destruct (crc8_from_bytes pre Hpre 0 ltac:(unfold is_byte; lia)) as (c & Hc & Hcb).
    rewrite Hc. simpl.
    pose proof (lxor_byte _ _ Hcb Hb) as Hx. pose proof (lxor_byte _ _ Hcb Hb') as Hx'.
    destruct (py_index_is_Some CRC8_TABLE (Z.lxor c b)) as [d Hd];
      [rewrite CRC8_TABLE_length; exact Hx |].
    destruct (py_index_is_Some CRC8_TABLE (Z.lxor c b')) as [d' Hd'];
      [rewrite CRC8_TABLE_length; exact Hx' |].
    rewrite Hd, Hd'. apply crc8_from_injective; try assumption;
      try (eapply CRC8_TABLE_entry_byte; eassumption).
    intros ->. apply Hne. eapply lxor_cancel_l.
    eapply CRC8_TABLE_injective; eassumption. }
  split; [exact Hdiff | congruence].
Qed.

Lemma crc8_detects_single_byte_witness :
  crc8 ([0x50; 0x05; 0x4B; 0x46; 0x7F; 0xFF; 0x0C; 0x10] ++ 0x1C :: [])
  <> crc8 ([0x50; 0x05; 0x4B; 0x46; 0x7F; 0xFF; 0x0C; 0x10] ++ 0x1D :: [])
  /\ (crc8 ([0x50; 0x05; 0x4B; 0x46; 0x7F; 0xFF; 0x0C; 0x10] ++ 0x1C :: []) = Some 0 ->
      crc8 ([0x50; 0x05; 0x4B; 0x46; 0x7F; 0xFF; 0x0C; 0x10] ++ 0x1D :: []) <> Some 0).
Proof.
  apply crc8_detects_single_byte;
    try (repeat constructor; unfold is_byte; lia); try (unfold is_byte; lia).
Defined.

(** ** Search-ROM: the buffer bit by bit *)

Lemma land_shiftr_testbit (x m : Z) :
  0 <= m -> Z.land (Z.shiftr x m) 1 = Z.b2z (Z.testbit x m).
Proof.
  intros Hm. rewrite Z.testbit_spec' by exact Hm.
  rewrite Z.shiftr_div_pow2 by exact Hm.
  change 1 with (Z.ones 1). rewrite Z.land_ones by lia. reflexivity.
Qed.

Lemma rom_bit_at_lookup (r : list Z) (p b : Z) :
  0 <= p < 64 -> length r = 8%nat -> r !! Z.to_nat (p / 8) = Some b ->
  rom_bit_at r p = Z.b2z (Z.testbit b (p mod 8)).
Proof.
  intros Hp Hlen Hb. unfold rom_bit_at.
  rewrite py_index_in_range, Hb.
  - apply land_shiftr_testbit. apply Z.mod_pos_bound. lia.
  - rewrite Hlen. split; [apply Z.div_pos; lia | apply Z.div_lt_upper_bound; lia].
Qed.

Lemma rom_byte_lookup (r : list Z) (p : Z) :
  0 <= p < 64 -> length r = 8%nat -> exists b, r !! Z.to_nat (p / 8) = Some b.
Proof.
  intros Hp Hlen. apply lookup_lt_is_Some_2. rewrite Hlen.
  assert (0 <= p / 8 < 8) by (split; [apply Z.div_pos; lia | apply Z.div_lt_upper_bound; lia]).
  lia.
Qed.

Section BufferBits.
Context {W : Type} {H : Host W}.
Variable device_path : string.

(** Storing a nonzero direction sets the bit of the position and no
    other. *)
Lemma store_bit_sets (bit_pos d : Z) (r r' : list Z) (st st' : State W) :
  0 <= bit_pos < 64 -> is_rom r -> d <> 0 ->
  store_bit bit_pos d r st = (Ok r', st') ->
  forall p, 0 <= p < 64 ->
            rom_bit_at r' p = if p =? bit_pos then 1 else rom_bit_at r p.
Proof.
  intros Hpos [Hlen Hbytes] Hd Hrun p Hp.
  unfold store_bit in Hrun.
  destruct (Z.eqb_spec d 0) as [| _]; [contradiction |].
  assert (Hidx : 0 <= bit_pos / 8 < 8)
    by (split; [apply Z.div_pos; lia | apply Z.div_lt_upper_bound; lia]).
  assert (Hpidx : 0 <= p / 8 < 8)
    by (split; [apply Z.div_pos; lia | apply Z.div_lt_upper_bound; lia]).
  destruct (rom_byte_lookup r bit_pos Hpos Hlen) as [b Hb].
  unfold bind, lift_index in Hrun.
  rewrite py_index_in_range, Hb in Hrun by (rewrite Hlen; lia).
  unfold ret in Hrun. unfold py_setitem in Hrun.
  destruct (Z.leb_spec 0 (bit_pos / 8)); [| lia].
  destruct (Z.ltb_spec (bit_pos / 8) (Z.of_nat (length r))); [| rewrite Hlen in *; lia].
  simplify_eq.
  assert (Hlen' : length (<[Z.to_nat (bit_pos / 8) := Z.lor b (Z.shiftl 1 (bit_pos mod 8))]> r)
                  = 8%nat) by (rewrite length_insert; exact Hlen).
  pose proof (Z.mod_pos_bound bit_pos 8 ltac:(lia)) as Hk.
  pose proof (Z.mod_pos_bound p 8 ltac:(lia)) as Hm.
  destruct (Z.eq_dec (p / 8) (bit_pos / 8)) as [Hsame | Hother].
  - rewrite (rom_bit_at_lookup _ p (Z.lor b (Z.shiftl 1 (bit_pos mod 8))) Hp Hlen').
    2:{ rewrite Hsame. apply list_lookup_insert_eq. rewrite Hlen. lia. }
    rewrite Z.lor_spec, Z.shiftl_1_l, Z.pow2_bits_eqb by lia.
    destruct (Z.eqb_spec p bit_pos) as [-> | Hne].
    + rewrite Z.eqb_refl, orb_true_r. reflexivity.
    + destruct (Z.eqb_spec (bit_pos mod 8) (p mod 8)) as [Hmod | _].
      { exfalso. apply Hne.
        rewrite (Z.div_mod p 8), (Z.div_mod bit_pos 8) by lia. rewrite Hsame, Hmod. reflexivity. }
      rewrite orb_false_r. symmetry. apply rom_bit_at_lookup; try assumption.
      rewrite Hsame. exact Hb.
  - destruct (Z.eqb_spec p bit_pos) as [-> | _]; [contradiction |].
    destruct (rom_byte_lookup r p Hp Hlen) as [c Hc].
    rewrite (rom_bit_at_lookup _ p c Hp Hlen').
    + symmetry. apply rom_bit_at_lookup; assumption.
    + rewrite list_lookup_insert_ne by lia. exact Hc.
Qed.

Lemma bits_inv_start (last : Z) : bits_inv last 0 (mkPass (replicate 8 0) 0 []).
Proof.
  unfold bits_inv. simpl.
  split; [split; [reflexivity | repeat constructor; unfold is_byte; lia] |].
  split; [reflexivity |]. split; [constructor |]. split; [constructor |].
  intros p Hp.
  destruct (rom_byte_lookup (replicate 8 0) p ltac:(lia) eq_refl) as [b Hb].
  rewrite (rom_bit_at_lookup _ p b) by (try lia; try reflexivity; exact Hb).
  apply list_elem_of_lookup_2, elem_of_replicate in Hb. destruct Hb as [-> _].
  rewrite Z.bits_0. reflexivity.
Qed.

(** One slot more: the invariant after the position [a] is done with
    the bits [bit], [comp] and a direction [d] that obeys the rule. *)
Lemma bits_inv_step (last : Z) (a : nat) (ps : pass_state) (bit comp d disc : Z)
    (rom' : list Z) (st st' : State W) :
  (a < 64)%nat ->
  bits_inv last a ps ->
  slot_ok last (mkSlot (Z.of_nat a) bit comp d) ->
  store_bit (Z.of_nat a) d (rom ps) st = (Ok rom', st') ->
  bits_inv last (S a)
    (mkPass rom' disc (history ps ++ [mkSlot (Z.of_nat a) bit comp d])).
Proof.
  intros Ha (Hrom & Hpos & Hok & Hdirs & Hzero) Hslot Hstore.
  assert (Hd : d = 0 \/ d = 1).
  { destruct Hslot as (Hb & _ & _ & Hdir). simpl in Hdir, Hb.
    destruct ((bit =? 0) && (comp =? 0)); [destruct (_ =? last); lia | lia]. }
  assert (Hbits : forall p, 0 <= p < 64 ->
            rom_bit_at rom' p = if p =? Z.of_nat a then d else rom_bit_at (rom ps) p).
  { intros p Hp. destruct Hd as [-> | ->].
    - unfold store_bit in Hstore. simpl in Hstore. unfold ret in Hstore. simplify_eq.
      destruct (Z.eqb_spec p (Z.of_nat a)) as [-> | _]; [apply Hzero; lia | reflexivity].
    - eapply store_bit_sets; [| exact Hrom | | exact Hstore |]; lia. }
  pose proof (store_bit_inv (Z.of_nat a) d _ _ _ _ ltac:(lia) Hstore Hrom) as [_ Hrom'].
  assert (Hin : forall s, s ∈ history ps -> 0 <= slot_pos s < Z.of_nat a).
  { intros s Hs.
    assert (Hmem : slot_pos s ∈ slot_pos <$> history ps) by (apply list_elem_of_fmap; eauto).
    rewrite Hpos in Hmem. apply list_elem_of_fmap in Hmem.
    destruct Hmem as (k & -> & Hk). apply elem_of_seq in Hk. lia. }
  unfold bits_inv. cbn [rom history]. split; [exact Hrom' |]. split.
  { rewrite fmap_app, Hpos, seq_S, fmap_app. reflexivity. }
  split; [apply Forall_app; split; [exact Hok | constructor; [exact Hslot | constructor]] |].
  split.
  - apply Forall_app. split.
    + apply Forall_forall. intros s Hs. pose proof (Hin s Hs) as Hrange.
      rewrite Hbits by lia.
      destruct (Z.eqb_spec (slot_pos s) (Z.of_nat a)); [lia |].
      exact (proj1 (Forall_forall _ _) Hdirs s Hs).
    + constructor; [| constructor]. simpl. rewrite Hbits by lia.
      rewrite Z.eqb_refl. reflexivity.
  - intros p Hp. rewrite Hbits by lia.
    destruct (Z.eqb_spec p (Z.of_nat a)); [lia |]. apply Hzero. lia.
Qed.

Lemma search_bits_bits (n : nat) :
  forall (a : nat) (last : Z) (ps ps' : pass_state) (st st' : State W),
    (a + n <= 64)%nat ->
    search_bits (Z.of_nat <$> seq a n) last ps st = (Ok (ps', false), st') ->
    bits_inv last a ps -> bits_inv last (a + n) ps'.
Proof.
  induction n as [| n IH]; intros a last ps ps' st st' Hle Hrun Hinv.
  - simpl in Hrun. unfold ret in Hrun. simplify_eq.
    rewrite Nat.add_0_r. exact Hinv.
  - simpl in Hrun. unfold bind in Hrun.
    destruct (touch_bit 1 st) as [[bit | e |] st1] eqn:Hbit; try discriminate.
    destruct (touch_bit 1 st1) as [[comp | e |] st2] eqn:Hcomp; try discriminate.
    pose proof (touch_bit_01 _ _ _ _ Hbit) as Hbit01.
    pose proof (touch_bit_01 _ _ _ _ Hcomp) as Hcomp01.
    destruct ((bit =? 1) && (comp =? 1)) eqn:Hboth.
    { unfold ret in Hrun. simplify_eq. }
    assert (Hnot11 : ~ (bit = 1 /\ comp = 1)).
    { intros [-> ->]. discriminate. }
    replace (a + S n)%nat with (S a + n)%nat by lia.
    destruct ((bit =? 0) && (comp =? 0)) eqn:Hdisc.
    + destruct (resolve last (Z.of_nat a) ps st2) as [[[d disc] | e |] st3] eqn:Hres;
        try discriminate.
      simpl in Hrun.
      destruct (touch_bit d st3) as [[echo | e |] st4] eqn:Hdir; try discriminate.
      destruct (store_bit (Z.of_nat a) d (rom ps) st4) as [[rom' | e |] st5] eqn:Hstore;
        try discriminate.
      eapply IH; [| exact Hrun |]; [lia |].
      eapply bits_inv_step; [lia | exact Hinv | | exact Hstore].
      repeat split; simpl; try assumption. rewrite Hdisc.
      (* the direction [resolve] chose *)
      destruct Hinv as (Hrom & _ & _ & _ & Hzero).
      unfold resolve in Hres.
      destruct (Z.eqb_spec (Z.of_nat a) last) as [_ | _].
      { unfold ret in Hres. simplify_eq. reflexivity. }
      destruct (Z.of_nat a >? last).
      { unfold ret in Hres. simplify_eq. reflexivity. }
      pose proof (Hzero (Z.of_nat a) ltac:(lia)) as Hbit0. unfold rom_bit_at in Hbit0.
      unfold bind, lift_index in Hres.
      destruct (py_index (rom ps) (Z.of_nat a / 8)) as [b |];
        unfold ret, raise in Hres; simplify_eq.
      exact Hbit0.
    + unfold ret in Hrun. simpl in Hrun.
      destruct (touch_bit bit st2) as [[echo | e |] st4] eqn:Hdir; try discriminate.
      destruct (store_bit (Z.of_nat a) bit (rom ps) st4) as [[rom' | e |] st5] eqn:Hstore;
        try discriminate.
      eapply IH; [| exact Hrun |]; [lia |].
      eapply bits_inv_step; [lia | exact Hinv | | exact Hstore].
      repeat split; simpl; try assumption. rewrite Hdisc. reflexivity.
Qed.

Lemma search_pass_bits (last : Z) (ps : pass_state) (st st' : State W) :
  search_pass device_path last st = (Ok (Some (ps, false)), st') -> bits_inv last 64 ps.
Proof.
  unfold search_pass. intros Hrun. unfold bind in Hrun.
  destruct (reset device_path st) as [[ok | e |] st1]; try discriminate.
  destruct (negb ok); [unfold ret in Hrun; discriminate |].
  destruct (switch_to_data_mode device_path st1) as [[[] | e |] st2]; try discriminate.
  destruct (write_byte 240 st2) as [[[] | e |] st3]; try discriminate.
  destruct (search_bits (range 64) last _ st3) as [[[ps0 b0] | e |] st4] eqn:Hbits;
    try discriminate.
  unfold ret in Hrun. simplify_eq.
  exact (search_bits_bits 64 0 last _ _ _ _ ltac:(lia) Hbits (bits_inv_start last)).
Qed.

(** X4. A completed pass went through the 64 positions in order, and
    the ROM buffer it ends with holds, bit for bit, the directions it
    wrote on the bus. *)
Theorem search_pass_rom_is_directions (last : Z) (ps : pass_state) (st st' : State W)
    (Hrun : search_pass device_path last st = (Ok (Some (ps, false)), st')) :
  slot_pos <$> history ps = range 64
  /\ Forall (fun s => rom_bit_at (rom ps) (slot_pos s) = slot_dir s) (history ps).
Proof.
  pose proof (search_pass_bits last ps st st' Hrun) as (_ & Hpos & _ & Hdirs & _).
  split; assumption.
Qed.

(** X5. In a completed pass the direction written at a discrepancy
    (both bits read 0) is 1 at the position of the previous cursor and
    0 at every other position: below the cursor the bit replayed comes
    from the buffer that the pass started empty, so it is never the 1
    that an earlier pass chose there. *)
Theorem search_pass_never_replays_one (last : Z) (ps : pass_state) (st st' : State W)
    (Hrun : search_pass device_path last st = (Ok (Some (ps, false)), st')) :
  Forall (fun s => slot_bit s = 0 -> slot_comp s = 0 ->
                   slot_dir s = if slot_pos s =? last then 1 else 0) (history ps).
Proof.
  pose proof (search_pass_bits last ps st st' Hrun) as (_ & _ & Hok & _).
  eapply Forall_impl; [exact Hok |]. simpl.
  intros s (_ & _ & _ & Hdir) Hb Hc. rewrite Hb, Hc in Hdir. exact Hdir.
Qed.

End BufferBits.

Lemma search_pass_rom_is_directions_witness :
  let run := search_pass "/dev/ttyUSB0" 9 SimBus.between in
  slot_pos <$> history (pass_of run) = range 64
  /\ Forall (fun s => rom_bit_at (rom (pass_of run)) (slot_pos s) = slot_dir s)
       (history (pass_of run)).
Proof.
  intros run.
  apply (search_pass_rom_is_directions "/dev/ttyUSB0" 9 _ SimBus.between (snd run)).
  vm_compute. reflexivity.
Defined.

Lemma search_pass_never_replays_one_witness :
  let run := search_pass "/dev/ttyUSB0" 9 SimBus.between in
  Forall (fun s => slot_bit s = 0 -> slot_comp s = 0 ->
                   slot_dir s = if slot_pos s =? 9 then 1 else 0) (history (pass_of run)).
Proof.
  intros run.
  apply (search_pass_never_replays_one "/dev/ttyUSB0" 9 _ SimBus.between (snd run)).
  vm_compute. reflexivity.
Defined.

(** ** Search-ROM: replays below the previous cursor *)

Lemma snoc_split {A : Type} (h : list A) (x : A) (h1 : list A) (s : A) (h2 : list A) :
  h ++ [x] = h1 ++ s :: h2 ->
  (h2 = [] /\ h1 = h /\ s = x) \/ (exists h2', h2 = h2' ++ [x] /\ h = h1 ++ s :: h2').
Proof.
  intros Heq. induction h2 as [| y h2 _] using rev_ind.
  - apply app_inj_tail in Heq. destruct Heq as [-> ->]. left. auto.
  - right. exists h2.
    replace (h1 ++ s :: h2 ++ [y]) with ((h1 ++ s :: h2) ++ [y]) in Heq
      by (rewrite <- app_assoc; reflexivity).
    apply app_inj_tail in Heq. destruct Heq as [-> ->]. split; reflexivity.
Qed.

Lemma buffer_after_snoc (h : list slot) (s : slot) :
  buffer_after (h ++ [s]) = store_slot (buffer_after h) s.
Proof. unfold buffer_after. rewrite fold_left_app. reflexivity. Qed.

Lemma pending_elem (h : list slot) (s : slot) :
  s ∈ h -> slot_bit s = 0 -> slot_comp s = 0 -> slot_dir s = 0 -> slot_pos s ∈ pending h.
Proof.
  intros Hs Hb Hc Hd. unfold pending. apply list_elem_of_fmap. exists s.
  split; [reflexivity |]. apply list_elem_of_In, filter_In.
  split; [apply list_elem_of_In, Hs |]. rewrite Hb, Hc, Hd. reflexivity.
Qed.

Section Replay.
Context {W : Type} {H : Host W}.
Variable device_path : string.

(** Below the previous cursor [resolve] returns the bit of the buffer. *)
Lemma resolve_replay (last bit_pos d disc : Z) (ps : pass_state) (st st' : State W) :
  resolve last bit_pos ps st = (Ok (d, disc), st') -> bit_pos < last ->
  exists b,
    py_index (rom ps) (bit_pos / 8) = Some b
    /\ d = Z.land (Z.shiftr b (bit_pos mod 8)) 1.
Proof.
  unfold resolve. intros Hrun Hlt.
  destruct (Z.eqb_spec bit_pos last); [lia |].
  destruct (bit_pos >? last) eqn:Hgt; [lia |].
  destruct (py_index (rom ps) (bit_pos / 8)) as [b |];
    unfold_monad; simpl in Hrun; simplify_eq.
  exists b. split; reflexivity.
Qed.

Lemma store_bit_slot (bit_pos bit comp d : Z) (r r' : list Z) (st st' : State W) :
  store_bit bit_pos d r st = (Ok r', st') ->
  r' = store_slot r (mkSlot bit_pos bit comp d).
Proof.
  unfold store_bit, store_slot. cbn [slot_dir slot_pos]. intros Hrun.
  destruct (d =? 0); [unfold ret in Hrun; simplify_eq; reflexivity |].
  destruct (py_index r (bit_pos / 8)) as [b |];
    unfold_monad; simpl in Hrun; [| discriminate].
  destruct (py_setitem r (bit_pos / 8) _) as [r0 |];
    unfold ret, raise in Hrun; simplify_eq.
  reflexivity.
Qed.

Lemma replay_inv_step (last : Z) (ps : pass_state) (s : slot) (rom' : list Z) (disc : Z) :
  replay_inv last ps ->
  rom' = store_slot (rom ps) s ->
  (slot_bit s = 0 -> slot_comp s = 0 -> slot_pos s < last ->
   exists b,
     py_index (rom ps) (slot_pos s / 8) = Some b
     /\ slot_dir s = Z.land (Z.shiftr b (slot_pos s mod 8)) 1) ->
  replay_inv last (mkPass rom' disc (history ps ++ [s])).
Proof.
  intros [Hbuf Hrep] -> Hnew. split; cbn [rom history].
  - rewrite buffer_after_snoc, Hbuf. reflexivity.
  - intros h1 s0 h2 Hsplit Hb Hc Hlt.
    apply snoc_split in Hsplit.
    destruct Hsplit as [(-> & -> & ->) | (h2' & -> & Hh)].
    + rewrite <- Hbuf. apply Hnew; assumption.
    + eapply Hrep; eassumption.
Qed.

Lemma search_bits_replay (positions : list Z) :
  forall (last : Z) (ps ps' : pass_state) (b : bool) (st st' : State W),
    search_bits positions last ps st = (Ok (ps', b), st') ->
    replay_inv last ps -> replay_inv last ps'.
Proof.
  induction positions as [| p positions IH]; intros last ps ps' b st st' Hrun Hinv.
  - simpl in Hrun. unfold ret in Hrun. simplify_eq. exact Hinv.
  - simpl in Hrun. unfold bind in Hrun.
    destruct (touch_bit 1 st) as [[bit | e |] st1]; try discriminate.
    destruct (touch_bit 1 st1) as [[comp | e |] st2]; try discriminate.
    destruct ((bit =? 1) && (comp =? 1)).
    { unfold ret in Hrun. simplify_eq. exact Hinv. }
    destruct ((bit =? 0) && (comp =? 0)) eqn:Hdisc.
    + destruct (resolve last p ps st2) as [[[d disc] | e |] st3] eqn:Hres;
        try discriminate.
      simpl in Hrun.
      destruct (touch_bit d st3) as [[echo | e |] st4]; try discriminate.
      destruct (store_bit p d (rom ps) st4) as [[rom' | e |] st5] eqn:Hstore;
        try discriminate.
      eapply IH; [exact Hrun |].
      apply replay_inv_step; [exact Hinv | eapply store_bit_slot; exact Hstore |].
      cbn [slot_bit slot_comp slot_pos slot_dir]. intros _ _ Hlt.
      eapply resolve_replay; eassumption.
    + unfold ret in Hrun. simpl in Hrun.
      destruct (touch_bit bit st2) as [[echo | e |] st4]; try discriminate.
      destruct (store_bit p bit (rom ps) st4) as [[rom' | e |] st5] eqn:Hstore;
        try discriminate.
      eapply IH; [exact Hrun |].
      apply replay_inv_step; [exact Hinv | eapply store_bit_slot; exact Hstore |].
      cbn [slot_bit slot_comp slot_pos slot_dir]. intros Hb Hc _.
      rewrite Hb, Hc in Hdisc. discriminate.
Qed.

Lemma replay_inv_start (last : Z) : replay_inv last (mkPass (replicate 8 0) 0 []).
Proof.
  split; [reflexivity |]. intros h1 s h2 Hsplit. cbn [history] in Hsplit.
  destruct h1; discriminate.
Qed.

Lemma search_pass_replay (last : Z) (ps : pass_state) (b : bool) (st st' : State W) :
  search_pass device_path last st = (Ok (Some (ps, b)), st') -> replay_inv last ps.
Proof.
  unfold search_pass. intros Hrun. unfold bind in Hrun.
  destruct (reset device_path st) as [[ok | e |] st1]; try discriminate.
  destruct (negb ok); [unfold ret in Hrun; discriminate |].
  destruct (switch_to_data_mode device_path st1) as [[[] | e |] st2]; try discriminate.
  destruct (write_byte 240 st2) as [[[] | e |] st3]; try discriminate.
  destruct (search_bits (range 64) last _ st3) as [[[ps0 b0] | e |] st4] eqn:Hbits;
    try discriminate.
  unfold ret in Hrun. simplify_eq.
  exact (search_bits_replay _ _ _ _ _ _ _ Hbits (replay_inv_start last)).
Qed.

(** C4. A completed pass goes through the 64 positions in order and
    ends with the buffer its directions build.  At every position below
    the previous cursor at which a discrepancy (0,0) was read, the
    direction written is the bit that the in-progress ROM buffer held
    at that position at that moment, and a replayed 0 makes the position
    a pending one.  At the end of the pass the cursor is the largest
    pending position of the pass (a discrepancy at which branch 0 was
    taken), so that a later one overrides an earlier one. *)
Theorem search_pass_cursor (last : Z) (st st' : State W) (ps : pass_state)
    (Hrun : search_pass device_path last st = (Ok (Some (ps, false)), st')) :
  slot_pos <$> history ps = range 64
  /\ rom ps = buffer_after (history ps)
  /\ (forall (h1 : list slot) (s : slot) (h2 : list slot),
        history ps = h1 ++ s :: h2 ->
        slot_bit s = 0 -> slot_comp s = 0 -> slot_pos s < last ->
        exists b,
          py_index (buffer_after h1) (slot_pos s / 8) = Some b
          /\ slot_dir s = Z.land (Z.shiftr b (slot_pos s mod 8)) 1
          /\ (slot_dir s = 0 -> slot_pos s ∈ pending (history ps)))
  /\ discrepancy ps = highest (pending (history ps))
  /\ (forall p, p ∈ pending (history ps) -> p <= discrepancy ps).
Proof.
  pose proof (search_pass_bits device_path last ps st st' Hrun) as (_ & Hpos & _).
  pose proof (search_pass_replay last ps false st st' Hrun) as [Hbuf Hrep].
  pose proof (search_pass_inv device_path last ps false st st' Hrun) as (_ & Hcur & _).
  split; [exact Hpos |]. split; [exact Hbuf |]. split; [| split; [exact Hcur |]].
  - intros h1 s h2 Hsplit Hb Hc Hlt.
    destruct (Hrep h1 s h2 Hsplit Hb Hc Hlt) as (byte & Hbyte & Hdir).
    exists byte. split; [exact Hbyte |]. split; [exact Hdir |].
    intros Hzero. apply pending_elem; try assumption.
    rewrite Hsplit. apply elem_of_app. right. apply elem_of_cons. left. reflexivity.
  - intros p Hp. rewrite Hcur. apply highest_ge, Hp.
Qed.

End Replay.

Lemma search_pass_cursor_witness :
  let run := search_pass "/dev/ttyUSB0" 12
               (SimBus.start [SimBus.romA; [0x28; 0x02; 0; 0; 0; 0; 0; 0]; SimBus.romB]) in
  let ps := pass_of run in
  slot_pos <$> history ps = range 64
  /\ rom ps = buffer_after (history ps)
  /\ (forall (h1 : list slot) (s : slot) (h2 : list slot),
        history ps = h1 ++ s :: h2 ->
        slot_bit s = 0 -> slot_comp s = 0 -> slot_pos s < 12 ->
        exists b,
          py_index (buffer_after h1) (slot_pos s / 8) = Some b
          /\ slot_dir s = Z.land (Z.shiftr b (slot_pos s mod 8)) 1
          /\ (slot_dir s = 0 -> slot_pos s ∈ pending (history ps)))
  /\ discrepancy ps = highest (pending (history ps))
  /\ (forall p, p ∈ pending (history ps) -> p <= discrepancy ps).
Proof.
  intros run ps.
  apply (search_pass_cursor "/dev/ttyUSB0" 12
           (SimBus.start [SimBus.romA; [0x28; 0x02; 0; 0; 0; 0; 0; 0]; SimBus.romB])
           (snd run)).
  vm_compute. reflexivity.
Defined.

(** The pass above, from the cursor 12 on a bus of three devices that
    differ at the positions 8 and 9: both are below the cursor, at both
    the bit replayed is the 0 of the buffer, and the cursor ends at 9,
    the later of the two. *)
Example replay_below_cursor :
  let run := search_pass "/dev/ttyUSB0" 12
               (SimBus.start [SimBus.romA; [0x28; 0x02; 0; 0; 0; 0; 0; 0]; SimBus.romB]) in
  let ps := pass_of run in
  pending (history ps) = [8; 9]
  /\ discrepancy ps = 9
  /\ rom ps = SimBus.romA
  /\ history ps !! 8%nat = Some (mkSlot 8 0 0 0)
  /\ history ps !! 9%nat = Some (mkSlot 9 0 0 0).
Proof. vm_compute. repeat split; reflexivity. Qed.

(** ** [reset]: what it leaves behind, and the port that does not open *)

Section ResetEdges.
Context {W : Type} {H : Host W}.
Variable device_path : string.

(** X6. When [reset] returns, it has written nothing to stdout.  When
    it returns [True], it has written nothing to stderr either and
    [self.port] is set, so that the transfers that follow have a port to
    work on.  When it returns [False], stderr is as it was (no presence
    pulse: the caller reports it) or holds the one line of the open that
    failed. *)
Theorem reset_quiet (st st' : State W) (b : bool)
    (Hrun : reset device_path st = (Ok b, st')) :
  stdout st' = stdout st
  /\ (b = true -> stderr st' = stderr st /\ port st' = true)
  /\ (b = false ->
      stderr st' = stderr st
      \/ exists e, stderr st' = stderr st ++
                     [String.append "Error opening "
                        (String.append device_path (String.append ": " e))]).
Proof.
  unfold reset in Hrun. unfold_monad.
  destruct (port st) eqn:Hport; simpl in Hrun;
    destruct (serial_open device_path 9600 _) as [[| e] w]; simpl in Hrun;
    try destruct (serial_read _) as [[presence |] w']; simpl in Hrun;
    simplify_eq; simpl;
    (split; [reflexivity |]); (split; [try discriminate; intros _; split; reflexivity |]);
    intros _; try (left; reflexivity); right; eexists; reflexivity.
Qed.

(** X7. When the port does not open at 9600 baud, [reset] returns
    [False] after one line on stderr, "Error opening <path>: <error>",
    and nothing is written to or read from the port. *)
Theorem reset_open_failure (st : State W) (e : string) (w : W)
    (Hopen : serial_open device_path 9600 (world (snd (close_if_open st)))
             = (SerialException e, w)) :
  reset device_path st
  = (Ok false,
     mkState w (port st)
       (stderr st ++
          [String.append "Error opening "
             (String.append device_path (String.append ": " e))])
       (stdout st)).
Proof.
  unfold reset. unfold_monad.
  destruct (port st) eqn:Hport; simpl in *; rewrite Hopen; simpl; rewrite ?Hport; reflexivity.
Qed.

End ResetEdges.

Lemma reset_open_failure_witness :
  let st := Scripted.start (Scripted.mkPort [] [Some "No such file or directory"%string] []) in
  reset "/dev/ttyUSB0" st
  = (Ok false,
     mkState (Scripted.mkPort [] [] []) (port st)
       (stderr st ++
          [String.append "Error opening "
             (String.append "/dev/ttyUSB0"
                (String.append ": " "No such file or directory"))])
       (stdout st)).
Proof. intros st. apply reset_open_failure. reflexivity. Defined.

Lemma reset_quiet_witness :
  let st := Scripted.start (Scripted.mkPort [Some 224] [] []) in
  let st' := snd (reset "/dev/ttyUSB0" st) in
  stdout st' = stdout st
  /\ (true = true -> stderr st' = stderr st /\ port st' = true)
  /\ (true = false ->
      stderr st' = stderr st
      \/ exists e, stderr st' = stderr st ++
                     [String.append "Error opening "
                        (String.append "/dev/ttyUSB0" (String.append ": " e))]).
Proof. intros st st'. apply (reset_quiet "/dev/ttyUSB0" st st' true). reflexivity. Defined.

(** ** The adapter's own errors: no call on a missing port, no index
    out of range *)

Section Safety.
Context {W : Type} {H : Host W}.
Variable device_path : string.

Lemma touch_bit_open (bit : Z) (st : State W) :
  port st = true ->
  exists r st', touch_bit bit st = (Ok r, st') /\ port st' = true.
Proof.
  intros Hport. unfold touch_bit. unfold_monad. rewrite Hport. simpl.
  destruct (serial_read _) as [[rx |] w]; simpl; do 2 eexists; split; reflexivity.
Qed.

Lemma touch_byte_loop_open (idxs : list Z) :
  forall byte_val acc (st : State W),
    port st = true ->
    exists r st', touch_byte_loop idxs byte_val acc st = (Ok r, st') /\ port st' = true.
Proof.
  induction idxs as [| i idxs IH]; intros byte_val acc st Hport; simpl.
  - do 2 eexists. split; [reflexivity | exact Hport].
  - unfold bind.
    destruct (touch_bit_open (Z.land (Z.shiftr byte_val i) 1) st Hport)
      as (r & st1 & -> & Hport1).
    apply IH. exact Hport1.
Qed.

Lemma write_byte_open (byte_val : Z) (st : State W) :
  port st = true ->
  exists st', write_byte byte_val st = (Ok tt, st') /\ port st' = true.
Proof.
  intros Hport. unfold write_byte, touch_byte, bind.
  destruct (touch_byte_loop_open (range 8) byte_val 0 st Hport) as (r & st1 & -> & Hport1).
  eexists. split; [reflexivity | exact Hport1].
Qed.

Lemma write_bytes_open (data : list Z) :
  forall st : State W,
    port st = true ->
    exists st', write_bytes data st = (Ok tt, st') /\ port st' = true.
Proof.
  induction data as [| byte data IH]; intros st Hport; simpl.
  - eexists. split; [reflexivity | exact Hport].
  - unfold bind. destruct (write_byte_open byte st Hport) as (st1 & -> & Hport1).
    apply IH. exact Hport1.
Qed.

Lemma read_bytes_open (n : nat) :
  forall scratchpad (st : State W),
    port st = true ->
    exists r st', read_bytes n scratchpad st = (Ok r, st') /\ port st' = true.
Proof.
  induction n as [| n IH]; intros scratchpad st Hport; simpl.
  - do 2 eexists. split; [reflexivity | exact Hport].
  - unfold bind, read_byte, touch_byte.
    destruct (touch_byte_loop_open (range 8) 255 0 st Hport) as (r & st1 & -> & Hport1).
    apply IH. exact Hport1.
Qed.

(** [reset] returns a boolean, and [True] only with the port set. *)
Lemma reset_result (st : State W) :
  exists b st', reset device_path st = (Ok b, st') /\ (b = true -> port st' = true).
Proof.
  unfold reset. unfold_monad.
  destruct (port st); simpl;
    destruct (serial_open device_path 9600 _) as [[| e] w]; simpl;
    try (do 2 eexists; split; [reflexivity | discriminate]);
    destruct (serial_read _) as [[presence |] w']; simpl;
    do 2 eexists; (split; [reflexivity |]); try discriminate; reflexivity.
Qed.

(** [switch_to_data_mode] sets the port or raises the error of the
    failed open. *)
Lemma switch_result (st : State W) :
  (exists st', switch_to_data_mode device_path st = (Ok tt, st') /\ port st' = true)
  \/ (exists msg st', switch_to_data_mode device_path st = (Raise (SerialError msg), st')).
Proof.
  unfold switch_to_data_mode. unfold_monad.
  destruct (port st); simpl;
    destruct (serial_open device_path 115200 _) as [[| e] w]; simpl;
    try (left; eexists; split; reflexivity);
    right; do 2 eexists; reflexivity.
Qed.

Lemma resolve_total (last bit_pos : Z) (ps : pass_state) (st : State W) :
  0 <= bit_pos < 64 -> is_rom (rom ps) ->
  exists choice, resolve last bit_pos ps st = (Ok choice, st).
Proof.
  intros Hpos [Hlen _]. unfold resolve.
  destruct (bit_pos =? last); [eexists; reflexivity |].
  destruct (bit_pos >? last); [eexists; reflexivity |].
  destruct (py_index_is_Some (rom ps) (bit_pos / 8)) as [b Hb].
  { rewrite Hlen. split; [apply Z.div_pos; lia | apply Z.div_lt_upper_bound; lia]. }
  unfold_monad. rewrite Hb. eexists; reflexivity.
Qed.

(** On an open port the bit loop runs to its end or to its [break]. *)
Lemma search_bits_total (n : nat) :
  forall (a : nat) (last : Z) (ps : pass_state) (st : State W),
    (a + n <= 64)%nat -> is_rom (rom ps) -> port st = true ->
    exists r st',
      search_bits (Z.of_nat <$> seq a n) last ps st = (Ok r, st') /\ port st' = true.
Proof.
  induction n as [| n IH]; intros a last ps st Hle Hrom Hport; simpl.
  - do 2 eexists. split; [reflexivity | exact Hport].
  - unfold bind.
    destruct (touch_bit_open 1 st Hport) as (bit & st1 & -> & Hport1).
    destruct (touch_bit_open 1 st1 Hport1) as (comp & st2 & -> & Hport2).
    destruct ((bit =? 1) && (comp =? 1)).
    { do 2 eexists. split; [reflexivity | exact Hport2]. }
    assert (Hchoice : exists choice,
              (if (bit =? 0) && (comp =? 0)
               then resolve last (Z.of_nat a) ps
               else ret (bit, discrepancy ps)) st2 = (Ok choice, st2)).
    { destruct ((bit =? 0) && (comp =? 0)); [| eexists; reflexivity].
      apply resolve_total; [lia | exact Hrom]. }
    destruct Hchoice as (choice & ->).
    destruct (touch_bit_open (fst choice) st2 Hport2) as (echo & st3 & -> & Hport3).
    destruct (store_bit_total (Z.of_nat a) (fst choice) (rom ps) st3 ltac:(lia) Hrom)
      as (rom' & Hstore).
    rewrite Hstore.
    apply IH; [lia | | exact Hport3]. simpl.
    assert (Hpos : 0 <= Z.of_nat a < 64) by lia.
    exact (proj2 (store_bit_inv _ _ _ _ _ _ Hpos Hstore Hrom)).
Qed.

Lemma search_pass_result (last : Z) (st : State W) :
  (exists r st', search_pass device_path last st = (Ok r, st'))
  \/ (exists msg st', search_pass device_path last st = (Raise (SerialError msg), st')).
Proof.
  unfold search_pass, bind.
  destruct (reset_result st) as (ok & st1 & -> & Hport1).
  destruct ok; cbn [negb]; cbv beta iota; [| left; do 2 eexists; reflexivity].
  destruct (switch_result st1) as [(st2 & -> & Hport2) | (msg & st2 & ->)];
    [| right; do 2 eexists; reflexivity].
  destruct (write_byte_open 240 st2 Hport2) as (st3 & -> & Hport3).
  destruct (search_bits_total 64 0 last (mkPass (replicate 8 0) 0 []) st3 ltac:(lia))
    as (r & st4 & Hbits & _); [| exact Hport3 |].
  { split; [reflexivity | repeat constructor; unfold is_byte; lia]. }
  change (Z.of_nat <$> seq 0 64) with (range 64) in Hbits. rewrite Hbits.
  left. do 2 eexists. reflexivity.
Qed.

(** The ways a run of the loop of [search_rom] can end. *)
Lemma search_loop_result (fuel : nat) :
  forall (st : State W) (last : Z) (devices : list (list Z)),
    match fst (search_loop device_path fuel devices last st) with
    | Ok _ | OutOfFuel | Raise (SerialError _) => True
    | Raise _ => False
    end.
Proof.
  induction fuel as [| fuel IH]; intros st last devices; simpl; [exact I |].
  unfold bind.
  destruct (search_pass_result last st) as [(r & st1 & Hpass) | (msg & st1 & Hpass)];
    rewrite Hpass; [| exact I].
  destruct r as [[ps []] |]; simpl; try exact I.
  pose proof (search_pass_inv device_path last ps false st st1 Hpass) as ([_ Hbytes] & _).
  destruct (crc8_bytes (rom ps) Hbytes) as (c & Hc & _).
  unfold lift_index. rewrite Hc. unfold ret.
  destruct (discrepancy ps =? 0); simpl; [exact I | apply IH].
Qed.

(** X8. Whatever the port answers, and for every number of passes,
    [search_rom] never fails on its own account: it calls no method of
    [self.port] while it is [None] (no [AttributeError]), and it never
    indexes [rom] or [CRC8_TABLE] out of range (no [IndexError]). *)
Theorem search_rom_no_own_error (fuel : nat) (st : State W) :
  fst (search_rom device_path fuel st) <> Raise AttributeError
  /\ fst (search_rom device_path fuel st) <> Raise IndexError.
Proof.
  pose proof (search_loop_result fuel st 0 []) as Hend. unfold search_rom.
  destruct (fst (search_loop device_path fuel [] 0 st)) as [devs | [msg | |] |];
    try contradiction; split; discriminate.
Qed.

Lemma fetch_scratchpad_result (rom : list Z) (st : State W) :
  (exists r st', fetch_scratchpad device_path rom st = (Ok r, st'))
  \/ (exists msg st', fetch_scratchpad device_path rom st = (Raise (SerialError msg), st')).
Proof.
  unfold fetch_scratchpad, bind.
  destruct (reset_result st) as (ok & st1 & -> & Hport1).
  destruct ok; cbn [negb]; cbv beta iota; [| left; do 2 eexists; reflexivity].
  destruct (switch_result st1) as [(st2 & -> & Hport2) | (msg & st2 & ->)];
    [| right; do 2 eexists; reflexivity].
  destruct (write_byte_open 85 st2 Hport2) as (st3 & -> & Hport3).
  destruct (write_bytes_open rom st3 Hport3) as (st4 & -> & Hport4).
  destruct (write_byte_open 68 st4 Hport4) as (st5 & -> & Hport5).
  unfold sleep. cbv beta iota.
  destruct (reset_result (with_world st5 (time_sleep 0.75 (world st5))))
    as (ok & st6 & -> & Hport6).
  destruct ok; cbn [negb]; cbv beta iota; [| left; do 2 eexists; reflexivity].
  destruct (switch_result st6) as [(st7 & -> & Hport7) | (msg & st7 & ->)];
    [| right; do 2 eexists; reflexivity].
  destruct (write_byte_open 85 st7 Hport7) as (st8 & -> & Hport8).
  destruct (write_bytes_open rom st8 Hport8) as (st9 & -> & Hport9).
  destruct (write_byte_open 190 st9 Hport9) as (st10 & -> & Hport10).
  destruct (read_bytes_open 9 [] st10 Hport10) as (sp & st11 & Hread & _).
  rewrite Hread. left. do 2 eexists. reflexivity.
Qed.

Lemma read_temperature_result (rom : list Z) (st : State W) :
  (exists r st', read_temperature device_path rom st = (Ok r, st'))
  \/ (exists msg st', read_temperature device_path rom st = (Raise (SerialError msg), st')).
Proof.
  unfold read_temperature, bind.
  destruct (fetch_scratchpad_result rom st) as [(r & st1 & Hfetch) | (msg & st1 & Hfetch)];
    rewrite Hfetch; [| right; do 2 eexists; reflexivity].
  destruct r as [sp |]; [| left; do 2 eexists; reflexivity].
  pose proof (fetch_scratchpad_cases device_path rom st st1 _ Hfetch) as (_ & Hlen & Hbytes & _).
  destruct (crc8_bytes sp Hbytes) as (c & Hc & _).
  unfold lift_index. rewrite Hc. unfold ret.
  destruct (negb (c =? 0)); [left; do 2 eexists; reflexivity |].
  destruct sp as [| b0 [| b1 rest]]; try (simpl in Hlen; lia).
  left. do 2 eexists. reflexivity.
Qed.

(** The ways a run of the batch loop can end. *)
Lemma read_all_result (sensors : list (list Z)) :
  forall (idx : nat) (st : State W),
    match fst (read_all device_path idx sensors st) with
    | Ok _ | Raise (SerialError _) => True
    | _ => False
    end.
Proof.
  induction sensors as [| rom sensors IH]; intros idx st; simpl; [exact I |].
  unfold bind.
  destruct (read_temperature_result rom st) as [(r & st1 & Hread) | (msg & st1 & Hread)];
    rewrite Hread; [| exact I].
  destruct r as [t |]; simpl; apply IH.
Qed.

(** X9. Whatever the port answers and whatever integers the ROM codes
    hold, however many, the batch loop never fails on its own account:
    [read_temperature] calls no method of [self.port] while it is [None]
    (no [AttributeError]), and the scratchpad it reads always has the
    nine bytes that [crc8] and the decoding index (no [IndexError]). *)
Theorem read_all_no_own_error (sensors : list (list Z)) (idx : nat) (st : State W) :
  fst (read_all device_path idx sensors st) <> Raise AttributeError
  /\ fst (read_all device_path idx sensors st) <> Raise IndexError.
Proof.
  pose proof (read_all_result sensors idx st) as Hend.
  destruct (fst (read_all device_path idx sensors st)) as [[] | [msg | |] |];
    try contradiction; split; discriminate.
Qed.

End Safety.

(** ** Readings and the batch report *)

Section Readings.
Context {W : Type} {H : Host W}.
Variable device_path : string.

(** A read that returns, with or without a value, leaves stdout alone. *)
Lemma read_temperature_stdout (rom : list Z) (st st1 : State W) (r : option Q) :
  read_temperature device_path rom st = (Ok r, st1) -> stdout st1 = stdout st.
Proof.
  destruct r as [t |]; intros Hrun; [| exact (proj1 (read_temperature_failure _ _ _ _ Hrun))].
  unfold read_temperature, bind in Hrun.
  destruct (fetch_scratchpad device_path rom st) as [[[sp |] | e |] s0] eqn:Hfetch;
    try discriminate; try (unfold ret in Hrun; discriminate).
  apply fetch_scratchpad_cases in Hfetch. destruct Hfetch as (Hout & _).
  unfold lift_index in Hrun.
  destruct (crc8 sp) as [c |]; [| discriminate]. unfold ret in Hrun.
  destruct (negb (c =? 0)); [unfold eprint in Hrun; discriminate |].
  destruct (decode_temperature sp); simplify_eq. exact Hout.
Qed.

(** X10. A temperature returned by [read_temperature] comes from a
    scratchpad of nine bytes with CRC zero, is printed about on neither
    stream, and is a whole number of sixteenths of a degree between
    -2048 and 2047.9375. *)
Theorem read_temperature_value (rom : list Z) (st st' : State W) (t : Q)
    (Hrun : read_temperature device_path rom st = (Ok (Some t), st')) :
  stderr st' = stderr st /\ stdout st' = stdout st
  /\ (exists scratchpad,
        fetch_scratchpad device_path rom st = (Ok (Some scratchpad), st')
        /\ length scratchpad = 9%nat /\ crc8 scratchpad = Some 0)
  /\ exists k, -32768 <= k <= 32767 /\ Qeq t (k # 16).
Proof.
  unfold read_temperature, bind in Hrun.
  destruct (fetch_scratchpad device_path rom st) as [[[sp |] | e |] s0] eqn:Hfetch;
    try discriminate; try (unfold ret in Hrun; discriminate).
  pose proof (fetch_scratchpad_cases device_path rom st s0 _ Hfetch)
    as (Hout & Hlen & Hbytes & Herr).
  unfold lift_index in Hrun.
  destruct (crc8 sp) as [c |] eqn:Hcrc; [| discriminate]. unfold ret in Hrun.
  destruct (Z.eqb_spec c 0) as [-> | _]; simpl in Hrun; [| unfold eprint in Hrun; discriminate].
  destruct sp as [| b0 [| b1 rest]]; try (simpl in Hlen; lia).
  simpl in Hrun. simplify_eq.
  pose proof (Forall_inv Hbytes) as Hb0.
  pose proof (Forall_inv (Forall_inv_tail Hbytes)) as Hb1.
  repeat split; try assumption.
  - exists (b0 :: b1 :: rest). repeat split; assumption.
  - rewrite lor_shift8 by exact Hb0.
    unfold is_byte in Hb0, Hb1.
    rewrite signed16_spec by lia.
    exists (if b0 + 256 * b1 <? 32768 then b0 + 256 * b1 else b0 + 256 * b1 - 65536).
    split.
    + destruct (Z.ltb_spec (b0 + 256 * b1) 32768); lia.
    + unfold Qeq. simpl. lia.
Qed.

(** X11. A batch that ends normally has added to stdout at most one
    line per sensor, each under the index of a sensor of the list, in
    increasing order of index. *)
Theorem read_all_report (sensors : list (list Z)) (idx : nat) (st st' : State W)
    (Hrun : read_all device_path idx sensors st = (Ok tt, st')) :
  exists lines,
    stdout st' = stdout st ++ lines
    /\ (length lines <= length sensors)%nat
    /\ Forall (fun r => (idx <= report_idx r < idx + length sensors)%nat) lines
    /\ StronglySorted lt (report_idx <$> lines).
Proof.
  revert idx st Hrun. induction sensors as [| rom sensors IH]; intros idx st Hrun.
  - simpl in Hrun. unfold ret in Hrun. simplify_eq.
    exists []. rewrite app_nil_r. repeat split; constructor.
  - simpl in Hrun. unfold bind in Hrun.
    destruct (read_temperature device_path rom st) as [[temp_c | e |] st1] eqn:Hread;
      try discriminate.
    apply read_temperature_stdout in Hread.
    destruct temp_c as [t |].
    + unfold print_report in Hrun. cbv beta iota in Hrun.
      apply IH in Hrun. destruct Hrun as (lines & Hout & Hlen & Hidx & Hsorted).
      simpl in Hout.
      exists (mkReport idx t :: lines). repeat split.
      * rewrite Hout, Hread, <- app_assoc. reflexivity.
      * simpl. lia.
      * constructor; [simpl; lia |].
        eapply Forall_impl; [exact Hidx |]. simpl. intros r Hr. lia.
      * simpl. constructor; [exact Hsorted |].
        apply Forall_fmap. eapply Forall_impl; [exact Hidx |]. simpl. intros r Hr. lia.
    + unfold ret in Hrun. cbv beta iota in Hrun.
      apply IH in Hrun. destruct Hrun as (lines & Hout & Hlen & Hidx & Hsorted).
      exists lines. repeat split.
      * rewrite Hout, Hread. reflexivity.
      * simpl. lia.
      * eapply Forall_impl; [exact Hidx |]. simpl. intros r Hr. lia.
      * exact Hsorted.
Qed.

End Readings.

Lemma read_temperature_value_witness :
  let st := Scripted.start (Scripted.temperature_port Scripted.scratchpad_neg) in
  let run := read_temperature "/dev/ttyUSB0" SimBus.romA st in
  stderr (snd run) = stderr st /\ stdout (snd run) = stdout st
  /\ (exists scratchpad,
        fetch_scratchpad "/dev/ttyUSB0" SimBus.romA st = (Ok (Some scratchpad), snd run)
        /\ length scratchpad = 9%nat /\ crc8 scratchpad = Some 0)
  /\ exists k, -32768 <= k <= 32767 /\ Qeq (-10.1250) (k # 16).
Proof.
  intros st run.
  apply (read_temperature_value "/dev/ttyUSB0" SimBus.romA st (snd run) (-10.1250)).
  vm_compute. reflexivity.
Defined.

Lemma read_all_report_witness :
  let st := Scripted.start Scripted.batch_port in
  let st' := snd (read_all "/dev/ttyUSB0" 0 [SimBus.romA; SimBus.romB] st) in
  exists lines,
    stdout st' = stdout st ++ lines
    /\ (length lines <= length [SimBus.romA; SimBus.romB])%nat
    /\ Forall (fun r => (0 <= report_idx r < 0 + length [SimBus.romA; SimBus.romB])%nat) lines
    /\ StronglySorted lt (report_idx <$> lines).
Proof.
  intros st st'. apply (read_all_report "/dev/ttyUSB0").
  vm_compute. reflexivity.
Defined.

(** ** [rom_to_hex] *)

Lemma range_elem (n : nat) (b : Z) : 0 <= b < Z.of_nat n -> b ∈ range n.
Proof.
  intros Hb. unfold range. apply list_elem_of_fmap.
  exists (Z.to_nat b). split; [lia |]. apply elem_of_seq. lia.
Qed.

(** A byte is written as two digits, the high nibble first. *)
Lemma format_02x_byte (b : Z) :
  is_byte b ->
  format_02x b = String (hex_digit (b / 16)) (String (hex_digit (b mod 16)) EmptyString).
Proof.
  intros Hb.
  assert (Hall : forallb (fun b => String.eqb (format_02x b)
                   (String (hex_digit (b / 16)) (String (hex_digit (b mod 16)) EmptyString)))
                   (range 256) = true) by (vm_compute; reflexivity).
  rewrite forallb_forall in Hall.
  apply String.eqb_eq, Hall, list_elem_of_In, range_elem. exact Hb.
Qed.

Lemma hex_digit_injective (d d' : Z) :
  0 <= d < 16 -> 0 <= d' < 16 -> hex_digit d = hex_digit d' -> d = d'.
Proof.
  intros Hd Hd' Heq.
  assert (Hall : forallb (fun d => forallb (fun d' =>
                   implb (Ascii.eqb (hex_digit d) (hex_digit d')) (d =? d'))
                   (range 16)) (range 16) = true) by (vm_compute; reflexivity).
  rewrite forallb_forall in Hall.
  specialize (Hall d (proj1 (list_elem_of_In _ _) (range_elem 16 d Hd))).
  rewrite forallb_forall in Hall.
  specialize (Hall d' (proj1 (list_elem_of_In _ _) (range_elem 16 d' Hd'))).
  rewrite Heq, Ascii.eqb_refl in Hall. simpl in Hall. lia.
Qed.

(** X12. On ROM codes made of bytes [rom_to_hex] writes two characters
    per byte and tells any two codes apart. *)
Theorem rom_to_hex_injective (rom rom' : list Z)
    (Hrom : Forall is_byte rom) (Hrom' : Forall is_byte rom') :
  String.length (rom_to_hex rom) = (2 * length rom)%nat
  /\ (rom_to_hex rom = rom_to_hex rom' -> rom = rom').
Proof.
  split.
  - clear rom' Hrom'. induction Hrom as [| b rom Hb _ IH]; [reflexivity |].
    simpl. rewrite format_02x_byte by exact Hb. simpl. rewrite IH. lia.
  - revert rom' Hrom'. induction Hrom as [| b rom Hb _ IH]; intros rom' Hrom' Heq.
    + destruct Hrom' as [| b' rom' Hb' _]; [reflexivity |].
      simpl in Heq. rewrite format_02x_byte in Heq by exact Hb'. discriminate.
    + destruct Hrom' as [| b' rom' Hb' Hrom']; simpl in Heq.
      * rewrite format_02x_byte in Heq by exact Hb. discriminate.
      * rewrite !format_02x_byte in Heq by assumption. simpl in Heq.
        injection Heq as Hhi Hlo Hrest.
        unfold is_byte in Hb, Hb'.
        apply hex_digit_injective in Hhi;
          [| split; [apply Z.div_pos; lia | apply Z.div_lt_upper_bound; lia] ..].
        apply hex_digit_injective in Hlo; [| apply Z.mod_pos_bound; lia ..].
        f_equal; [| apply IH; assumption].
        rewrite (Z.div_mod b 16), (Z.div_mod b' 16) by lia. rewrite Hhi, Hlo. reflexivity.
Qed.

Lemma rom_to_hex_injective_witness :
  String.length (rom_to_hex SimBus.romA) = (2 * length SimBus.romA)%nat
  /\ (rom_to_hex SimBus.romA = rom_to_hex SimBus.romB -> SimBus.romA = SimBus.romB).
Proof.
  apply rom_to_hex_injective; repeat constructor; unfold is_byte; lia.
Defined.

(** ** [touch_byte]: least significant bit first *)

Lemma slot_bit_low (v i : Z) :
  0 <= i < 8 -> Z.land (Z.shiftr (v mod 256) i) 1 = Z.land (Z.shiftr v i) 1.
Proof.
  intros Hi. rewrite !land_shiftr_testbit by lia.
  change 256 with (2 ^ 8). rewrite Z.mod_pow2_bits_low by lia. reflexivity.
Qed.

Section ByteTransfer.
Context {W : Type} {H : Host W}.

Lemma touch_byte_loop_low (idxs : list Z) :
  Forall (fun i => 0 <= i < 8) idxs ->
  forall v acc (st : State W),
    touch_byte_loop idxs (v mod 256) acc st = touch_byte_loop idxs v acc st.
Proof.
  induction 1 as [| i idxs Hi _ IH]; intros v acc st; simpl; [reflexivity |].
  rewrite slot_bit_low by exact Hi. unfold bind.
  destruct (touch_bit _ st) as [[read_bit | e |] st1]; try reflexivity.
  apply IH.
Qed.

(** X13. [touch_byte] (and so [write_byte]) uses only the low eight
    bits of its argument, whatever integer it is given, and the value
    it returns is a byte. *)
Theorem touch_byte_low_bits (v : Z) (st : State W) :
  touch_byte (v mod 256) st = touch_byte v st
  /\ write_byte (v mod 256) st = write_byte v st
  /\ match fst (touch_byte v st) with
     | Ok r => is_byte r
     | _ => True
     end.
Proof.
  assert (Hlow : touch_byte (v mod 256) st = touch_byte v st)
    by (apply touch_byte_loop_low, range_8_bounds).
  split; [exact Hlow |]. split.
  - unfold write_byte, bind. rewrite Hlow. reflexivity.
  - destruct (touch_byte v st) as [[r | e |] st'] eqn:Hrun; simpl; try exact I.
    eapply (touch_byte_loop_byte (range 8) range_8_bounds); [| exact Hrun].
    unfold is_byte. lia.
Qed.

End ByteTransfer.

Module ScriptedBytes.
Import Scripted.

Lemma touch_bit_scripted (bit : Z) (r : option Z) (rest : list (option Z))
    (fl : list (option string)) (out_bytes : list Z) (err : list string) (out : list report) :
  touch_bit bit (mkState (mkPort (r :: rest) fl out_bytes) true err out)
  = (Ok (observed r),
     mkState (mkPort rest fl (out_bytes ++ [if bit =? 0 then 0 else 255])) true err out).
Proof. destruct r as [rx |]; reflexivity. Qed.

Lemma touch_byte_loop_scripted (idxs : list Z) :
  forall (v acc : Z) (rs rest : list (option Z)) (fl : list (option string))
         (out_bytes : list Z) (err : list string) (out : list report),
    length rs = length idxs ->
    touch_byte_loop idxs v acc (mkState (mkPort (rs ++ rest) fl out_bytes) true err out)
    = (Ok (assemble idxs rs acc),
       mkState (mkPort rest fl
                  (out_bytes ++
                     ((fun i => if Z.land (Z.shiftr v i) 1 =? 0 then 0 else 255) <$> idxs)))
         true err out).
Proof.
  induction idxs as [| i idxs IH]; intros v acc rs rest fl out_bytes err out Hlen.
  - destruct rs; [| discriminate]. simpl. rewrite app_nil_r. reflexivity.
  - destruct rs as [| r rs]; [discriminate |]. simpl in Hlen.
    cbn [touch_byte_loop]. unfold bind. cbn [app]. rewrite touch_bit_scripted.
    rewrite IH by lia. unfold assemble. cbn [zip zip_with foldl fst snd fmap list_fmap].
    rewrite <- app_assoc. reflexivity.
Qed.

Lemma assemble_slots (b : Z) :
  is_byte b -> assemble (range 8) (slots_of_byte b) 0 = b.
Proof.
  intros Hb.
  assert (Hall : forallb (fun b => assemble (range 8) (slots_of_byte b) 0 =? b) (range 256)
                 = true) by (vm_compute; reflexivity).
  rewrite forallb_forall in Hall.
  apply Z.eqb_eq, Hall, list_elem_of_In, range_elem. exact Hb.
Qed.

(** X14. On the scripted port [touch_byte v] sends the bits of [v]
    least significant first, 0xFF for a 1 and 0x00 for a 0, and
    assembles the byte [b] that the eight responses spell in the same
    order; so [read_byte] reads back what [write_byte] sends. *)
Theorem touch_byte_lsb_first (v b : Z) (Hb : is_byte b) (rest : list (option Z))
    (fl : list (option string)) (out_bytes : list Z) (err : list string) (out : list report) :
  touch_byte v (mkState (mkPort (slots_of_byte b ++ rest) fl out_bytes) true err out)
  = (Ok b,
     mkState (mkPort rest fl
                (out_bytes ++ ((fun i => if Z.testbit v i then 255 else 0) <$> range 8)))
       true err out).
Proof.
  unfold touch_byte. rewrite touch_byte_loop_scripted by reflexivity.
  rewrite assemble_slots by exact Hb. do 4 f_equal.
  apply Forall_fmap_ext_1. eapply Forall_impl; [exact range_8_bounds |].
  simpl. intros i Hi. rewrite land_shiftr_testbit by lia.
  destruct (Z.testbit v i); reflexivity.
Qed.

Lemma touch_byte_lsb_first_witness :
  touch_byte 0x44
    (mkState (mkPort (slots_of_byte 0x50 ++ [Some 0]) [] [7]) true [] [])
  = (Ok 0x50,
     mkState (mkPort [Some 0] []
                ([7] ++ ((fun i => if Z.testbit 0x44 i then 255 else 0) <$> range 8)))
       true [] []).
Proof. apply touch_byte_lsb_first. unfold is_byte. lia. Defined.

End ScriptedBytes.

(** ** Search-ROM on the simulated bus: one and two devices *)

Lemma rom_bit_at_bus (r : list Z) (p : Z) :
  0 <= p < 64 -> is_rom r -> rom_bit_at r p = Z.b2z (SimBus.rom_bit p r).
Proof.
  intros Hp [Hlen _].
  destruct (rom_byte_lookup r p Hp Hlen) as [b Hb].
  rewrite (rom_bit_at_lookup r p b Hp Hlen Hb).
  unfold SimBus.rom_bit. rewrite nth_lookup, Hb. reflexivity.
Qed.

(** Two ROM buffers with the same 64 bits are the same list. *)
Lemma rom_bits_ext (x y : list Z) :
  is_rom x -> is_rom y ->
  (forall p, 0 <= p < 64 -> rom_bit_at x p = rom_bit_at y p) -> x = y.
Proof.
  intros [Hlx Hbx] [Hly Hby] Hbits.
  apply list_eq. intros i.
  destruct (Nat.lt_ge_cases i 8) as [Hi | Hi].
  2:{ rewrite !lookup_ge_None_2 by lia. reflexivity. }
  destruct (lookup_lt_is_Some_2 x i ltac:(lia)) as [bx Hx].
  destruct (lookup_lt_is_Some_2 y i ltac:(lia)) as [by_ Hy].
  rewrite Hx, Hy. f_equal.
  pose proof (proj1 (Forall_forall _ _) Hbx bx (list_elem_of_lookup_2 _ _ _ Hx)) as Hbxr.
  pose proof (proj1 (Forall_forall _ _) Hby by_ (list_elem_of_lookup_2 _ _ _ Hy)) as Hbyr.
  unfold is_byte in Hbxr, Hbyr.
  apply Z.bits_inj'. intros n Hn.
  destruct (Z.lt_ge_cases n 8) as [Hlow | Hhigh].
  - assert (Hp : 0 <= 8 * Z.of_nat i + n < 64) by lia.
    assert (Hdiv : (8 * Z.of_nat i + n) / 8 = Z.of_nat i).
    { rewrite Z.mul_comm, Z.div_add_l by lia. rewrite Z.div_small by lia. lia. }
    assert (Hmod : (8 * Z.of_nat i + n) mod 8 = n).
    { rewrite Z.add_comm, Z.mul_comm, Z.mod_add by lia. apply Z.mod_small. lia. }
    specialize (Hbits _ Hp).
    rewrite (rom_bit_at_lookup x _ bx Hp Hlx) in Hbits by (rewrite Hdiv, Nat2Z.id; exact Hx).
    rewrite (rom_bit_at_lookup y _ by_ Hp Hly) in Hbits by (rewrite Hdiv, Nat2Z.id; exact Hy).
    rewrite Hmod in Hbits.
    destruct (Z.testbit bx n), (Z.testbit by_ n); simpl in Hbits; congruence.
  - rewrite (testbit_above bx 8 n), (testbit_above by_ 8 n) by (simpl; lia). reflexivity.
Qed.

Module BusSearch.
Import SimBus.

(** The three slots of a position, on the bus. *)
Lemma read_slot (devs act : list (list Z)) (pos : Z) :
  touch_bit 1 (mkState (mkBus devs 115200 None (Search pos 0 act)) true [] [])
  = (Ok (if forallb (rom_bit pos) act then 1 else 0),
     mkState (mkBus devs 115200 None (Search pos 1 act)) true [] []).
Proof.
  unfold touch_bit. unfold_monad. simpl.
  destruct (forallb (rom_bit pos) act); reflexivity.
Qed.

Lemma complement_slot (devs act : list (list Z)) (pos : Z) :
  touch_bit 1 (mkState (mkBus devs 115200 None (Search pos 1 act)) true [] [])
  = (Ok (if forallb (fun r => negb (rom_bit pos r)) act then 1 else 0),
     mkState (mkBus devs 115200 None (Search pos 2 act)) true [] []).
Proof.
  unfold touch_bit. unfold_monad. simpl.
  destruct (forallb (fun r => negb (rom_bit pos r)) act); reflexivity.
Qed.

Lemma direction_slot (devs act : list (list Z)) (pos : Z) (d : bool) :
  touch_bit (Z.b2z d) (mkState (mkBus devs 115200 None (Search pos 2 act)) true [] [])
  = (Ok (Z.b2z d),
     mkState
       (mkBus devs 115200 None
          (if pos + 1 =? 64 then Idle
           else Search (pos + 1) 0 (filter (fun r => rom_bit pos r = d) act)))
       true [] []).
Proof. destruct d; reflexivity. Qed.

Lemma searching_at (devs act : list (list Z)) (a : nat) :
  (a < 64)%nat ->
  searching devs act a
  = mkState (mkBus devs 115200 None (Search (Z.of_nat a) 0 act)) true [] [].
Proof.
  intros Ha. unfold searching.
  destruct (Nat.eqb_spec a 64); [lia | reflexivity].
Qed.

Lemma searching_next (devs act : list (list Z)) (a : nat) :
  (a < 64)%nat ->
  mkState
    (mkBus devs 115200 None
       (if Z.of_nat a + 1 =? 64 then Idle else Search (Z.of_nat a + 1) 0 act))
    true [] []
  = searching devs act (S a).
Proof.
  intros Ha. unfold searching.
  destruct (Z.eqb_spec (Z.of_nat a + 1) 64), (Nat.eqb_spec (S a) 64); try lia; [reflexivity |].
  replace (Z.of_nat (S a)) with (Z.of_nat a + 1) by lia. reflexivity.
Qed.

Lemma forallb_agree {A : Type} (f : A -> bool) (v : bool) (l : list A) :
  l <> [] -> Forall (fun x => f x = v) l ->
  forallb f l = v /\ forallb (fun x => negb (f x)) l = negb v.
Proof.
  intros Hne Hall. destruct v.
  - split.
    + apply forallb_forall. intros x Hx.
      exact (proj1 (Forall_forall _ _) Hall x (proj2 (list_elem_of_In _ _) Hx)).
    + destruct Hall as [| x l Hx _]; [contradiction |]. simpl. rewrite Hx. reflexivity.
  - split.
    + destruct Hall as [| x l Hx _]; [contradiction |]. simpl. rewrite Hx. reflexivity.
    + apply forallb_forall. intros x Hx.
      rewrite (proj1 (Forall_forall _ _) Hall x (proj2 (list_elem_of_In _ _) Hx)). reflexivity.
Qed.

Lemma filter_agree (pos : Z) (v : bool) (act : list (list Z)) :
  Forall (fun x => rom_bit pos x = v) act ->
  filter (fun x => rom_bit pos x = v) act = act.
Proof.
  induction 1 as [| x act Hx _ IH]; [reflexivity |].
  rewrite filter_cons, decide_True by exact Hx. rewrite IH. reflexivity.
Qed.

(** A stretch of positions on which the devices still answering all
    carry the bits of [r]: the pass reads no discrepancy, keeps its
    cursor and every device, and stores the bits of [r]. *)
Lemma agree_segment (devs act : list (list Z)) (r : list Z) (last : Z) (n : nat) :
  forall (a : nat) (ps : pass_state),
    (a + n <= 64)%nat ->
    act <> [] ->
    Forall (fun x => forall p, Z.of_nat a <= p < Z.of_nat (a + n) ->
                               rom_bit p x = rom_bit p r) act ->
    is_rom (rom ps) ->
    (forall p, Z.of_nat a <= p < 64 -> rom_bit_at (rom ps) p = 0) ->
    exists ps',
      search_bits (Z.of_nat <$> seq a n) last ps (searching devs act a)
      = (Ok (ps', false), searching devs act (a + n))
      /\ discrepancy ps' = discrepancy ps
      /\ is_rom (rom ps')
      /\ (forall p, 0 <= p < 64 ->
            rom_bit_at (rom ps') p
            = if (Z.of_nat a <=? p) && (p <? Z.of_nat (a + n))
              then Z.b2z (rom_bit p r) else rom_bit_at (rom ps) p).
Proof.
  induction n as [| n IH]; intros a ps Hle Hact Hagree Hrom Hzero.
  - exists ps. rewrite Nat.add_0_r. repeat split; try assumption; try apply Hrom.
    intros p Hp.
    destruct (Z.leb_spec (Z.of_nat a) p), (Z.ltb_spec p (Z.of_nat a)); simpl; try reflexivity; lia.
  - assert (Ha : (a < 64)%nat) by lia.
    assert (Hhere : Forall (fun x => rom_bit (Z.of_nat a) x = rom_bit (Z.of_nat a) r) act).
    { eapply Forall_impl; [exact Hagree |]. simpl. intros x Hx. apply Hx. lia. }
    destruct (forallb_agree _ _ act Hact Hhere) as [Hread Hcomp].
    assert (Hrest : Forall (fun x => forall p, Z.of_nat (S a) <= p < Z.of_nat (S a + n) ->
                                               rom_bit p x = rom_bit p r) act).
    { eapply Forall_impl; [exact Hagree |]. simpl. intros x Hx p Hp. apply Hx. lia. }
    change (Z.of_nat <$> seq a (S n)) with (Z.of_nat a :: (Z.of_nat <$> seq (S a) n)).
    cbn [search_bits]. unfold bind.
    rewrite searching_at by exact Ha.
    rewrite read_slot, Hread. cbv beta iota.
    rewrite complement_slot, Hcomp. cbv beta iota.
    assert (Hpos : 0 <= Z.of_nat a < 64) by lia.
    destruct (store_bit_total (Z.of_nat a) (Z.b2z (rom_bit (Z.of_nat a) r)) (rom ps)
                (searching devs act (S a)) Hpos Hrom) as (rom' & Hstore).
    pose proof (store_bit_inv _ _ _ _ _ _ Hpos Hstore Hrom) as [_ Hrom'].
    assert (Hbits : forall p, 0 <= p < 64 ->
              rom_bit_at rom' p
              = if p =? Z.of_nat a then Z.b2z (rom_bit (Z.of_nat a) r)
                else rom_bit_at (rom ps) p).
    { intros p Hp. destruct (rom_bit (Z.of_nat a) r).
      - eapply store_bit_sets; [| exact Hrom | | exact Hstore |]; simpl; lia.
      - unfold store_bit in Hstore. simpl in Hstore. unfold ret in Hstore. simplify_eq.
        destruct (Z.eqb_spec p (Z.of_nat a)) as [-> | _]; [apply Hzero; lia | reflexivity]. }
    destruct (IH (S a)
                (mkPass rom' (discrepancy ps)
                   (history ps ++
                      [mkSlot (Z.of_nat a)
                         (Z.b2z (rom_bit (Z.of_nat a) r))
                         (Z.b2z (negb (rom_bit (Z.of_nat a) r)))
                         (Z.b2z (rom_bit (Z.of_nat a) r))]))
                ltac:(lia) Hact Hrest Hrom')
      as (ps' & Hrun & Hdisc & Hrom'' & Hbits').
    { intros p Hp. cbn [rom]. rewrite Hbits by lia.
      destruct (Z.eqb_spec p (Z.of_nat a)); [lia | apply Hzero; lia]. }
    exists ps'. replace (a + S n)%nat with (S a + n)%nat by lia.
    split; [| split; [exact Hdisc | split; [exact Hrom'' |]]].
    + rewrite <- Hrun.
      destruct (rom_bit (Z.of_nat a) r); cbn [negb Z.b2z Z.eqb andb Pos.eqb fst snd];
        unfold ret; cbv beta iota; cbn [fst snd].
      * pose proof (direction_slot devs act (Z.of_nat a) true) as Hdir.
        cbn [Z.b2z] in Hdir, Hstore. rewrite Hdir.
        rewrite filter_agree by exact Hhere. rewrite searching_next by exact Ha.
        rewrite Hstore. reflexivity.
      * pose proof (direction_slot devs act (Z.of_nat a) false) as Hdir.
        cbn [Z.b2z] in Hdir, Hstore. rewrite Hdir.
        rewrite filter_agree by exact Hhere. rewrite searching_next by exact Ha.
        rewrite Hstore. reflexivity.
    + intros p Hp. rewrite Hbits' by exact Hp. cbn [rom]. rewrite Hbits by exact Hp.
      destruct (Z.eqb_spec p (Z.of_nat a)) as [-> | Hne].
      * destruct (Z.leb_spec (Z.of_nat (S a)) (Z.of_nat a)); [lia |].
        destruct (Z.leb_spec (Z.of_nat a) (Z.of_nat a)); [| lia].
        destruct (Z.ltb_spec (Z.of_nat a) (Z.of_nat (S a + n))); [| lia].
        reflexivity.
      * destruct (Z.leb_spec (Z.of_nat (S a)) p), (Z.leb_spec (Z.of_nat a) p),
          (Z.ltb_spec p (Z.of_nat (S a + n))); simpl; try reflexivity; lia.
Qed.

(** On a bus with a device, from a fresh adapter or between two
    passes, a pass comes down to its bit loop with every device
    answering. *)
Lemma pass_prefix (path : string) (last : Z) (devs : list (list Z)) (st : State bus) :
  devs <> [] ->
  st = start devs \/ (exists act, st = searching devs act 64) ->
  search_pass path last st
  = match search_bits (range 64) last (mkPass (replicate 8 0) 0 []) (searching devs devs 0) with
    | (Ok r, st') => (Ok (Some r), st')
    | (Raise e, st') => (Raise e, st')
    | (OutOfFuel, st') => (OutOfFuel, st')
    end.
Proof.
  intros Hne Hst. destruct devs as [| d ds]; [contradiction |].
  destruct Hst as [-> | (act & ->)]; reflexivity.
Qed.

Lemma fresh_buffer_zero (p : Z) : 0 <= p < 64 -> rom_bit_at (replicate 8 0) p = 0.
Proof.
  intros Hp.
  destruct (rom_byte_lookup (replicate 8 0) p Hp eq_refl) as [b Hb].
  rewrite (rom_bit_at_lookup (replicate 8 0) p b Hp eq_refl Hb).
  apply list_elem_of_lookup_2, elem_of_replicate in Hb. destruct Hb as [-> _].
  rewrite Z.bits_0. reflexivity.
Qed.

Lemma fresh_buffer_rom : is_rom (replicate 8 0).
Proof. split; [reflexivity | repeat constructor; unfold is_byte; lia]. Qed.

(** X15. On a bus with a single device, whatever its ROM code (eight
    bytes with a valid CRC), [search_rom] returns after one pass with
    exactly that code. *)
Theorem search_rom_finds_lone_device (path : string) (r : list Z) (fuel : nat)
    (Hrom : is_rom r) (Hcrc : crc_ok r) :
  fst (search_rom path (S fuel) (start [r])) = Ok [r].
Proof.
  destruct (agree_segment [r] [r] r 0 64 0 (mkPass (replicate 8 0) 0 []))
    as (ps & Hrun & Hdisc & Hrom' & Hbits).
  { lia. } { discriminate. } { repeat constructor. } { exact fresh_buffer_rom. }
  { intros p Hp. apply fresh_buffer_zero. lia. }
  assert (Hps : rom ps = r).
  { apply rom_bits_ext; try assumption. intros p Hp.
    rewrite Hbits by exact Hp.
    destruct (Z.leb_spec (Z.of_nat 0) p), (Z.ltb_spec p (Z.of_nat (0 + 64))); try lia.
    simpl. symmetry. apply rom_bit_at_bus; assumption. }
  unfold search_rom.
  rewrite (search_loop_last path fuel [] 0 (start [r]) (searching [r] [r] (0 + 64)) ps).
  - rewrite Hps. reflexivity.
  - rewrite (pass_prefix path 0 [r]); [| discriminate | left; reflexivity].
    change (range 64) with (Z.of_nat <$> seq 0 64). rewrite Hrun. reflexivity.
  - rewrite Hps. exact Hcrc.
  - exact Hdisc.
Qed.

Lemma search_rom_finds_lone_device_witness :
  fst (search_rom "/dev/ttyUSB0" 1 (start [romC])) = Ok [romC].
Proof.
  apply search_rom_finds_lone_device.
  - split; [reflexivity | repeat constructor; unfold is_byte; lia].
  - reflexivity.
Defined.

(** The bit loop over two lists of positions, one after the other. *)
Lemma search_bits_app {W : Type} {H : Host W} (l1 l2 : list Z) (last : Z) :
  forall (ps : pass_state) (st : State W),
    search_bits (l1 ++ l2) last ps st
    = match search_bits l1 last ps st with
      | (Ok (ps1, false), st1) => search_bits l2 last ps1 st1
      | other => other
      end.
Proof.
  induction l1 as [| pos l1 IH]; intros ps st; [reflexivity |].
  cbn [app search_bits]. unfold bind.
  destruct (touch_bit 1 st) as [[bit | e |] st1]; try reflexivity.
  destruct (touch_bit 1 st1) as [[comp | e |] st2]; try reflexivity.
  destruct ((bit =? 1) && (comp =? 1)); [reflexivity |].
  destruct ((if (bit =? 0) && (comp =? 0) then resolve last pos ps
             else ret (bit, discrepancy ps)) st2) as [[choice | e |] st3]; try reflexivity.
  destruct (touch_bit (fst choice) st3) as [[echo | e |] st4]; try reflexivity.
  destruct (store_bit pos (fst choice) (rom ps) st4) as [[rom' | e |] st5]; try reflexivity.
  apply IH.
Qed.

(** Two devices that differ at position [k]: the pass reads a
    discrepancy there, takes branch 1 when [k] is the previous cursor
    and branch 0 (moving the cursor to [k]) when the cursor is below,
    and only the device on that branch keeps answering. *)
Lemma discrepancy_step (devs : list (list Z)) (r0 r1 : list Z) (k : nat) (last : Z)
    (ps : pass_state) :
  (k < 64)%nat -> last <= Z.of_nat k ->
  devs = [r0; r1] \/ devs = [r1; r0] ->
  rom_bit (Z.of_nat k) r0 = false -> rom_bit (Z.of_nat k) r1 = true ->
  is_rom (rom ps) ->
  exists rom',
    store_bit (Z.of_nat k) (Z.b2z (Z.of_nat k =? last)) (rom ps)
      (searching devs [if Z.of_nat k =? last then r1 else r0] (S k))
    = (Ok rom', searching devs [if Z.of_nat k =? last then r1 else r0] (S k))
    /\ search_bits [Z.of_nat k] last ps (searching devs devs k)
       = (Ok (mkPass rom'
                (if Z.of_nat k =? last then discrepancy ps else Z.of_nat k)
                (history ps ++ [mkSlot (Z.of_nat k) 0 0 (Z.b2z (Z.of_nat k =? last))]),
              false),
          searching devs [if Z.of_nat k =? last then r1 else r0] (S k)).
Proof.
  intros Hk Hlast Hdevs Hk0 Hk1 Hrom.
  assert (Hpos : 0 <= Z.of_nat k < 64) by lia.
  destruct (store_bit_total (Z.of_nat k) (Z.b2z (Z.of_nat k =? last)) (rom ps)
              (searching devs [if Z.of_nat k =? last then r1 else r0] (S k)) Hpos Hrom)
    as (rom' & Hstore).
  exists rom'. split; [exact Hstore |].
  assert (Hread : forallb (rom_bit (Z.of_nat k)) devs = false
                  /\ forallb (fun r => negb (rom_bit (Z.of_nat k) r)) devs = false).
  { destruct Hdevs as [-> | ->]; simpl; rewrite Hk0, Hk1; split; reflexivity. }
  assert (Hfilter : forall d : bool,
            filter (fun r => rom_bit (Z.of_nat k) r = d) devs = [if d then r1 else r0]).
  { intros d. destruct Hdevs as [-> | ->]; rewrite !filter_cons, filter_nil, Hk0, Hk1;
      destruct d; reflexivity. }
  destruct Hread as [Hread Hcomp].
  cbn [search_bits]. unfold bind.
  rewrite searching_at by exact Hk.
  rewrite read_slot, Hread. cbv beta iota.
  rewrite complement_slot, Hcomp. cbv beta iota.
  cbn [Z.eqb andb]. unfold resolve.
  destruct (Z.eqb_spec (Z.of_nat k) last) as [Heq | Hne].
  - unfold ret. cbv beta iota. cbn [fst snd].
    pose proof (direction_slot devs devs (Z.of_nat k) true) as Hdir.
    cbn [Z.b2z] in Hdir, Hstore |- *. rewrite Hdir, Hfilter, searching_next by exact Hk.
    rewrite Hstore. reflexivity.
  - destruct (Z.gtb_spec (Z.of_nat k) last) as [_ | Hle]; [| lia].
    unfold ret. cbv beta iota. cbn [fst snd].
    pose proof (direction_slot devs devs (Z.of_nat k) false) as Hdir.
    cbn [Z.b2z] in Hdir, Hstore |- *. rewrite Hdir, Hfilter, searching_next by exact Hk.
    rewrite Hstore. reflexivity.
Qed.

Lemma range_64_split (k : nat) :
  (k < 64)%nat ->
  range 64 = (Z.of_nat <$> seq 0 k) ++ [Z.of_nat k] ++ (Z.of_nat <$> seq (S k) (63 - k)).
Proof.
  intros Hk. unfold range.
  replace 64%nat with (k + (1 + (63 - k)))%nat at 1 by lia.
  rewrite (seq_app k (1 + (63 - k)) 0), (seq_app 1 (63 - k) (0 + k)), !fmap_app.
  cbn [Nat.add seq fmap list_fmap]. replace (k + 1)%nat with (S k) by lia. reflexivity.
Qed.

(** A pass over two devices that first differ at position [k], from
    the cursor 0 or from the cursor [k]. *)
Lemma two_device_pass (devs : list (list Z)) (r0 r1 : list Z) (k : nat) (last : Z) :
  is_rom r0 -> is_rom r1 -> (k < 64)%nat ->
  last = 0 \/ last = Z.of_nat k ->
  devs = [r0; r1] \/ devs = [r1; r0] ->
  (forall p, 0 <= p < Z.of_nat k -> rom_bit p r0 = rom_bit p r1) ->
  rom_bit (Z.of_nat k) r0 = false -> rom_bit (Z.of_nat k) r1 = true ->
  exists ps,
    search_bits (range 64) last (mkPass (replicate 8 0) 0 []) (searching devs devs 0)
    = (Ok (ps, false), searching devs [if Z.of_nat k =? last then r1 else r0] 64)
    /\ rom ps = (if Z.of_nat k =? last then r1 else r0)
    /\ discrepancy ps = (if Z.of_nat k =? last then 0 else Z.of_nat k).
Proof.
  intros Hr0 Hr1 Hk Hlast Hdevs Hsame Hk0 Hk1.
  assert (Hne : devs <> []) by (destruct Hdevs as [-> | ->]; discriminate).
  (* positions below k *)
  destruct (agree_segment devs devs r0 last k 0 (mkPass (replicate 8 0) 0 []))
    as (ps1 & Hrun1 & Hdisc1 & Hrom1 & Hbits1); try assumption.
  { lia. }
  { assert (Hboth : forall x, x = r0 \/ x = r1 ->
              forall p, Z.of_nat 0 <= p < Z.of_nat (0 + k) -> rom_bit p x = rom_bit p r0).
    { intros x [-> | ->] p Hp; [reflexivity | symmetry; apply Hsame; lia]. }
    destruct Hdevs as [-> | ->]; repeat constructor; apply Hboth; auto. }
  { exact fresh_buffer_rom. }
  { intros p Hp. apply fresh_buffer_zero. lia. }
  cbn [Nat.add] in Hrun1, Hbits1. cbn [discrepancy] in Hdisc1.
  change (Z.of_nat 0) with 0 in Hbits1. cbn [rom] in Hbits1.
  (* position k *)
  destruct (discrepancy_step devs r0 r1 k last ps1) as (rom2 & Hstore & Hstep);
    try assumption; try lia.
  assert (Hpos : 0 <= Z.of_nat k < 64) by lia.
  pose proof (store_bit_inv _ _ _ _ _ _ Hpos Hstore Hrom1) as [_ Hrom2].
  assert (Hbits2 : forall p, 0 <= p < 64 ->
            rom_bit_at rom2 p
            = if p =? Z.of_nat k then Z.b2z (Z.of_nat k =? last) else rom_bit_at (rom ps1) p).
  { intros p Hp. destruct (Z.of_nat k =? last).
    - eapply store_bit_sets; [| exact Hrom1 | | exact Hstore |]; simpl; lia.
    - unfold store_bit in Hstore. simpl in Hstore. unfold ret in Hstore. simplify_eq.
      destruct (Z.eqb_spec p (Z.of_nat k)) as [-> | _]; [| reflexivity].
      rewrite Hbits1 by lia.
      destruct (Z.leb_spec 0 (Z.of_nat k)), (Z.ltb_spec (Z.of_nat k) (Z.of_nat k));
        try lia. simpl. apply fresh_buffer_zero. lia. }
  (* positions above k *)
  set (rd := if Z.of_nat k =? last then r1 else r0) in *.
  assert (Hrd : is_rom rd) by (unfold rd; destruct (Z.of_nat k =? last); assumption).
  destruct (agree_segment devs [rd] rd last (63 - k) (S k)
              (mkPass rom2 (if Z.of_nat k =? last then discrepancy ps1 else Z.of_nat k)
                 (history ps1 ++ [mkSlot (Z.of_nat k) 0 0 (Z.b2z (Z.of_nat k =? last))])))
    as (ps3 & Hrun3 & Hdisc3 & Hrom3 & Hbits3).
  { lia. } { discriminate. } { repeat constructor. } { exact Hrom2. }
  { intros p Hp. cbn [rom]. rewrite Hbits2 by lia.
    destruct (Z.eqb_spec p (Z.of_nat k)); [lia |].
    rewrite Hbits1 by lia.
    destruct (Z.leb_spec 0 p), (Z.ltb_spec p (Z.of_nat k)); try lia.
    simpl. apply fresh_buffer_zero. lia. }
  replace (S k + (63 - k))%nat with 64%nat in Hrun3, Hbits3 by lia.
  cbn [rom discrepancy] in Hdisc3, Hbits3.
  exists ps3. split; [| split].
  - rewrite (range_64_split k) by lia.
    rewrite search_bits_app, Hrun1. rewrite search_bits_app, Hstep. exact Hrun3.
  - apply rom_bits_ext; try assumption. intros p Hp.
    rewrite Hbits3 by exact Hp. rewrite (rom_bit_at_bus rd p Hp Hrd).
    destruct (Z.leb_spec (Z.of_nat (S k)) p), (Z.ltb_spec p (Z.of_nat 64)); try lia;
      [reflexivity |]. cbn [andb].
    rewrite Hbits2 by exact Hp.
    destruct (Z.eqb_spec p (Z.of_nat k)) as [-> | Hpk].
    + unfold rd. destruct (Z.of_nat k =? last); [rewrite Hk1 | rewrite Hk0]; reflexivity.
    + rewrite Hbits1 by exact Hp.
      destruct (Z.leb_spec 0 p), (Z.ltb_spec p (Z.of_nat k)); try lia. cbn [andb].
      unfold rd. destruct (Z.of_nat k =? last); [rewrite Hsame by lia |]; reflexivity.
  - rewrite Hdisc3, Hdisc1. reflexivity.
Qed.

(** X16. On a bus with two devices whose ROM codes (eight bytes, valid
    CRC) first differ at a bit position other than 0, [search_rom]
    returns after two passes with exactly the two codes, the one with
    bit 0 at that position first, whatever their order on the bus. *)
Theorem search_rom_finds_two_devices (path : string) (r0 r1 : list Z) (k fuel : nat)
    (devs : list (list Z))
    (Hr0 : is_rom r0) (Hr1 : is_rom r1) (Hc0 : crc_ok r0) (Hc1 : crc_ok r1)
    (Hk : (0 < k < 64)%nat)
    (Hdevs : devs = [r0; r1] \/ devs = [r1; r0])
    (Hsame : forall p, 0 <= p < Z.of_nat k -> rom_bit p r0 = rom_bit p r1)
    (Hk0 : rom_bit (Z.of_nat k) r0 = false) (Hk1 : rom_bit (Z.of_nat k) r1 = true) :
  fst (search_rom path (2 + fuel) (start devs)) = Ok [r0; r1].
Proof.
  assert (Hne : devs <> []) by (destruct Hdevs as [-> | ->]; discriminate).
  destruct (two_device_pass devs r0 r1 k 0) as (ps1 & Hrun1 & Hrom1 & Hdisc1);
    try assumption; [lia | left; reflexivity |].
  destruct (two_device_pass devs r0 r1 k (Z.of_nat k)) as (ps2 & Hrun2 & Hrom2 & Hdisc2);
    try assumption; [lia | right; reflexivity |].
  rewrite Z.eqb_refl in Hrun2, Hrom2, Hdisc2.
  destruct (Z.eqb_spec (Z.of_nat k) 0) as [| _]; [lia |].
  unfold search_rom. change (2 + fuel)%nat with (S (S fuel)).
  rewrite (search_loop_next path (S fuel) [] 0 (start devs) (searching devs [r0] 64) ps1).
  - rewrite Hrom1, Hdisc1. cbn [app].
    rewrite (search_loop_last path fuel [r0] (Z.of_nat k) (searching devs [r0] 64)
               (searching devs [r1] 64) ps2).
    + rewrite Hrom2. reflexivity.
    + rewrite (pass_prefix path (Z.of_nat k) devs); [| exact Hne | right; eexists; reflexivity].
      rewrite Hrun2. reflexivity.
    + rewrite Hrom2. exact Hc1.
    + exact Hdisc2.
  - rewrite (pass_prefix path 0 devs); [| exact Hne | left; reflexivity].
    rewrite Hrun1. reflexivity.
  - rewrite Hrom1. exact Hc0.
  - rewrite Hdisc1. lia.
Qed.

Lemma search_rom_finds_two_devices_witness :
  fst (search_rom "/dev/ttyUSB0" (2 + 0) (start [romC; romA])) = Ok [romA; romC].
Proof.
  apply (search_rom_finds_two_devices "/dev/ttyUSB0" romA romC 8 0 [romC; romA]).
  - split; [reflexivity | repeat constructor; unfold is_byte; lia].
  - split; [reflexivity | repeat constructor; unfold is_byte; lia].
  - reflexivity.
  - reflexivity.
  - lia.
  - right. reflexivity.
  - intros p Hp.
    assert (Hall : forallb (fun p => Bool.eqb (rom_bit p romA) (rom_bit p romC)) (range 8) = true)
      by reflexivity.
    rewrite forallb_forall in Hall.
    apply Bool.eqb_prop, Hall, list_elem_of_In, range_elem. exact Hp.
  - reflexivity.
  - reflexivity.
Defined.

(** X17. On a bus with two devices whose ROM codes differ at bit 0
    (two family codes of different parity), [search_rom] returns after
    one pass with the code that has bit 0 set and never finds the
    other: position 0 is also the value of the cursor before the first
    pass, so the first pass takes branch 1 there and records nothing
    to come back to. *)
Theorem search_rom_misses_device_at_bit0 (path : string) (r0 r1 : list Z) (fuel : nat)
    (devs : list (list Z))
    (Hr0 : is_rom r0) (Hr1 : is_rom r1) (Hc1 : crc_ok r1)
    (Hdevs : devs = [r0; r1] \/ devs = [r1; r0])
    (Hk0 : rom_bit 0 r0 = false) (Hk1 : rom_bit 0 r1 = true) :
  fst (search_rom path (S fuel) (start devs)) = Ok [r1].
Proof.
  assert (Hne : devs <> []) by (destruct Hdevs as [-> | ->]; discriminate).
  destruct (two_device_pass devs r0 r1 0 0) as (ps & Hrun & Hrom & Hdisc);
    try assumption; [lia | left; reflexivity | intros p Hp; lia |].
  change (Z.of_nat 0 =? 0) with true in Hrun, Hrom, Hdisc. cbv iota in Hrun, Hrom, Hdisc.
  unfold search_rom.
  rewrite (search_loop_last path fuel [] 0 (start devs) (searching devs [r1] 64) ps).
  - rewrite Hrom. reflexivity.
  - rewrite (pass_prefix path 0 devs); [| exact Hne | left; reflexivity].
    rewrite Hrun. reflexivity.
  - rewrite Hrom. exact Hc1.
  - exact Hdisc.
Qed.

Lemma search_rom_misses_device_at_bit0_witness :
  fst (search_rom "/dev/ttyUSB0" 1 (start [romA; romD])) = Ok [romD].
Proof.
  apply (search_rom_misses_device_at_bit0 "/dev/ttyUSB0" romA romD 0 [romA; romD]).
  - split; [reflexivity | repeat constructor; unfold is_byte; lia].
  - split; [reflexivity | repeat constructor; unfold is_byte; lia].
  - reflexivity.
  - left. reflexivity.
  - reflexivity.
  - reflexivity.
Defined.

End BusSearch.

(** ** The configuration file: words, lines and the round trip *)

Section ConfigText.

Local Notation "a +:+ b" := (String.append a b) (at level 60, right associativity).

Lemma append_assoc (a b c : string) : (a +:+ b) +:+ c = a +:+ (b +:+ c).
Proof. induction a as [| x a IH]; simpl; [reflexivity | rewrite IH; reflexivity]. Qed.

Lemma append_nil_r (a : string) : a +:+ EmptyString = a.
Proof. induction a as [| x a IH]; simpl; [reflexivity | rewrite IH; reflexivity]. Qed.

Lemma all_chars_app (P : ascii -> bool) (a b : string) :
  all_chars P (a +:+ b) = all_chars P a && all_chars P b.
Proof.
  induction a as [| x a IH]; simpl; [reflexivity |].
  rewrite IH, andb_assoc. reflexivity.
Qed.

(** *** [strip] and [split] *)

Lemma split_from_rstrip (s : string) :
  forall cur, split_from cur (rstrip s) = split_from cur s.
Proof.
  induction s as [| c s IH]; intros cur; [reflexivity |].
  simpl. destruct (rstrip s) as [| c' r] eqn:Hr.
  - destruct (is_space c) eqn:Hc; simpl; rewrite ?Hc.
    + destruct cur; rewrite <- IH; reflexivity.
    + rewrite <- IH. reflexivity.
  - simpl. destruct (is_space c); [destruct cur |]; rewrite <- IH; reflexivity.
Qed.

Lemma split_from_lstrip (s : string) :
  split_from EmptyString (lstrip s) = split_from EmptyString s.
Proof.
  induction s as [| c s IH]; [reflexivity |].
  simpl. destruct (is_space c) eqn:Hc; [exact IH |]. simpl. rewrite Hc. reflexivity.
Qed.

(** Stripping a line first does not change the words [split] finds. *)
Lemma split_strip (s : string) : split (strip s) = split s.
Proof. unfold split, strip. rewrite split_from_lstrip. apply split_from_rstrip. Qed.

(** A line that starts with a character other than whitespace keeps
    it when stripped. *)
Lemma strip_head (c : ascii) (s : string) :
  is_space c = false -> exists r, strip (String c s) = String c r.
Proof.
  intros Hc. unfold strip. simpl.
  destruct (rstrip s) as [| c' r]; rewrite ?Hc; simpl; rewrite Hc; eexists; reflexivity.
Qed.

Lemma split_from_word (w : string) :
  all_chars (fun c => negb (is_space c)) w = true ->
  forall cur rest, split_from cur (w +:+ rest) = split_from (cur +:+ w) rest.
Proof.
  induction w as [| c w IH]; intros Hw cur rest; simpl.
  - rewrite append_nil_r. reflexivity.
  - simpl in Hw. apply andb_true_iff in Hw. destruct Hw as [Hc Hw].
    apply negb_true_iff in Hc. rewrite Hc, (IH Hw), append_assoc. reflexivity.
Qed.

Lemma is_word_spec (w : string) :
  is_word w = true ->
  w <> EmptyString /\ all_chars (fun c => negb (is_space c)) w = true.
Proof.
  unfold is_word. intros Hw. apply andb_true_iff in Hw. destruct Hw as [Hne Hall].
  split; [| exact Hall]. intros ->. discriminate.
Qed.

(** Words joined by single spaces, and a line feed: [split] gives the
    words back. *)
Lemma split_words (ws : list string) :
  Forall (fun w => is_word w = true) ws ->
  split (join " " ws +:+ String LF EmptyString) = ws.
Proof.
  unfold split. induction 1 as [| w ws Hw Hws IH]; [reflexivity |].
  apply is_word_spec in Hw. destruct Hw as [Hne Hall].
  destruct ws as [| w' ws].
  - simpl. rewrite split_from_word by exact Hall. simpl.
    destruct w; [contradiction | reflexivity].
  - change (join " " (w :: w' :: ws)) with (w +:+ " " +:+ join " " (w' :: ws)).
    rewrite !append_assoc, split_from_word by exact Hall. simpl.
    destruct w; [contradiction |]. simpl. f_equal. exact IH.
Qed.

(** *** Lines *)

Lemma lines_from_plain (l : string) :
  all_chars (fun c => negb (Ascii.eqb c CR) && negb (Ascii.eqb c LF)) l = true ->
  forall cur rest,
    lines_from cur (universal_newlines (l +:+ String LF rest))
    = (cur +:+ l +:+ String LF EmptyString)
        :: lines_from EmptyString (universal_newlines rest).
Proof.
  induction l as [| c l IH]; intros Hl cur rest.
  - reflexivity.
  - simpl in Hl. apply andb_true_iff in Hl. destruct Hl as [Hc Hl].
    apply andb_true_iff in Hc. destruct Hc as [Hcr Hlf].
    apply negb_true_iff in Hcr, Hlf.
    cbn [String.append universal_newlines]. rewrite Hcr.
    cbn [lines_from]. rewrite Hlf, (IH Hl), append_assoc. reflexivity.
Qed.

Lemma word_plain (w : string) :
  all_chars (fun c => negb (is_space c)) w = true ->
  all_chars (fun c => negb (Ascii.eqb c CR) && negb (Ascii.eqb c LF)) w = true.
Proof.
  induction w as [| c w IH]; [reflexivity |]. simpl. intros Hw.
  apply andb_true_iff in Hw. destruct Hw as [Hc Hw]. rewrite (IH Hw), andb_true_r.
  destruct (Ascii.eqb_spec c CR) as [-> | _]; [discriminate |].
  destruct (Ascii.eqb_spec c LF) as [-> | _]; [discriminate | reflexivity].
Qed.

Lemma join_plain (ws : list string) :
  Forall (fun w => is_word w = true) ws ->
  all_chars (fun c => negb (Ascii.eqb c CR) && negb (Ascii.eqb c LF)) (join " " ws) = true.
Proof.
  induction 1 as [| w ws Hw _ IH]; [reflexivity |].
  apply is_word_spec in Hw. destruct Hw as [_ Hall]. apply word_plain in Hall.
  destruct ws as [| w' ws]; [exact Hall |].
  change (join " " (w :: w' :: ws)) with (w +:+ " " +:+ join " " (w' :: ws)).
  rewrite !all_chars_app, Hall, IH. reflexivity.
Qed.

End ConfigText.

Section ConfigRoundTrip.

Local Notation "a +:+ b" := (String.append a b) (at level 60, right associativity).

Lemma uint_chars (d : Decimal.uint) :
  all_chars (fun c => negb (is_space c)) (NilEmpty.string_of_uint d) = true.
Proof. induction d; simpl; auto. Qed.

Lemma str_of_nat_word (n : nat) : is_word (str_of_nat n) = true.
Proof.
  unfold str_of_nat, is_word, NilZero.string_of_uint.
  pose proof (uint_chars (Nat.to_uint n)) as Hall.
  destruct (Nat.to_uint n); try reflexivity; simpl in *; exact Hall.
Qed.

(** A byte is written as a word, [0x] and two digits, that [int] reads
    back once the [0x] is removed. *)
Lemma rom_token (b : Z) :
  is_byte b ->
  is_word ("0x" +:+ format_02X b) = true
  /\ py_int16 (remove_0x ("0x" +:+ format_02X b)) = Some b.
Proof.
  intros Hb.
  assert (Hall : forallb (fun b =>
                   is_word ("0x" +:+ format_02X b)
                   && match py_int16 (remove_0x ("0x" +:+ format_02X b)) with
                      | Some v => v =? b
                      | None => false
                      end) (range 256) = true) by (vm_compute; reflexivity).
  rewrite forallb_forall in Hall.
  specialize (Hall b (proj1 (list_elem_of_In _ _) (range_elem 256 b Hb))).
  apply andb_true_iff in Hall. destruct Hall as [Hword Hint].
  split; [exact Hword |].
  destruct (py_int16 _) as [v |]; [| discriminate].
  apply Z.eqb_eq in Hint. congruence.
Qed.

(** What the loop body does with a line of at least two words that does
    not start with [#]. *)
Lemma config_line_words (acc : string * list (list Z)) (c : ascii) (w0 w1 : string)
    (ws : list string) :
  Forall (fun w => is_word w = true) (String c w0 :: w1 :: ws) ->
  c <> "#"%char ->
  config_line acc (join " " (String c w0 :: w1 :: ws) +:+ String LF EmptyString)
  = if String.eqb (String c w0) "TTY" then Some (w1, snd acc)
    else if String.eqb (String c w0) "ROM" && (10 <=? length (String c w0 :: w1 :: ws))%nat
         then match parse_rom (String c w0 :: w1 :: ws) with
              | Some rom => Some (fst acc, snd acc ++ [rom])
              | None => None
              end
         else Some acc.
Proof.
  intros Hws Hc.
  pose proof (split_words _ Hws) as Hsplit. rewrite <- split_strip in Hsplit.
  assert (Hspace : is_space c = false).
  { apply Forall_inv, is_word_spec in Hws. destruct Hws as [_ Hall].
    simpl in Hall. apply andb_true_iff in Hall. destruct Hall as [Hall _].
    apply negb_true_iff in Hall. exact Hall. }
  unfold config_line. rewrite Hsplit.
  change (join " " (String c w0 :: w1 :: ws))
    with (String c (w0 +:+ " " +:+ join " " (w1 :: ws))).
  cbn [String.append].
  match goal with
  | |- context [strip (String c ?s)] => destruct (strip_head c s Hspace) as [r ->]
  end.
  cbn [String.eqb orb String.prefix].
  destruct (ascii_dec "#" c) as [<- | _]; [contradiction |].
  reflexivity.
Qed.

Lemma line_app (l rest : string) :
  (l +:+ String LF EmptyString) +:+ rest = l +:+ String LF rest.
Proof. rewrite append_assoc. reflexivity. Qed.

(** The lines written for the sensors are read back as the sensors. *)
Lemma config_rom_lines (sensors : list (list Z)) :
  Forall is_rom sensors ->
  forall (idx : nat) (device : string) (acc : list (list Z)),
    config_lines (device, acc)
      (lines_from EmptyString (universal_newlines (rom_lines idx sensors)))
    = Some (device, acc ++ sensors).
Proof.
  induction 1 as [| rom sensors Hrom _ IH]; intros idx device acc.
  - simpl. rewrite app_nil_r. reflexivity.
  - destruct Hrom as [Hlen Hbytes].
    destruct rom as [| b0 [| b1 [| b2 [| b3 [| b4 [| b5 [| b6 [| b7 [| b8 rom]]]]]]]]];
      try discriminate.
    set (tok := fun byte => "0x" +:+ format_02X byte).
    assert (Htok : Forall (fun b => is_word (tok b) = true
                                    /\ py_int16 (remove_0x (tok b)) = Some b)
                     [b0; b1; b2; b3; b4; b5; b6; b7]).
    { eapply Forall_impl; [exact Hbytes |]. intros b Hb. apply rom_token, Hb. }
    set (ws := "ROM"%string :: str_of_nat idx :: (tok <$> [b0; b1; b2; b3; b4; b5; b6; b7])).
    assert (Hws : Forall (fun w => is_word w = true) ws).
    { constructor; [reflexivity |]. constructor; [apply str_of_nat_word |].
      apply Forall_fmap. eapply Forall_impl; [exact Htok |]. intros b [Hw _]. exact Hw. }
    assert (Hline : rom_lines idx ([b0; b1; b2; b3; b4; b5; b6; b7] :: sensors)
                    = join " " ws +:+ String LF (rom_lines (S idx) sensors)).
    { cbn [rom_lines]. fold tok. unfold ws. cbn [join fmap list_fmap].
      repeat first [rewrite !append_assoc | progress cbn [String.append]].
      reflexivity. }
    rewrite Hline.
    rewrite lines_from_plain by (apply join_plain, Hws).
    cbn [config_lines String.append].
    unfold ws at 1. rewrite (config_line_words (device, acc) "R" "OM");
      [| exact Hws | discriminate].
    cbn [String.eqb Ascii.eqb Bool.eqb andb length fmap list_fmap Nat.leb fst snd].
    assert (Hparse : parse_rom ("ROM"%string :: str_of_nat idx ::
                                  (tok <$> [b0; b1; b2; b3; b4; b5; b6; b7]))
                     = Some [b0; b1; b2; b3; b4; b5; b6; b7]).
    { apply mapM_Some_2. cbn [seq fmap list_fmap].
      repeat (apply Forall2_cons_2 || apply Forall2_nil_2);
        cbn [lookup list_lookup];
        repeat match goal with
               | Hf : Forall _ (_ :: _) |- _ => apply Forall_cons_1 in Hf; destruct Hf as [[_ ?] Hf]
               end; assumption. }
    cbn [fmap list_fmap] in Hparse. rewrite Hparse.
    rewrite IH, <- app_assoc. reflexivity.
Qed.

(** What [read_config] finds in a file written by [write_config], the
    device path being words with single spaces between them. *)
Lemma read_written (w : string) (ws : list string) (sensors : list (list Z)) :
  Forall (fun w => is_word w = true) (w :: ws) ->
  Forall is_rom sensors ->
  read_config (Some (write_config (join " " (w :: ws)) sensors)) = Some (w, sensors).
Proof.
  intros Hpath Hsensors.
  unfold read_config, file_lines, write_config.
  set (path := join " " (w :: ws)).
  assert (Htty : Forall (fun w => is_word w = true) ("TTY"%string :: w :: ws))
    by (constructor; [reflexivity | exact Hpath]).
  assert (Hcount : Forall (fun w => is_word w = true)
                     ["SENSORS"%string; str_of_nat (length sensors)])
    by (repeat constructor; apply str_of_nat_word).
  change ("TTY " +:+ path +:+ String LF EmptyString)
    with ("TTY" +:+ " " +:+ path +:+ String LF EmptyString).
  change ("SENSORS " +:+ str_of_nat (length sensors) +:+ String LF EmptyString)
    with ("SENSORS" +:+ " " +:+ str_of_nat (length sensors) +:+ String LF EmptyString).
  rewrite <- !(append_assoc _ _ (String LF EmptyString)), !line_app.
  change ("TTY" +:+ " " +:+ path) with (join " " ("TTY"%string :: w :: ws)).
  change ("SENSORS" +:+ " " +:+ str_of_nat (length sensors))
    with (join " " ["SENSORS"%string; str_of_nat (length sensors)]).
  rewrite lines_from_plain by (apply join_plain, Htty).
  rewrite lines_from_plain by reflexivity.
  rewrite lines_from_plain by (apply join_plain, Hcount).
  cbn [config_lines String.append].
  rewrite (config_line_words _ "T" "TY" w ws); [| exact Htty | discriminate].
  cbn [String.eqb Ascii.eqb Bool.eqb snd].
  match goal with
  | |- context [config_line (w, []) ?l] =>
      change (config_line (w, []) l) with (Some (w, @nil (list Z)))
  end.
  cbv beta iota.
  rewrite (config_line_words _ "S" "ENSORS" (str_of_nat (length sensors)) []);
    [| exact Hcount | discriminate].
  cbn [String.eqb Ascii.eqb Bool.eqb andb].
  rewrite config_rom_lines by exact Hsensors. reflexivity.
Qed.

(** X18. A configuration written by [write_config] is read back by
    [read_config] as it was: the same device path, when it is a word
    (not empty, no whitespace), and the same ROM codes, when they are
    eight bytes each as [search_rom] returns them. *)
Theorem config_round_trip (device_path : string) (sensors : list (list Z))
    (Hpath : is_word device_path = true) (Hsensors : Forall is_rom sensors) :
  read_config (Some (write_config device_path sensors)) = Some (device_path, sensors).
Proof.
  apply (read_written device_path [] sensors); [| exact Hsensors].
  constructor; [exact Hpath | constructor].
Qed.

Lemma config_round_trip_witness :
  read_config (Some (write_config "/dev/ttyUSB1" [SimBus.romA; SimBus.romB]))
  = Some ("/dev/ttyUSB1"%string, [SimBus.romA; SimBus.romB]).
Proof.
  apply config_round_trip; [reflexivity |].
  repeat constructor; unfold is_byte; lia.
Defined.

(** X19. A device path with a space in it does not survive the round
    trip: [write_config] writes it as it is, [read_config] takes the
    second word of the line, and so reads back the path cut at its
    first space, without an error; the ROM codes are read back as they
    were. *)
Theorem config_path_cut_at_space (w w' : string) (ws : list string)
    (sensors : list (list Z))
    (Hpath : Forall (fun w => is_word w = true) (w :: w' :: ws))
    (Hsensors : Forall is_rom sensors) :
  read_config (Some (write_config (w +:+ " " +:+ join " " (w' :: ws)) sensors))
  = Some (w, sensors).
Proof. exact (read_written w (w' :: ws) sensors Hpath Hsensors). Qed.

Lemma config_path_cut_at_space_witness :
  read_config (Some (write_config "/dev/my adapter" [SimBus.romA]))
  = Some ("/dev/my"%string, [SimBus.romA]).
Proof.
  apply (config_path_cut_at_space "/dev/my" "adapter" [] [SimBus.romA]).
  - repeat constructor.
  - repeat constructor; unfold is_byte; lia.
Defined.

(** *** What [read_config] returns on any file *)

Lemma parse_rom_length (parts : list string) (rom : list Z) :
  parse_rom parts = Some rom -> length rom = 8%nat.
Proof.
  unfold parse_rom. intros Hrom. apply length_mapM in Hrom.
  rewrite <- Hrom. reflexivity.
Qed.

Lemma config_line_length (acc acc' : string * list (list Z)) (line : string) :
  config_line acc line = Some acc' ->
  Forall (fun rom => length rom = 8%nat) (snd acc) ->
  Forall (fun rom => length rom = 8%nat) (snd acc').
Proof.
  unfold config_line. intros Hline Hacc.
  repeat case_match; simplify_eq; simpl; try assumption.
  apply Forall_app. split; [exact Hacc |].
  constructor; [| constructor]. eapply parse_rom_length. eassumption.
Qed.

Lemma config_lines_length (lines : list string) :
  forall acc acc',
    config_lines acc lines = Some acc' ->
    Forall (fun rom => length rom = 8%nat) (snd acc) ->
    Forall (fun rom => length rom = 8%nat) (snd acc').
Proof.
  induction lines as [| line lines IH]; intros acc acc' Hlines Hacc; simpl in Hlines.
  - simplify_eq. exact Hacc.
  - destruct (config_line acc line) as [acc1 |] eqn:Hline; [| discriminate].
    eapply IH; [exact Hlines |]. eapply config_line_length; eassumption.
Qed.

(** X20. Whatever the file holds, and also when there is none, every
    ROM code that [read_config] returns has exactly eight entries: a
    [ROM] line with fewer than eight values after its index is skipped,
    values after the eighth are dropped. *)
Theorem read_config_rom_length (file : option string) (device_path : string)
    (sensors : list (list Z))
    (Hread : read_config file = Some (device_path, sensors)) :
  Forall (fun rom => length rom = 8%nat) sensors.
Proof.
  unfold read_config in Hread. destruct file as [content |].
  - apply (config_lines_length _ _ _ Hread). constructor.
  - simplify_eq. constructor.
Qed.

Lemma read_config_rom_length_witness :
  Forall (fun rom => length rom = 8%nat) [SimBus.romA; SimBus.romB].
Proof.
  apply (read_config_rom_length
           (Some (write_config "/dev/ttyUSB1" [SimBus.romA; SimBus.romB]))
           "/dev/ttyUSB1" [SimBus.romA; SimBus.romB]).
  vm_compute. reflexivity.
Defined.

End ConfigRoundTrip.
